(** * Weather analytics: the data transformation and analysis pipeline

    A shallow embedding of [src/processing/analyzer.py]
    (class [WeatherDataProcessor]) and the properties of its operations,
    followed by the code around it: the fetcher of [src/data/fetcher.py]
    that produces the raw payloads, and the two consumers of the alert
    list, [consolidate_alerts] of [src/app.py] and
    [send_alert_notifications] of [dags/weather_pipeline_dag.py].

    Modelling conventions.

    - Measurements (temperature, humidity, precipitation, wind speed, cloud
      cover, coordinates) are exact rationals [Q]: the development reasons
      about the arithmetic the code writes down, not about binary64 rounding,
      and a measurement is never NaN.  Equality of computed numbers is
      therefore [==] (Qeq); a number that is copied is equal with [=].
    - A timestamp is an integer count of minutes ([Z]); [.dt.date] is the
      count of whole days.
    - A Python exception is a value of [exn]; code that can raise returns
      [result].
    - pandas frames occur at two levels.  Module [Frame] is the untyped
      frame (named columns of cells) that the normalizer builds and the daily
      aggregator consumes: there the behaviour depends on which columns
      exist.  [DataFrame] below is the well-formed observation table: every
      base column of the data model is present and numeric, and the optional
      or derived columns ([state], [region], [temp_ma], [temp_anomaly]) are
      listed in [columns].
    - Library functions whose result the code only passes along
      ([pd.to_datetime], the [.1f] formatting of a float, the square root
      inside [Series.std]) are parameters of the sections that use them.
    - The network is an oracle: the outcome of the n-th request sent.  The
      fetcher threads a world that records the number of requests sent and
      the pauses taken. *)

From Stdlib Require Import List String ZArith QArith Qminmax Qabs Qround Bool Arith Lia Lqa.
From Stdlib Require Import Sorted Permutation DecimalString.
Import ListNotations.
Local Open Scope string_scope.
Local Open Scope list_scope.

(** * Part I: the model *)

(** ** Numbers and comparisons *)

Definition Qltb (a b : Q) : bool := negb (Qle_bool b a).
Definition Qgtb (a b : Q) : bool := Qltb b a.

(** [Series.sum()] *)
Definition Qsum (s : list Q) : Q := fold_right Qplus 0%Q s.

Definition Qlen (s : list Q) : Q := inject_Z (Z.of_nat (List.length s)).

(** [Series.mean()]: NaN ([None]) on an empty series. *)
Definition mean (s : list Q) : option Q :=
match s with
| [] => None
| _ :: _ => Some (Qsum s / Qlen s)%Q
end.

(** [Series.max()] and [Series.min()]: NaN ([None]) on an empty series. *)
Fixpoint series_max (s : list Q) : option Q :=
match s with
| [] => None
| x :: tl =>
    match series_max tl with
    | None => Some x
    | Some m => Some (Qmax x m)
    end
end.

Fixpoint series_min (s : list Q) : option Q :=
match s with
| [] => None
| x :: tl =>
    match series_min tl with
    | None => Some x
    | Some m => Some (Qmin x m)
    end
end.

(** [Series.max()] of a series of counts. *)
Fixpoint count_max (s : list nat) : option nat :=
match s with
| [] => None
| x :: tl =>
    match count_max tl with
    | None => Some x
    | Some m => Some (Nat.max x m)
    end
end.

(** ** Exceptions *)

Inductive exn : Type :=
| KeyError (key : string)
| ValueError (msg : string)
| TypeError (msg : string)
| AttributeError (msg : string).

(** [type(e).__name__] *)
Definition exn_name (e : exn) : string :=
match e with
| KeyError _ => "KeyError"
| ValueError _ => "ValueError"
| TypeError _ => "TypeError"
| AttributeError _ => "AttributeError"
end.

Inductive result (A : Type) : Type :=
| Ok (a : A)
| Err (e : exn).
Arguments Ok {A} a.
Arguments Err {A} e.

Definition bind {A B : Type} (r : result A) (k : A -> result B) : result B :=
match r with
| Ok a => k a
| Err e => Err e
end.

Notation "x <- r ;; k" := (bind r (fun x => k))
  (at level 61, r at next level, right associativity).

(** ** List helpers for pandas idioms *)

(** [Series.unique()]: the distinct values in order of first appearance. *)
Fixpoint unique {A : Type} (eqb : A -> A -> bool) (l : list A) : list A :=
match l with
| [] => []
| x :: tl => x :: filter (fun y => negb (eqb x y)) (unique eqb tl)
end.

(** [df[mask]]: the rows whose mask entry is true. *)
Fixpoint boolean_index {A : Type} (l : list A) (mask : list bool) : list A :=
match l, mask with
| x :: l', b :: mask' =>
    if b then x :: boolean_index l' mask' else boolean_index l' mask'
| _, _ => []
end.

(** [df.loc[mask, col] = values]: the rows selected by the mask take the
    values in order; the other rows are left as they are. *)
Fixpoint loc_set {A V : Type} (set : A -> V -> A)
    (l : list A) (mask : list bool) (values : list V) : list A :=
match l, mask with
| x :: l', true :: mask' =>
    match values with
    | v :: values' => set x v :: loc_set set l' mask' values'
    | [] => x :: loc_set set l' mask' []
    end
| x :: l', false :: mask' => x :: loc_set set l' mask' values
| _, _ => l
end.

(** A Python dict, in insertion order. *)
Definition dict (K V : Type) : Type := list (K * V).

Fixpoint dict_get {K V : Type} (eqb : K -> K -> bool) (d : dict K V) (k : K)
  : option V :=
match d with
| [] => None
| (k', v) :: d' => if eqb k' k then Some v else dict_get eqb d' k
end.


(** ** The observation table *)

Record Observation : Type := mkObservation {
  time : Z;
  city : string;
  latitude : Q;
  longitude : Q;
  state : option string;
  region : option string;
  temperature_2m : Q;
  relative_humidity_2m : Q;
  precipitation : Q;
  wind_speed_10m : Q;
  cloud_cover : Q;
  temp_ma : option Q;
  temp_anomaly : option bool
}.

Record DataFrame : Type := mkDataFrame {
  columns : list string;
  rows : list Observation
}.

(** [name in df.columns] *)
Definition has_column (df : DataFrame) (name : string) : bool :=
existsb (String.eqb name) (columns df).

(** A new column goes last; an existing one keeps its place. *)
Definition add_column (cols : list string) (name : string) : list string :=
if existsb (String.eqb name) cols then cols else cols ++ [name].

(** [df.empty] *)
Definition empty (df : DataFrame) : bool :=
match rows df with
| [] => true
| _ :: _ => false
end.

(** [df['city'].unique()] *)
Definition unique_cities (l : list Observation) : list string :=
unique String.eqb (map city l).

(** [df['city'] == city] *)
Definition city_mask (l : list Observation) (c : string) : list bool :=
map (fun r => String.eqb (city r) c) l.

Definition set_temp_ma (r : Observation) (v : option Q) : Observation :=
{| time := time r; city := city r; latitude := latitude r;
   longitude := longitude r; state := state r; region := region r;
   temperature_2m := temperature_2m r;
   relative_humidity_2m := relative_humidity_2m r;
   precipitation := precipitation r; wind_speed_10m := wind_speed_10m r;
   cloud_cover := cloud_cover r; temp_ma := v;
   temp_anomaly := temp_anomaly r |}.

Definition set_temp_anomaly (r : Observation) (v : bool) : Observation :=
{| time := time r; city := city r; latitude := latitude r;
   longitude := longitude r; state := state r; region := region r;
   temperature_2m := temperature_2m r;
   relative_humidity_2m := relative_humidity_2m r;
   precipitation := precipitation r; wind_speed_10m := wind_speed_10m r;
   cloud_cover := cloud_cover r; temp_ma := temp_ma r;
   temp_anomaly := Some v |}.

(** ** Configuration *)

Record AlertConfig : Type := mkAlertConfig {
  temperature_high_threshold : Q;
  temperature_low_threshold : Q;
  wind_speed_high_threshold : Q;
  precipitation_high_threshold : Q
}.

Record WeatherDataProcessor : Type := mkProcessor {
  ma_window : Z;
  anomaly_threshold : Q;
  alert_config : AlertConfig
}.

(** ** Rolling windows *)

(** The trailing window that ends at position [i]: at most [window] values. *)
Definition window_at (window : nat) (s : list Q) (i : nat) : list Q :=
skipn (i + 1 - window) (firstn (i + 1) s).

(** [Series.rolling(window, min_periods).agg()]: NaN ([None]) where the
    window holds fewer than [min_periods] values. *)
Definition rolling_apply (window min_periods : nat) (agg : list Q -> option Q)
    (s : list Q) : list (option Q) :=
map (fun i =>
       let w := window_at window s i in
       if (min_periods <=? List.length w)%nat then agg w else None)
    (seq 0 (List.length s)).

(** [rolling] validates its arguments before any window is built. *)
Definition rolling (window min_periods : Z) (agg : list Q -> option Q)
    (s : list Q) : result (list (option Q)) :=
if (window <? 0)%Z then
  Err (ValueError "window must be an integer 0 or greater")
else if (window <? min_periods)%Z then
  Err (ValueError "min_periods must be <= window")
else Ok (rolling_apply (Z.to_nat window) (Z.to_nat min_periods) agg s).

(** ** Signal enricher: moving average *)

Definition calculate_moving_averages (self : WeatherDataProcessor) (df : DataFrame)
  : result DataFrame :=
fold_left
  (fun acc c =>
     df <- acc ;;
     let city_mask := city_mask (rows df) c in
     ma <- rolling (ma_window self) 1 mean
             (map temperature_2m (boolean_index (rows df) city_mask)) ;;
     Ok {| columns := add_column (columns df) "temp_ma";
           rows := loc_set set_temp_ma (rows df) city_mask ma |})
  (unique_cities (rows df))
  (Ok df).

(** ** Signal enricher: anomaly detection *)

Section Anomalies.
(** The square root inside [Series.std]. *)
Variable sqrt : Q -> Q.

(** [Series.std()]: the sample standard deviation (one degree of freedom
    removed); NaN ([None]) on fewer than two values. *)
Definition std (s : list Q) : option Q :=
match mean s with
| None => None
| Some mu =>
    if (List.length s <=? 1)%nat then None
    else Some (sqrt (Qsum (map (fun x => (x - mu) * (x - mu)) s)
                     / (Qlen s - 1)))%Q
end.

Definition detect_anomalies (self : WeatherDataProcessor) (df : DataFrame)
  : DataFrame :=
let df := {| columns := add_column (columns df) "temp_anomaly";
             rows := map (fun r => set_temp_anomaly r false) (rows df) |} in
fold_left
  (fun df c =>
     let city_mask := city_mask (rows df) c in
     let city_temps := map temperature_2m (boolean_index (rows df) city_mask) in
     match mean city_temps, std city_temps with
     | Some mean_temp, Some std_temp =>
         if Qgtb std_temp 0 then
           let anomaly_mask :=
             map (fun t => Qgtb (Qabs (t - mean_temp))
                                (anomaly_threshold self * std_temp)) city_temps in
           {| columns := columns df;
              rows := loc_set set_temp_anomaly (rows df) city_mask anomaly_mask |}
         else df
     | _, _ => df
     end)
  (unique_cities (rows df))
  df.
End Anomalies.

(** ** Alert generator *)

Module Alert.
Record t : Type := mk {
  type : string;
  city : string;
  time : Z;
  value : Q;
  message : string
}.
End Alert.

Section Alerts.
(** [f"{x:.1f}"] *)
Variable format_1f : Q -> string.

Definition high_temperature_alert (row : Observation) : Alert.t :=
{| Alert.type := "high_temperature";
   Alert.city := city row;
   Alert.time := time row;
   Alert.value := temperature_2m row;
   Alert.message :=
     ("High temperature alert: " ++ format_1f (temperature_2m row) ++ "°C")%string |}.

Definition low_temperature_alert (row : Observation) : Alert.t :=
{| Alert.type := "low_temperature";
   Alert.city := city row;
   Alert.time := time row;
   Alert.value := temperature_2m row;
   Alert.message :=
     ("Low temperature alert: " ++ format_1f (temperature_2m row) ++ "°C")%string |}.

Definition high_wind_alert (row : Observation) : Alert.t :=
{| Alert.type := "high_wind";
   Alert.city := city row;
   Alert.time := time row;
   Alert.value := wind_speed_10m row;
   Alert.message :=
     ("High wind alert: " ++ format_1f (wind_speed_10m row) ++ " km/h")%string |}.

Definition heavy_precipitation_alert (row : Observation) : Alert.t :=
{| Alert.type := "heavy_precipitation";
   Alert.city := city row;
   Alert.time := time row;
   Alert.value := precipitation row;
   Alert.message :=
     ("Heavy precipitation alert: " ++ format_1f (precipitation row) ++ " mm")%string |}.

(** [for idx, row in frame.iterrows(): alerts.append(mk(row))] *)
Definition append_each (mk : Observation -> Alert.t)
    (frame : list Observation) (alerts : list Alert.t) : list Alert.t :=
fold_left (fun acc row => acc ++ [mk row]) frame alerts.

Definition generate_alerts (self : WeatherDataProcessor) (df : DataFrame)
  : list Alert.t :=
let cfg := alert_config self in
let alerts := [] in
let high_temp_mask :=
  map (fun r => Qgtb (temperature_2m r) (temperature_high_threshold cfg)) (rows df) in
let low_temp_mask :=
  map (fun r => Qltb (temperature_2m r) (temperature_low_threshold cfg)) (rows df) in
let alerts :=
  append_each high_temperature_alert (boolean_index (rows df) high_temp_mask) alerts in
let alerts :=
  append_each low_temperature_alert (boolean_index (rows df) low_temp_mask) alerts in
let high_wind_mask :=
  map (fun r => Qgtb (wind_speed_10m r) (wind_speed_high_threshold cfg)) (rows df) in
let alerts :=
  append_each high_wind_alert (boolean_index (rows df) high_wind_mask) alerts in
let high_precip_mask :=
  map (fun r => Qgtb (precipitation r) (precipitation_high_threshold cfg)) (rows df) in
let alerts :=
  append_each heavy_precipitation_alert (boolean_index (rows df) high_precip_mask) alerts in
alerts.
End Alerts.

(** ** Summary and regional statistics *)


(** Equality of keys that may be NaN, as [unique] and dict lookup see it:
    NaN is one key. *)
Definition key_eqb (a b : option string) : bool :=
match a, b with
| Some x, Some y => String.eqb x y
| None, None => true
| _, _ => false
end.







(** ** Pattern detector *)

Module HeatWave.
Record t : Type := mk {
  city : string;
  duration_hours : option nat;
  max_temp : option Q
}.
End HeatWave.

Module ColdFront.
Record t : Type := mk {
  city : string;
  temp_drop : option Q;
  time : Z
}.
End ColdFront.

Module HeavyRainEvent.
Record t : Type := mk {
  city : string;
  precipitation_3h : option Q;
  time : Z
}.
End HeavyRainEvent.

Record Patterns : Type := mkPatterns {
  heat_waves : list HeatWave.t;
  cold_fronts : list ColdFront.t;
  heavy_rain_events : list HeavyRainEvent.t
}.

(** [sort_values('time')], as a stable insertion sort: rows with equal
    timestamps keep their table order. *)
Fixpoint insert_by_time (r : Observation) (l : list Observation) : list Observation :=
match l with
| [] => [r]
| x :: l' => if (time r <=? time x)%Z then r :: l else x :: insert_by_time r l'
end.

Definition sort_values_time (l : list Observation) : list Observation :=
fold_right insert_by_time [] l.

(** [df[df['city'] == city].sort_values('time')] *)
Definition city_frame (df : DataFrame) (c : string) : list Observation :=
sort_values_time (boolean_index (rows df) (city_mask (rows df) c)).

(** [Series.shift()]: every value moves one place down, the first place is
    missing. *)
Fixpoint shift_from (prev : option bool) (s : list bool) : list (option bool) :=
match s with
| [] => []
| x :: tl => prev :: shift_from (Some x) tl
end.

Definition shift (s : list bool) : list (option bool) := shift_from None s.

(** [s != s.shift()]: a missing value differs from everything. *)
Definition ne_shifted (s : list bool) (shifted : list (option bool)) : list bool :=
map (fun p => match snd p with
              | None => true
              | Some b => xorb (fst p) b
              end)
    (combine s shifted).

(** [Series.cumsum()] of a boolean series. *)
Fixpoint cumsum_from (acc : nat) (s : list bool) : list nat :=
match s with
| [] => []
| b :: tl =>
    let acc' := if b then S acc else acc in
    acc' :: cumsum_from acc' tl
end.

Definition cumsum (s : list bool) : list nat := cumsum_from 0 s.

(** [groupby(key).size()]: one entry per distinct key, keys ascending. *)
Fixpoint size_add (k : nat) (sizes : list (nat * nat)) : list (nat * nat) :=
match sizes with
| [] => [(k, 1%nat)]
| (k', n) :: sizes' =>
    if (k <? k')%nat then (k, 1%nat) :: sizes
    else if (k =? k')%nat then (k', S n) :: sizes'
    else (k', n) :: size_add k sizes'
end.

Definition groupby_size (keys : list nat) : list (nat * nat) :=
fold_left (fun sizes k => size_add k sizes) keys [].

(** [Series.diff(periods)] *)
Definition diff (periods : nat) (s : list Q) : list (option Q) :=
map (fun i =>
       if (i <? periods)%nat then None
       else match nth_error s i, nth_error s (i - periods) with
            | Some a, Some b => Some (a - b)%Q
            | _, _ => None
            end)
    (seq 0 (List.length s)).

(** The values of a series that are not missing. *)
Fixpoint dropna (s : list (option Q)) : list Q :=
match s with
| [] => []
| Some x :: tl => x :: dropna tl
| None :: tl => dropna tl
end.

(** [series < bound] and [series > bound]: false on a missing value. *)
Definition lt_mask (s : list (option Q)) (bound : Q) : list bool :=
map (fun d => match d with Some x => Qltb x bound | None => false end) s.

Definition gt_mask (s : list (option Q)) (bound : Q) : list bool :=
map (fun d => match d with Some x => Qgtb x bound | None => false end) s.

(** The heat-wave sequences of one city: the sizes of the groups of
    consecutive hours above 35 degrees. *)
Definition heat_flags (city_df : list Observation) : list bool :=
map (fun r => Qgtb (temperature_2m r) 35) city_df.

Definition heat_sequences (city_df : list Observation) : list (nat * nat) :=
let heat_wave := heat_flags city_df in
let heat_group := cumsum (ne_shifted heat_wave (shift heat_wave)) in
groupby_size (boolean_index heat_group heat_wave).

Definition heat_wave_step (df : DataFrame) (patterns : Patterns) (c : string)
  : Patterns :=
let city_df := city_frame df c in
let heat_wave := heat_flags city_df in
let heat_sequences := heat_sequences city_df in
if existsb (fun g => (3 <=? snd g)%nat) heat_sequences then
  {| heat_waves :=
       heat_waves patterns ++
       [ {| HeatWave.city := c;
            HeatWave.duration_hours := count_max (map snd heat_sequences);
            HeatWave.max_temp :=
              series_max (map temperature_2m (boolean_index city_df heat_wave)) |} ];
     cold_fronts := cold_fronts patterns;
     heavy_rain_events := heavy_rain_events patterns |}
else patterns.

Definition cold_front_step (df : DataFrame) (patterns : Patterns) (c : string)
  : Patterns :=
let city_df := city_frame df c in
let temp_change_24h := diff 24 (map temperature_2m city_df) in
let cold_front :=
  boolean_index (combine city_df temp_change_24h)
                (lt_mask temp_change_24h (-10)) in
match cold_front with
| [] => patterns
| first :: _ =>
    {| heat_waves := heat_waves patterns;
       cold_fronts :=
         cold_fronts patterns ++
         [ {| ColdFront.city := c;
              ColdFront.temp_drop := series_min (dropna (map snd cold_front));
              ColdFront.time := time (fst first) |} ];
       heavy_rain_events := heavy_rain_events patterns |}
end.

Definition heavy_rain_step (df : DataFrame) (patterns : Patterns) (c : string)
  : Patterns :=
let city_df := city_frame df c in
let precip_3h :=
  rolling_apply 3 3 (fun w => Some (Qsum w)) (map precipitation city_df) in
let heavy_rain :=
  boolean_index (combine city_df precip_3h) (gt_mask precip_3h 30) in
match heavy_rain with
| [] => patterns
| first :: _ =>
    {| heat_waves := heat_waves patterns;
       cold_fronts := cold_fronts patterns;
       heavy_rain_events :=
         heavy_rain_events patterns ++
         [ {| HeavyRainEvent.city := c;
              HeavyRainEvent.precipitation_3h :=
                series_max (dropna (map snd heavy_rain));
              HeavyRainEvent.time := time (fst first) |} ] |}
end.

Definition detect_weather_patterns (df : DataFrame) : Patterns :=
let patterns :=
  {| heat_waves := []; cold_fronts := []; heavy_rain_events := [] |} in
if empty df then patterns
else
  let patterns := fold_left (heat_wave_step df) (unique_cities (rows df)) patterns in
  let patterns := fold_left (cold_front_step df) (unique_cities (rows df)) patterns in
  let patterns := fold_left (heavy_rain_step df) (unique_cities (rows df)) patterns in
  patterns.

(** ** The untyped frame: record normalizer and daily aggregator *)

Module Frame.

(** A value of a raw payload array (JSON). *)
Inductive json : Type :=
| JNum (q : Q)
| JStr (s : string)
| JNull.

(** A value of a frame: a number, a string, a timestamp (minutes), a
    calendar date (days), or missing (NaN, NaT, None). *)
Inductive cell : Type :=
| Num (q : Q)
| Str (s : string)
| Timestamp (t : Z)
| Date (d : Z)
| NaN.

Definition cell_of_json (j : json) : cell :=
match j with
| JNum q => Num q
| JStr s => Str s
| JNull => NaN
end.

(** A per-city payload: a dict in which any of the keys may be absent. *)
Record CityData : Type := mkCityData {
  city_name : option string;
  lat : option Q;
  lon : option Q;
  hourly : option (dict string (list json));
  state : option string;
  region : option string
}.

(** [d[key]] *)
Definition getitem {A : Type} (key : string) (v : option A) : result A :=
match v with
| Some a => Ok a
| None => Err (KeyError key)
end.

(** Rows in order, one cell per column. *)
Record DataFrame : Type := mkDataFrame {
  columns : list string;
  rows : list (list cell)
}.

(** [pd.DataFrame()] *)
Definition empty_frame : DataFrame := {| columns := []; rows := [] |}.

Fixpoint index_of (name : string) (cols : list string) : option nat :=
match cols with
| [] => None
| c :: cols' =>
    if String.eqb c name then Some 0%nat
    else option_map S (index_of name cols')
end.

Definition has_column (df : DataFrame) (name : string) : bool :=
match index_of name (columns df) with
| Some _ => true
| None => false
end.

(** [pd.DataFrame(d)] for a dict of arrays: the arrays must agree in
    length. *)
Definition from_dict (d : dict string (list json)) : result DataFrame :=
match d with
| [] => Ok empty_frame
| (_, first) :: _ =>
    let n := List.length first in
    if forallb (fun kv => (List.length (snd kv) =? n)%nat) d then
      Ok {| columns := map fst d;
            rows := map (fun i => map (fun kv => cell_of_json (nth i (snd kv) JNull)) d)
                        (seq 0 n) |}
    else Err (ValueError "All arrays must be of the same length")
end.

(** [df[name]] *)
Definition get_column (df : DataFrame) (name : string) : result (list cell) :=
match index_of name (columns df) with
| Some i => Ok (map (fun row => nth i row NaN) (rows df))
| None => Err (KeyError name)
end.

Fixpoint replace_nth (i : nat) (row : list cell) (v : cell) : list cell :=
match row, i with
| [], _ => []
| _ :: row', O => v :: row'
| x :: row', S i' => x :: replace_nth i' row' v
end.

(** [df[name] = values]: an existing column is overwritten in place, a new
    one goes last. *)
Definition set_column (df : DataFrame) (name : string) (values : list cell)
  : DataFrame :=
match index_of name (columns df) with
| Some i =>
    {| columns := columns df;
       rows := map (fun p => replace_nth i (fst p) (snd p)) (combine (rows df) values) |}
| None =>
    {| columns := columns df ++ [name];
       rows := map (fun p => fst p ++ [snd p]) (combine (rows df) values) |}
end.

(** [df[name] = scalar] *)
Definition set_scalar (df : DataFrame) (name : string) (v : cell) : DataFrame :=
set_column df name (repeat v (List.length (rows df))).

(** [pd.concat(frames, ignore_index=True)]: the columns are the union in
    order of first appearance; a frame that lacks a column has missing
    values there. *)
Definition reindex_row (cols_from : list string) (row : list cell)
    (cols_to : list string) : list cell :=
map (fun c => match index_of c cols_from with
              | Some i => nth i row NaN
              | None => NaN
              end)
    cols_to.

Definition concat (frames : list DataFrame) : DataFrame :=
let cols := unique String.eqb (flat_map columns frames) in
{| columns := cols;
   rows := flat_map (fun f => map (fun row => reindex_row (columns f) row cols) (rows f))
                    frames |}.

(** Collects the results of a column-wise operation that can raise. *)
Fixpoint sequence {A : Type} (l : list (result A)) : result (list A) :=
match l with
| [] => Ok []
| r :: l' => x <- r ;; xs <- sequence l' ;; Ok (x :: xs)
end.

Section Normalizer.
(** The parser inside [pd.to_datetime], on one string. *)
Variable parse_datetime : string -> option Z.

(** [pd.to_datetime] on one value: a number counts nanoseconds. *)
Definition to_datetime (c : cell) : result cell :=
match c with
| Str s =>
    match parse_datetime s with
    | Some t => Ok (Timestamp t)
    | None => Err (ValueError "Unknown datetime string format")
    end
| Num q => Ok (Timestamp (Qfloor q / 60000000000))
| Timestamp t => Ok (Timestamp t)
| Date d => Ok (Timestamp (d * 1440))
| NaN => Ok NaN
end.

(** The body of the loop over the payloads. *)
Definition city_frame (city_data : CityData) : result DataFrame :=
city_name <- getitem "city_name" (city_name city_data) ;;
lat <- getitem "lat" (lat city_data) ;;
lon <- getitem "lon" (lon city_data) ;;
hourly_data <- getitem "hourly" (hourly city_data) ;;
df <- from_dict hourly_data ;;
time <- get_column df "time" ;;
time <- sequence (map to_datetime time) ;;
let df := set_column df "time" time in
let df := set_scalar df "city" (Str city_name) in
let df := set_scalar df "latitude" (Num lat) in
let df := set_scalar df "longitude" (Num lon) in
let df := match state city_data with
          | Some s => set_scalar df "state" (Str s)
          | None => df
          end in
let df := match region city_data with
          | Some r => set_scalar df "region" (Str r)
          | None => df
          end in
Ok df.

Definition raw_to_dataframe (raw_data : list CityData) : result DataFrame :=
all_records <-
  fold_left
    (fun acc city_data =>
       all_records <- acc ;;
       df <- city_frame city_data ;;
       Ok (all_records ++ [df]))
    raw_data (Ok []) ;;
match all_records with
| [] => Ok empty_frame
| _ :: _ => Ok (concat all_records)
end.
End Normalizer.

(** *** Daily aggregator *)

Inductive aggfunc : Type :=
| Mean
| Min
| Max
| Sum
| First.

Definition aggfunc_name (f : aggfunc) : string :=
match f with
| Mean => "mean"
| Min => "min"
| Max => "max"
| Sum => "sum"
| First => "first"
end.

Definition notna (c : cell) : bool :=
match c with
| NaN => false
| _ => true
end.

(** The numbers of a column, missing values skipped. *)
Fixpoint numbers (s : list cell) : result (list Q) :=
match s with
| [] => Ok []
| Num q :: tl => xs <- numbers tl ;; Ok (q :: xs)
| NaN :: tl => numbers tl
| _ :: _ => Err (TypeError "agg function failed")
end.

Definition cell_of_option (x : option Q) : cell :=
match x with
| Some q => Num q
| None => NaN
end.

Definition first_valid (s : list cell) : cell :=
hd NaN (filter notna s).

Definition aggregate (f : aggfunc) (s : list cell) : result cell :=
match f with
| Mean => xs <- numbers s ;; Ok (cell_of_option (mean xs))
| Min => xs <- numbers s ;; Ok (cell_of_option (series_min xs))
| Max => xs <- numbers s ;; Ok (cell_of_option (series_max xs))
| Sum => xs <- numbers s ;; Ok (Num (Qsum xs))
| First => Ok (first_valid s)
end.

Definition cell_eqb (a b : cell) : bool :=
match a, b with
| Num x, Num y => Qeq_bool x y
| Str x, Str y => String.eqb x y
| Timestamp x, Timestamp y => (x =? y)%Z
| Date x, Date y => (x =? y)%Z
| NaN, NaN => true
| _, _ => false
end.

Definition kind_rank (c : cell) : nat :=
match c with
| NaN => 0
| Num _ => 1
| Str _ => 2
| Timestamp _ => 3
| Date _ => 4
end.

(** The order of group keys.  Values of one kind compare as themselves;
    a key column of the normalizer's output holds one kind only. *)
Definition cell_leb (a b : cell) : bool :=
match a, b with
| Num x, Num y => Qle_bool x y
| Str x, Str y => String.leb x y
| Timestamp x, Timestamp y => (x <=? y)%Z
| Date x, Date y => (x <=? y)%Z
| _, _ => (kind_rank a <=? kind_rank b)%nat
end.

Fixpoint key_eqb (k1 k2 : list cell) : bool :=
match k1, k2 with
| [], [] => true
| a :: k1', b :: k2' => cell_eqb a b && key_eqb k1' k2'
| _, _ => false
end.

Fixpoint key_leb (k1 k2 : list cell) : bool :=
match k1, k2 with
| [], _ => true
| _ :: _, [] => false
| a :: k1', b :: k2' =>
    if cell_eqb a b then key_leb k1' k2' else cell_leb a b
end.

Fixpoint insert_key (k : list cell) (l : list (list cell)) : list (list cell) :=
match l with
| [] => [k]
| x :: l' => if key_leb k x then k :: l else x :: insert_key k l'
end.

Definition sort_keys (l : list (list cell)) : list (list cell) :=
fold_right insert_key [] l.

(** [row[name]] for a column known to exist. *)
Definition row_get (cols : list string) (row : list cell) (name : string) : cell :=
match index_of name cols with
| Some i => nth i row NaN
| None => NaN
end.

Definition agg_column_name (col : string) (f : aggfunc) : string :=
("(" ++ col ++ ", " ++ aggfunc_name f ++ ")")%string.

(** [df.groupby(group_cols).agg(agg_dict).reset_index()]: one row per
    distinct key, keys ascending; rows with a missing key are left out. *)
Definition groupby_agg (df : DataFrame) (group_cols : list string)
    (agg_dict : dict string (list aggfunc)) : result DataFrame :=
_ <- sequence (map (get_column df) group_cols) ;;
_ <- sequence (map (fun kv => get_column df (fst kv)) agg_dict) ;;
let key_of := fun row => map (row_get (columns df) row) group_cols in
let keyed := filter (fun row => forallb notna (key_of row)) (rows df) in
let keys := sort_keys (unique key_eqb (map key_of keyed)) in
out_rows <-
  sequence
    (map (fun k =>
            let group := filter (fun row => key_eqb (key_of row) k) keyed in
            vals <-
              sequence
                (flat_map
                   (fun kv =>
                      map (fun f =>
                             aggregate f (map (fun row => row_get (columns df) row (fst kv))
                                              group))
                          (snd kv))
                   agg_dict) ;;
            Ok (k ++ vals))
         keys) ;;
Ok {| columns :=
        group_cols ++
        flat_map (fun kv => map (agg_column_name (fst kv)) (snd kv)) agg_dict;
      rows := out_rows |}.

(** [df.columns = names] *)
Definition set_columns (df : DataFrame) (names : list string) : result DataFrame :=
if (List.length names =? List.length (columns df))%nat then
  Ok {| columns := names; rows := rows df |}
else Err (ValueError "Length mismatch").

(** [Series.dt.date] *)
Definition dt_date (s : list cell) : result (list cell) :=
sequence
  (map (fun c =>
          match c with
          | Timestamp t => Ok (Date (t / 1440))
          | NaN => Ok NaN
          | _ => Err (AttributeError "Can only use .dt accessor with datetimelike values")
          end)
       s).

(** [daily['city'].map(df.groupby('city')[col].first())] *)
Definition map_first (df : DataFrame) (col : string) (cities : list cell) : list cell :=
map (fun c =>
       first_valid
         (map (fun row => row_get (columns df) row col)
              (filter (fun row => cell_eqb (row_get (columns df) row "city") c) (rows df))))
    cities.

Definition aggregate_daily_stats (df : DataFrame) : result DataFrame :=
time <- get_column df "time" ;;
date <- dt_date time ;;
let df := set_column df "date" date in
let group_cols := ["city"; "date"] in
let agg_dict :=
  [ ("temperature_2m", [Mean; Min; Max]);
    ("relative_humidity_2m", [Mean]);
    ("precipitation", [Sum]);
    ("wind_speed_10m", [Max]);
    ("cloud_cover", [Mean]);
    ("latitude", [First]);
    ("longitude", [First]) ] in
let agg_dict :=
  if has_column df "state" then agg_dict ++ [("state", [First])] else agg_dict in
let agg_dict :=
  if has_column df "region" then agg_dict ++ [("region", [First])] else agg_dict in
daily_stats <- groupby_agg df group_cols agg_dict ;;
daily_stats <-
  set_columns daily_stats
    [ "city"; "date"; "temp_mean"; "temp_min"; "temp_max";
      "humidity_mean"; "precipitation_total"; "wind_max";
      "cloud_cover_mean"; "latitude"; "longitude" ] ;;
daily_stats <-
  (if has_column df "state" then
     cities <- get_column daily_stats "city" ;;
     Ok (set_column daily_stats "state" (map_first df "state" cities))
   else Ok daily_stats) ;;
daily_stats <-
  (if has_column df "region" then
     cities <- get_column daily_stats "city" ;;
     Ok (set_column daily_stats "region" (map_first df "region" cities))
   else Ok daily_stats) ;;
Ok daily_stats.

End Frame.

(** * Part II: properties *)

(** ** Comparisons *)

Lemma Qltb_lt (a b : Q) : Qltb a b = true <-> (a < b)%Q.
Proof.
  unfold Qltb. rewrite negb_true_iff. split.
  - intros H. apply Qnot_le_lt. intros Hle.
    apply Qle_bool_iff in Hle. congruence.
  - intros H. destruct (Qle_bool b a) eqn:E; [|reflexivity].
    apply Qle_bool_iff in E. exfalso. apply (Qlt_not_le _ _ H E).
Qed.

Lemma Qltb_ge (a b : Q) : Qltb a b = false <-> (b <= a)%Q.
Proof.
  unfold Qltb. rewrite negb_false_iff. apply Qle_bool_iff.
Qed.

Lemma Qgtb_gt (a b : Q) : Qgtb a b = true <-> (b < a)%Q.
Proof. apply Qltb_lt. Qed.

Lemma Qgtb_le (a b : Q) : Qgtb a b = false <-> (a <= b)%Q.
Proof. apply Qltb_ge. Qed.

(** ** Masks and selections *)

Lemma boolean_index_map {A : Type} (f : A -> bool) (l : list A) :
  boolean_index l (map f l) = filter f l.
Proof.
  induction l as [|x l IH]; simpl; [reflexivity|].
  destruct (f x); rewrite IH; reflexivity.
Qed.

(** ** Alert generator *)

Section AlertProperties.
Variable format_1f : Q -> string.

Lemma append_each_map mk frame alerts :
  append_each mk frame alerts = alerts ++ map mk frame.
Proof.
  unfold append_each. revert alerts.
  induction frame as [|r frame IH]; intros alerts; simpl.
  - now rewrite app_nil_r.
  - rewrite IH, <- app_assoc. reflexivity.
Qed.

(** The four groups of alerts, each in row order. *)
Lemma generate_alerts_groups self df :
  generate_alerts format_1f self df =
    map (high_temperature_alert format_1f)
        (filter (fun r => Qgtb (temperature_2m r)
                               (temperature_high_threshold (alert_config self)))
                (rows df)) ++
    map (low_temperature_alert format_1f)
        (filter (fun r => Qltb (temperature_2m r)
                               (temperature_low_threshold (alert_config self)))
                (rows df)) ++
    map (high_wind_alert format_1f)
        (filter (fun r => Qgtb (wind_speed_10m r)
                               (wind_speed_high_threshold (alert_config self)))
                (rows df)) ++
    map (heavy_precipitation_alert format_1f)
        (filter (fun r => Qgtb (precipitation r)
                               (precipitation_high_threshold (alert_config self)))
                (rows df)).
Proof.
  unfold generate_alerts.
  rewrite !append_each_map, !boolean_index_map. simpl.
  rewrite <- !app_assoc. reflexivity.
Qed.

(** An alert [a] reports row [r]: it carries the row's city and time, the
    given type, and the measurement that triggered it. *)
Definition reports (ty : string) (measurement : Observation -> Q)
    (r : Observation) (a : Alert.t) : Prop :=
  Alert.type a = ty /\ Alert.city a = city r /\ Alert.time a = time r /\
  Alert.value a = measurement r.

Lemma Forall2_map_reports (mk : Observation -> Alert.t) ty measurement l :
  (forall r, reports ty measurement r (mk r)) ->
  Forall2 (reports ty measurement) l (map mk l).
Proof.
  intros H. induction l; simpl; constructor; auto.
Qed.

Definition is_type (ty : string) (a : Alert.t) : bool :=
  String.eqb (Alert.type a) ty.

Lemma filter_is_type_all ty (l : list Alert.t) :
  Forall (fun a => Alert.type a = ty) l -> filter (is_type ty) l = l.
Proof.
  induction 1 as [|a l Ha _ IH]; simpl; [reflexivity|].
  unfold is_type at 1. rewrite Ha, String.eqb_refl, IH. reflexivity.
Qed.

Lemma filter_is_type_none ty ty' (l : list Alert.t) :
  ty' <> ty ->
  Forall (fun a => Alert.type a = ty') l -> filter (is_type ty) l = [].
Proof.
  intros Hne. induction 1 as [|a l Ha _ IH]; simpl; [reflexivity|].
  unfold is_type at 1. rewrite Ha.
  destruct (String.eqb_spec ty' ty); [contradiction|exact IH].
Qed.

Lemma Forall_map_type (mk : Observation -> Alert.t) ty l :
  (forall r, Alert.type (mk r) = ty) ->
  Forall (fun a => Alert.type a = ty) (map mk l).
Proof.
  intros H. induction l; simpl; constructor; auto.
Qed.

(** C3. The alert list is four blocks in this order: high temperature, low
    temperature, high wind, heavy precipitation.  Each block holds exactly
    one alert per row that violates the block's predicate, in row order,
    and the alert carries the row's city and time and the measurement that
    triggered it.  With a high threshold of 35, a row at 40 degrees
    anywhere in the table gives exactly one high-temperature alert of its
    own, whose value is 40. *)
Theorem generate_alerts_by_type_in_row_order :
  forall (self : WeatherDataProcessor) (df : DataFrame),
    let cfg := alert_config self in
    (exists high low wind precip : list Alert.t,
       generate_alerts format_1f self df = high ++ low ++ wind ++ precip /\
       Forall2 (reports "high_temperature" temperature_2m)
         (filter (fun r => Qgtb (temperature_2m r) (temperature_high_threshold cfg))
                 (rows df)) high /\
       Forall2 (reports "low_temperature" temperature_2m)
         (filter (fun r => Qltb (temperature_2m r) (temperature_low_threshold cfg))
                 (rows df)) low /\
       Forall2 (reports "high_wind" wind_speed_10m)
         (filter (fun r => Qgtb (wind_speed_10m r) (wind_speed_high_threshold cfg))
                 (rows df)) wind /\
       Forall2 (reports "heavy_precipitation" precipitation)
         (filter (fun r => Qgtb (precipitation r) (precipitation_high_threshold cfg))
                 (rows df)) precip) /\
    (forall (pre post : list Observation) (r : Observation),
       rows df = pre ++ r :: post ->
       (temperature_high_threshold cfg == 35)%Q ->
       (temperature_2m r == 40)%Q ->
       exists (before after : list Alert.t) (a : Alert.t),
         filter (is_type "high_temperature") (generate_alerts format_1f self df) =
           before ++ a :: after /\
         reports "high_temperature" temperature_2m r a /\
         (Alert.value a == 40)%Q /\
         Forall2 (reports "high_temperature" temperature_2m)
           (filter (fun r => Qgtb (temperature_2m r) (temperature_high_threshold cfg)) pre)
           before /\
         Forall2 (reports "high_temperature" temperature_2m)
           (filter (fun r => Qgtb (temperature_2m r) (temperature_high_threshold cfg)) post)
           after).
Proof.
  intros self df cfg. split.
  - eexists _, _, _, _. split; [apply generate_alerts_groups|].
    repeat split; apply Forall2_map_reports; intros r; repeat split.
  - intros pre post r Hrows Hthr Htemp.
    rewrite generate_alerts_groups. fold cfg.
    rewrite !filter_app.
    rewrite (filter_is_type_all "high_temperature")
      by (apply Forall_map_type; reflexivity).
    rewrite (filter_is_type_none "high_temperature" "low_temperature")
      by (try discriminate; apply Forall_map_type; reflexivity).
    rewrite (filter_is_type_none "high_temperature" "high_wind")
      by (try discriminate; apply Forall_map_type; reflexivity).
    rewrite (filter_is_type_none "high_temperature" "heavy_precipitation")
      by (try discriminate; apply Forall_map_type; reflexivity).
    rewrite !app_nil_r, Hrows, filter_app. simpl.
    assert (Hhot : Qgtb (temperature_2m r) (temperature_high_threshold cfg) = true).
    { apply Qgtb_gt. rewrite Hthr, Htemp. reflexivity. }
    rewrite Hhot, map_app. simpl.
    eexists _, _, _. split; [reflexivity|].
    split; [repeat split|].
    split; [exact Htemp|].
    split; apply Forall2_map_reports; intros r0; repeat split.
Qed.

End AlertProperties.

(** ** Lists: positions inside a selection *)

Section Selection.
Context {A : Type}.
Variable f : A -> bool.

(** The number of selected elements strictly before position [i]. *)
Definition rank (l : list A) (i : nat) : nat :=
  List.length (filter f (firstn i l)).

Lemma rank_nth_filter (l : list A) (i : nat) (x : A) :
  nth_error l i = Some x -> f x = true ->
  nth_error (filter f l) (rank l i) = Some x.
Proof.
  unfold rank. revert i.
  induction l as [|y l IH]; intros [|i] H Hx; simpl in *; try discriminate.
  - injection H as ->. rewrite Hx. reflexivity.
  - destruct (f y); simpl; auto.
Qed.

Lemma filter_length_le (l : list A) :
  (List.length (filter f l) <= List.length l)%nat.
Proof.
  induction l as [|y l IH]; simpl; [lia|]. destruct (f y); simpl; lia.
Qed.

Lemma boolean_index_length (l : list A) :
  List.length (boolean_index l (map f l)) = List.length (filter f l).
Proof. now rewrite boolean_index_map. Qed.

Lemma loc_set_nth {V : Type} (set : A -> V -> A) (l : list A) :
  forall (values : list V) (i : nat) (x : A),
    nth_error l i = Some x ->
    nth_error (loc_set set l (map f l) values) i =
      Some (if f x
            then match nth_error values (rank l i) with
                 | Some v => set x v
                 | None => x
                 end
            else x).
Proof.
  unfold rank.
  induction l as [|y l IH]; intros values [|i] x H; simpl in *; try discriminate.
  - injection H as ->. destruct (f x); [|reflexivity].
    destruct values; reflexivity.
  - destruct (f y) eqn:Ey.
    + destruct values as [|v values]; simpl.
      * rewrite (IH [] i x H). destruct (f x); [|reflexivity].
        now destruct (List.length (filter f (firstn i l))).
      * now rewrite (IH values i x H).
    + simpl. now rewrite (IH values i x H).
Qed.

Lemma loc_set_length {V : Type} (set : A -> V -> A) (l : list A) :
  forall (mask : list bool) (values : list V),
    List.length (loc_set set l mask values) = List.length l.
Proof.
  induction l as [|y l IH]; intros [|[|] mask] values; simpl; try reflexivity.
  - destruct values; simpl; now rewrite IH.
  - now rewrite IH.
Qed.

Lemma loc_set_map_preserved {V B : Type} (set : A -> V -> A) (g : A -> B) :
  (forall x v, g (set x v) = g x) ->
  forall (l : list A) (mask : list bool) (values : list V),
    map g (loc_set set l mask values) = map g l.
Proof.
  intros Hg.
  induction l as [|y l IH]; intros [|[|] mask] values; simpl; try reflexivity.
  - destruct values; simpl; now rewrite ?Hg, IH.
  - now rewrite IH.
Qed.
End Selection.

Lemma boolean_index_map_comm {A B : Type} (g : A -> B) (l : list A) (mask : list bool) :
  map g (boolean_index l mask) = boolean_index (map g l) mask.
Proof.
  revert mask. induction l as [|x l IH]; intros [|[|] mask]; simpl;
    try reflexivity; now rewrite IH.
Qed.

(** ** [unique] *)

Section Unique.
Context {A : Type}.
Variable eqb : A -> A -> bool.
Hypothesis eqb_spec : forall x y, eqb x y = true <-> x = y.

Lemma unique_In (l : list A) (x : A) : In x (unique eqb l) <-> In x l.
Proof.
  induction l as [|y l IH]; simpl; [tauto|].
  rewrite filter_In, IH, negb_true_iff. split.
  - intros [H|[H _]]; auto.
  - intros [H|H]; auto.
    destruct (eqb y x) eqn:E.
    + left. now apply eqb_spec.
    + right. split; [exact H|reflexivity].
Qed.

Lemma NoDup_filter (g : A -> bool) (l : list A) : NoDup l -> NoDup (filter g l).
Proof.
  induction 1 as [|x l Hx _ IH]; simpl; [constructor|].
  destruct (g x); [|exact IH].
  constructor; [|exact IH]. rewrite filter_In. tauto.
Qed.

Lemma unique_NoDup (l : list A) : NoDup (unique eqb l).
Proof.
  induction l as [|y l IH]; simpl; constructor.
  - rewrite filter_In, negb_true_iff. intros [_ H].
    assert (E : eqb y y = true) by now apply eqb_spec.
    congruence.
  - now apply NoDup_filter.
Qed.
End Unique.

Lemma unique_cities_In (l : list Observation) (r : Observation) :
  In r l -> In (city r) (unique_cities l).
Proof.
  intros H. unfold unique_cities.
  apply (unique_In String.eqb String.eqb_eq). now apply in_map.
Qed.

Lemma unique_cities_NoDup (l : list Observation) : NoDup (unique_cities l).
Proof. apply (unique_NoDup String.eqb String.eqb_eq). Qed.

(** ** Moving average *)

(** The rows of one city, and that city's temperature series in table
    order. *)
Definition city_is (c : string) (r : Observation) : bool := String.eqb (city r) c.

Definition city_series (l : list Observation) (c : string) : list Q :=
  map temperature_2m (filter (city_is c) l).

(** How many rows of the same city come before row [i]. *)
Definition city_rank (l : list Observation) (c : string) (i : nat) : nat :=
  rank (city_is c) l i.

(** One round of the loop of [calculate_moving_averages], on the rows. *)
Definition ma_step (W : nat) (l : list Observation) (c : string) : list Observation :=
  loc_set set_temp_ma l (city_mask l c)
    (rolling_apply W 1 mean (map temperature_2m (boolean_index l (city_mask l c)))).

Lemma city_mask_eq (l : list Observation) (c : string) :
  city_mask l c = map (city_is c) l.
Proof. reflexivity. Qed.

Lemma filter_by_city_map (l1 l2 : list Observation) (c : string) (g : Observation -> Q) :
  map city l1 = map city l2 -> map g l1 = map g l2 ->
  map g (filter (city_is c) l1) = map g (filter (city_is c) l2).
Proof.
  revert l2. induction l1 as [|x l1 IH]; intros [|y l2] Hc Hg;
    simpl in *; try discriminate; [reflexivity|].
  injection Hc as Hc1 Hc. injection Hg as Hg1 Hg.
  assert (E : city_is c x = city_is c y) by (unfold city_is; now rewrite Hc1).
  rewrite E. destruct (city_is c y); simpl; [rewrite Hg1; f_equal|]; now apply IH.
Qed.

Lemma rank_by_city_map (l1 l2 : list Observation) (c : string) (i : nat) :
  map city l1 = map city l2 ->
  rank (city_is c) l1 i = rank (city_is c) l2 i.
Proof.
  unfold rank. revert l2 i.
  induction l1 as [|x l1 IH]; intros [|y l2] [|i] Hc;
    simpl in *; try discriminate; try reflexivity.
  injection Hc as Hc1 Hc.
  assert (E : city_is c x = city_is c y) by (unfold city_is; now rewrite Hc1).
  rewrite E. destruct (city_is c y); simpl; [f_equal|]; now apply IH.
Qed.

Lemma rolling_ok (W m : Z) (agg : list Q -> option Q) (s : list Q) :
  (0 <= m <= W)%Z ->
  rolling W m agg s = Ok (rolling_apply (Z.to_nat W) (Z.to_nat m) agg s).
Proof.
  intros H. unfold rolling.
  destruct (Z.ltb_spec W 0); [lia|].
  destruct (Z.ltb_spec W m); [lia|]. reflexivity.
Qed.

Lemma rolling_apply_length w m agg s :
  List.length (rolling_apply w m agg s) = List.length s.
Proof. unfold rolling_apply. now rewrite length_map, length_seq. Qed.

Lemma nth_error_seq0 (n k : nat) : (k < n)%nat -> nth_error (seq 0 n) k = Some k.
Proof.
  intros H. rewrite (nth_error_nth' _ 0%nat) by now rewrite length_seq.
  now rewrite seq_nth.
Qed.

Lemma rolling_apply_nth w m agg s k :
  (k < List.length s)%nat ->
  nth_error (rolling_apply w m agg s) k =
    Some (if (m <=? List.length (window_at w s k))%nat
          then agg (window_at w s k) else None).
Proof.
  intros H. unfold rolling_apply.
  now rewrite (map_nth_error _ _ _ (nth_error_seq0 _ _ H)).
Qed.

Lemma window_at_length w s k :
  (k < List.length s)%nat ->
  List.length (window_at w s k) = Nat.min w (k + 1).
Proof.
  intros H. unfold window_at. rewrite length_skipn, length_firstn. lia.
Qed.


Lemma mean_min_periods_1 (s : list Q) :
  (if (1 <=? List.length s)%nat then mean s else None) = mean s.
Proof. destruct s; reflexivity. Qed.

Lemma set_temp_ma_twice r a b : set_temp_ma (set_temp_ma r a) b = set_temp_ma r b.
Proof. reflexivity. Qed.

(** The value the loop writes into row [i], which holds [r]. *)
Definition ma_value (W : nat) (l : list Observation) (r : Observation) (i : nat)
  : option Q :=
  mean (window_at W (city_series l (city r)) (city_rank l (city r) i)).

Lemma ma_step_nth W (rows0 cur : list Observation) (c : string) (i : nat) (x : Observation) :
  map city cur = map city rows0 ->
  map temperature_2m cur = map temperature_2m rows0 ->
  nth_error cur i = Some x ->
  nth_error (ma_step W cur c) i =
    Some (if city_is c x then set_temp_ma x (ma_value W rows0 x i) else x).
Proof.
  intros Hc Ht Hx. unfold ma_step.
  rewrite city_mask_eq, (loc_set_nth _ _ _ _ _ _ Hx).
  destruct (city_is c x) eqn:Ec; [|reflexivity].
  rewrite boolean_index_map.
  pose proof (rank_nth_filter _ _ _ _ Hx Ec) as Hk.
  assert (Hlt : (rank (city_is c) cur i
                 < List.length (map temperature_2m (filter (city_is c) cur)))%nat).
  { rewrite length_map. apply nth_error_Some. congruence. }
  rewrite (rolling_apply_nth _ _ _ _ _ Hlt), mean_min_periods_1.
  unfold ma_value, city_series, city_rank.
  assert (Ecx : city x = c) by (now apply String.eqb_eq).
  rewrite Ecx, (filter_by_city_map cur rows0 c temperature_2m Hc Ht),
    (rank_by_city_map cur rows0 c i Hc).
  reflexivity.
Qed.

Lemma ma_step_preserves W (l : list Observation) (c : string) :
  map city (ma_step W l c) = map city l /\
  map temperature_2m (ma_step W l c) = map temperature_2m l.
Proof.
  unfold ma_step. split; now apply loc_set_map_preserved.
Qed.

Lemma ma_fold_nth W (rows0 : list Observation) (cs : list string) :
  forall (cur : list Observation),
    map city cur = map city rows0 ->
    map temperature_2m cur = map temperature_2m rows0 ->
    forall i x, nth_error cur i = Some x ->
      nth_error (fold_left (ma_step W) cs cur) i =
        Some (if existsb (fun c => city_is c x) cs
              then set_temp_ma x (ma_value W rows0 x i) else x).
Proof.
  induction cs as [|c cs IH]; intros cur Hc Ht i x Hx; simpl; [exact Hx|].
  destruct (ma_step_preserves W cur c) as [Hc' Ht'].
  rewrite (IH (ma_step W cur c)
              (eq_trans Hc' Hc) (eq_trans Ht' Ht) i _
              (ma_step_nth W rows0 cur c i x Hc Ht Hx)).
  destruct (city_is c x) eqn:Ec; simpl.
  - change (existsb (fun c0 => city_is c0 (set_temp_ma x (ma_value W rows0 x i))) cs)
      with (existsb (fun c0 => city_is c0 x) cs).
    destruct (existsb (fun c0 => city_is c0 x) cs); reflexivity.
  - reflexivity.
Qed.

Lemma ma_fold_length W (cs : list string) :
  forall cur, List.length (fold_left (ma_step W) cs cur) = List.length cur.
Proof.
  induction cs as [|c cs IH]; intros cur; simpl; [reflexivity|].
  rewrite IH. unfold ma_step. apply loc_set_length.
Qed.


Lemma city_listed (l : list Observation) (i : nat) (r : Observation) :
  nth_error l i = Some r ->
  existsb (fun c => city_is c r) (unique_cities l) = true.
Proof.
  intros H. apply existsb_exists. exists (city r). split.
  - apply unique_cities_In. eapply nth_error_In. exact H.
  - apply String.eqb_refl.
Qed.



(** ** Anomaly detection *)






Section AnomalyProperties.
Variable sqrt : Q -> Q.

(** The flag the loop leaves on a row of a city whose series is [s], when
    the row carried [b] before: unchanged unless the deviation is
    positive. *)
Definition anomaly_from (self : WeatherDataProcessor) (s : list Q) (t : Q) (b : bool)
  : bool :=
  match mean s, std sqrt s with
  | Some mean_temp, Some std_temp =>
      if Qgtb std_temp 0
      then Qgtb (Qabs (t - mean_temp)) (anomaly_threshold self * std_temp)
      else b
  | _, _ => b
  end.

(** One round of the loop of [detect_anomalies], on the rows. *)
Definition anomaly_step (self : WeatherDataProcessor) (df : DataFrame) (c : string)
  : DataFrame :=
  let city_mask := city_mask (rows df) c in
  let city_temps := map temperature_2m (boolean_index (rows df) city_mask) in
  match mean city_temps, std sqrt city_temps with
  | Some mean_temp, Some std_temp =>
      if Qgtb std_temp 0 then
        let anomaly_mask :=
          map (fun t => Qgtb (Qabs (t - mean_temp))
                             (anomaly_threshold self * std_temp)) city_temps in
        {| columns := columns df;
           rows := loc_set set_temp_anomaly (rows df) city_mask anomaly_mask |}
      else df
  | _, _ => df
  end.

Lemma detect_anomalies_unfold self df :
  detect_anomalies sqrt self df =
    fold_left (anomaly_step self) (unique_cities (rows df))
      {| columns := add_column (columns df) "temp_anomaly";
         rows := map (fun r => set_temp_anomaly r false) (rows df) |}.
Proof.
  unfold detect_anomalies. cbn [rows].
  replace (unique_cities (map (fun r => set_temp_anomaly r false) (rows df)))
    with (unique_cities (rows df)).
  - reflexivity.
  - unfold unique_cities. now rewrite map_map.
Qed.

Lemma anomaly_step_preserves self df c :
  map city (rows (anomaly_step self df c)) = map city (rows df) /\
  map temperature_2m (rows (anomaly_step self df c)) = map temperature_2m (rows df).
Proof.
  unfold anomaly_step.
  destruct (mean _) as [mu|]; [|split; reflexivity].
  destruct (std _ _) as [sd|]; [|split; reflexivity].
  destruct (Qgtb sd 0); [|split; reflexivity].
  cbn [rows]. split; now apply loc_set_map_preserved.
Qed.

Lemma anomaly_step_nth self (rows0 : list Observation) (df : DataFrame)
    (c : string) (i : nat) (r : Observation) (b : bool) :
  map city (rows df) = map city rows0 ->
  map temperature_2m (rows df) = map temperature_2m rows0 ->
  nth_error (rows df) i = Some (set_temp_anomaly r b) ->
  nth_error (rows (anomaly_step self df c)) i =
    Some (set_temp_anomaly r
            (if city_is c r
             then anomaly_from self (city_series rows0 c) (temperature_2m r) b
             else b)).
Proof.
  intros Hc Ht Hx. unfold anomaly_step, anomaly_from.
  rewrite city_mask_eq, boolean_index_map.
  rewrite (filter_by_city_map (rows df) rows0 c temperature_2m Hc Ht).
  fold (city_series rows0 c).
  destruct (mean (city_series rows0 c)) as [mu|];
    [|rewrite Hx; now destruct (city_is c r)].
  destruct (std sqrt (city_series rows0 c)) as [sd|];
    [|rewrite Hx; now destruct (city_is c r)].
  destruct (Qgtb sd 0); [|rewrite Hx; now destruct (city_is c r)].
  cbn [rows]. rewrite (loc_set_nth _ _ _ _ _ _ Hx).
  change (city_is c (set_temp_anomaly r b)) with (city_is c r).
  destruct (city_is c r) eqn:Ec; [|reflexivity].
  assert (Hk : nth_error (city_series rows0 c) (rank (city_is c) (rows df) i)
               = Some (temperature_2m r)).
  { unfold city_series.
    rewrite <- (filter_by_city_map (rows df) rows0 c temperature_2m Hc Ht).
    apply (map_nth_error temperature_2m _ _ (rank_nth_filter _ _ _ _ Hx Ec)). }
  rewrite (map_nth_error _ _ _ Hk). reflexivity.
Qed.

Lemma anomaly_from_twice self s t b :
  anomaly_from self s t (anomaly_from self s t b) = anomaly_from self s t b.
Proof.
  unfold anomaly_from.
  destruct (mean s); [|reflexivity].
  destruct (std sqrt s); [|reflexivity].
  destruct (Qgtb q0 0); reflexivity.
Qed.

Lemma anomaly_fold_nth self (rows0 : list Observation) (cs : list string) :
  forall (df : DataFrame) (i : nat) (r : Observation) (b : bool),
    map city (rows df) = map city rows0 ->
    map temperature_2m (rows df) = map temperature_2m rows0 ->
    nth_error (rows df) i = Some (set_temp_anomaly r b) ->
    nth_error (rows (fold_left (anomaly_step self) cs df)) i =
      Some (set_temp_anomaly r
              (if existsb (fun c => city_is c r) cs
               then anomaly_from self (city_series rows0 (city r)) (temperature_2m r) b
               else b)).
Proof.
  induction cs as [|c cs IH]; intros df i r b Hc Ht Hx; simpl; [exact Hx|].
  destruct (anomaly_step_preserves self df c) as [Hc' Ht'].
  rewrite (IH (anomaly_step self df c) i r _
              (eq_trans Hc' Hc) (eq_trans Ht' Ht)
              (anomaly_step_nth self rows0 df c i r b Hc Ht Hx)).
  destruct (city_is c r) eqn:Ec; simpl; [|reflexivity].
  assert (Ecx : city r = c) by now apply String.eqb_eq.
  rewrite Ecx, anomaly_from_twice.
  now destruct (existsb (fun c0 => city_is c0 r) cs).
Qed.

Lemma anomaly_fold_length self (cs : list string) :
  forall df, List.length (rows (fold_left (anomaly_step self) cs df))
             = List.length (rows df).
Proof.
  induction cs as [|c cs IH]; intros df; simpl; [reflexivity|].
  rewrite IH.
  destruct (anomaly_step_preserves self df c) as [Hc _].
  now rewrite <- (length_map city), Hc, length_map.
Qed.

End AnomalyProperties.

Section AnomalyTheorem.
Variable sqrt : Q -> Q.

End AnomalyTheorem.

(** ** Extremes of a series *)

Lemma Qmax_cases (x y : Q) : Qmax x y = x \/ Qmax x y = y.
Proof.
  unfold Qmax, GenericMinMax.gmax. destruct (x ?= y)%Q; auto.
Qed.

Lemma Qmin_cases (x y : Q) : Qmin x y = x \/ Qmin x y = y.
Proof.
  unfold Qmin, GenericMinMax.gmin. destruct (x ?= y)%Q; auto.
Qed.

Lemma series_max_spec (s : list Q) (m : Q) :
  series_max s = Some m -> In m s /\ forall x, In x s -> (x <= m)%Q.
Proof.
  revert m. induction s as [|y s IH]; intros m H; simpl in H; [discriminate|].
  destruct (series_max s) as [m'|] eqn:E.
  - injection H as <-. destruct (IH m' eq_refl) as [Hin Hle]. split.
    + destruct (Qmax_cases y m') as [->| ->]; simpl; auto.
    + intros x [<-|Hx].
      * apply Q.le_max_l.
      * apply Qle_trans with m'; [now apply Hle|apply Q.le_max_r].
  - injection H as <-. destruct s; [|simpl in E; destruct (series_max s); discriminate].
    split; [now left|]. intros x [<-|[]]. apply Qle_refl.
Qed.

Lemma series_min_spec (s : list Q) (m : Q) :
  series_min s = Some m -> In m s /\ forall x, In x s -> (m <= x)%Q.
Proof.
  revert m. induction s as [|y s IH]; intros m H; simpl in H; [discriminate|].
  destruct (series_min s) as [m'|] eqn:E.
  - injection H as <-. destruct (IH m' eq_refl) as [Hin Hle]. split.
    + destruct (Qmin_cases y m') as [->| ->]; simpl; auto.
    + intros x [<-|Hx].
      * apply Q.le_min_l.
      * apply Qle_trans with m'; [apply Q.le_min_r|now apply Hle].
  - injection H as <-. destruct s; [|simpl in E; destruct (series_min s); discriminate].
    split; [now left|]. intros x [<-|[]]. apply Qle_refl.
Qed.

Lemma series_max_some (s : list Q) : s <> [] -> exists m, series_max s = Some m.
Proof.
  destruct s as [|y s]; [congruence|]. intros _. simpl.
  destruct (series_max s); eexists; reflexivity.
Qed.

Lemma series_min_some (s : list Q) : s <> [] -> exists m, series_min s = Some m.
Proof.
  destruct s as [|y s]; [congruence|]. intros _. simpl.
  destruct (series_min s); eexists; reflexivity.
Qed.

Lemma count_max_spec (s : list nat) (m : nat) :
  count_max s = Some m -> In m s /\ forall x, In x s -> (x <= m)%nat.
Proof.
  revert m. induction s as [|y s IH]; intros m H; simpl in H; [discriminate|].
  destruct (count_max s) as [m'|] eqn:E.
  - injection H as <-. destruct (IH m' eq_refl) as [Hin Hle]. split.
    + destruct (Nat.max_spec y m') as [[_ ->]|[_ ->]]; simpl; auto.
    + intros x [<-|Hx]; [lia|]. specialize (Hle x Hx). lia.
  - injection H as <-. destruct s; [|simpl in E; destruct (count_max s); discriminate].
    split; [now left|]. intros x [<-|[]]. lia.
Qed.

Lemma count_max_some (s : list nat) : s <> [] -> exists m, count_max s = Some m.
Proof.
  destruct s as [|y s]; [congruence|]. intros _. simpl.
  destruct (count_max s); eexists; reflexivity.
Qed.

(** ** Selections by position *)

Lemma filter_nil_iff {A : Type} (p : A -> bool) (l : list A) :
  filter p l = [] <-> forall x, In x l -> p x = false.
Proof.
  induction l as [|y l IH]; simpl; [tauto|].
  destruct (p y) eqn:E; split.
  - discriminate.
  - intros H. specialize (H y (or_introl eq_refl)). congruence.
  - intros H x [<-|Hx]; [exact E|]. now apply IH.
  - intros H. apply IH. auto.
Qed.

(** The head of a selection is the first element, by position, that
    satisfies the predicate. *)
Lemma filter_head {A : Type} (p : A -> bool) (l : list A) (first : A) (rest : list A) :
  filter p l = first :: rest ->
  exists i, nth_error l i = Some first /\ p first = true /\
            forall j y, (j < i)%nat -> nth_error l j = Some y -> p y = false.
Proof.
  induction l as [|y l IH]; simpl; [discriminate|].
  destruct (p y) eqn:E; intros H.
  - injection H as -> _. exists 0%nat. repeat split; auto. intros; lia.
  - destruct (IH H) as (i & Hi & Hp & Hlt). exists (S i). repeat split; auto.
    intros [|j] z Hj Hz; simpl in Hz; [congruence|]. apply (Hlt j); [lia|exact Hz].
Qed.

Lemma filter_In_nth {A : Type} (p : A -> bool) (l : list A) (x : A) :
  In x (filter p l) <-> exists i, nth_error l i = Some x /\ p x = true.
Proof.
  rewrite filter_In. split.
  - intros [Hin Hp]. destruct (In_nth_error _ _ Hin) as [i Hi]. eauto.
  - intros (i & Hi & Hp). split; [eapply nth_error_In; eauto|exact Hp].
Qed.

Lemma nth_error_combine {A B : Type} (l : list A) (l' : list B) (i : nat) (a : A) (b : B) :
  nth_error (combine l l') i = Some (a, b) <->
  nth_error l i = Some a /\ nth_error l' i = Some b.
Proof.
  revert l' i. induction l as [|x l IH]; intros [|y l'] [|i]; simpl;
    try (split; [discriminate|intros [? ?]; discriminate]).
  - split; [intros [= -> ->]; auto|intros [[= ->] [= ->]]; auto].
  - apply IH.
Qed.

Lemma dropna_In (s : list (option Q)) (x : Q) : In x (dropna s) <-> In (Some x) s.
Proof.
  induction s as [|[y|] s IH]; simpl; [tauto| |].
  - rewrite IH. split; intros [H|H]; auto; left; congruence.
  - rewrite IH. split; [auto|]. intros [H|H]; [discriminate|exact H].
Qed.

(** ** Findings per city *)

Definition option_list {A : Type} (o : option A) : list A :=
  match o with
  | Some x => [x]
  | None => []
  end.

Section PerCity.
Context {F : Type}.
Variable key : F -> string.
Variable found_in : string -> option F.
Hypothesis found_key : forall c f, found_in c = Some f -> key f = c.

Lemma findings_of_city (cs : list string) (c : string) :
  NoDup cs ->
  (~ In c cs -> found_in c = None) ->
  filter (fun f => String.eqb (key f) c) (flat_map (fun c' => option_list (found_in c')) cs)
    = option_list (found_in c).
Proof.
  intros Hnd. induction Hnd as [|c' cs Hc' Hnd IH]; intros Hout; simpl.
  - now rewrite Hout by tauto.
  - rewrite filter_app. destruct (String.eqb_spec c' c) as [->|Hne].
    + assert (E : filter (fun f => String.eqb (key f) c)
                    (flat_map (fun c' => option_list (found_in c')) cs) = []).
      { apply filter_nil_iff. intros f Hf.
        apply in_flat_map in Hf. destruct Hf as (c1 & Hc1 & Hf1).
        destruct (found_in c1) as [f1|] eqn:E1; simpl in Hf1; [|contradiction].
        destruct Hf1 as [<-|[]].
        rewrite (found_key _ _ E1). apply String.eqb_neq. congruence. }
      rewrite E, app_nil_r.
      destruct (found_in c) as [f|] eqn:Ef; simpl; [|reflexivity].
      now rewrite (found_key _ _ Ef), String.eqb_refl.
    + rewrite IH by (intros H; apply Hout; simpl; tauto).
      destruct (found_in c') as [f|] eqn:Ef; simpl; [|reflexivity].
      rewrite (found_key _ _ Ef).
      destruct (String.eqb_spec c' c); [contradiction|reflexivity].
Qed.
End PerCity.

Lemma fold_left_appends {P F : Type} (step : P -> string -> P) (get : P -> list F)
    (found_in : string -> option F) :
  (forall p c, get (step p c) = get p ++ option_list (found_in c)) ->
  forall cs p,
    get (fold_left step cs p) = get p ++ flat_map (fun c => option_list (found_in c)) cs.
Proof.
  intros H. induction cs as [|c cs IH]; intros p; simpl.
  - now rewrite app_nil_r.
  - now rewrite IH, H, <- app_assoc.
Qed.

Lemma fold_left_keeps {P G : Type} (step : P -> string -> P) (get : P -> G) :
  (forall p c, get (step p c) = get p) ->
  forall cs p, get (fold_left step cs p) = get p.
Proof.
  intros H. induction cs as [|c cs IH]; intros p; simpl; [reflexivity|].
  now rewrite IH, H.
Qed.


(** A city that has no row has an empty frame. *)
Lemma city_frame_absent (df : DataFrame) (c : string) :
  ~ In c (unique_cities (rows df)) -> city_frame df c = [].
Proof.
  intros H. unfold city_frame. rewrite city_mask_eq, boolean_index_map.
  replace (filter (city_is c) (rows df)) with (@nil Observation); [reflexivity|].
  symmetry. apply filter_nil_iff. intros x Hx.
  destruct (city_is c x) eqn:E; [|reflexivity].
  exfalso. apply H. apply String.eqb_eq in E. subst c.
  now apply unique_cities_In.
Qed.

Lemma empty_rows (df : DataFrame) : empty df = true -> rows df = [].
Proof. unfold empty. now destruct (rows df). Qed.

(** ** The time-sorted rows of a city *)

Definition time_le (a b : Observation) : Prop := (time a <= time b)%Z.

Lemma insert_by_time_perm (r : Observation) (l : list Observation) :
  Permutation (insert_by_time r l) (r :: l).
Proof.
  induction l as [|x l IH]; simpl; [reflexivity|].
  destruct (time r <=? time x)%Z; [reflexivity|].
  rewrite IH. apply perm_swap.
Qed.

Lemma insert_by_time_hd (r x : Observation) (l : list Observation) :
  (time x <= time r)%Z -> HdRel time_le x l -> HdRel time_le x (insert_by_time r l).
Proof.
  intros Hx Hl. destruct l as [|y l]; simpl.
  - constructor. exact Hx.
  - destruct (time r <=? time y)%Z; constructor; [exact Hx|].
    now inversion Hl.
Qed.

Lemma insert_by_time_sorted (r : Observation) (l : list Observation) :
  Sorted time_le l -> Sorted time_le (insert_by_time r l).
Proof.
  induction 1 as [|x l Hs IH Hhd]; simpl.
  - repeat constructor.
  - destruct (Z.leb_spec (time r) (time x)).
    + constructor; [now constructor|]. constructor. exact H.
    + constructor; [exact IH|]. apply insert_by_time_hd; [unfold time_le; lia|exact Hhd].
Qed.

(** [city_frame df c] holds the rows of city [c], each once, in
    ascending order of time. *)
Lemma city_frame_sorted (df : DataFrame) (c : string) :
  Permutation (city_frame df c)
              (filter (fun r => String.eqb (city r) c) (rows df)) /\
  Sorted time_le (city_frame df c).
Proof.
  unfold city_frame. unfold city_mask. rewrite boolean_index_map.
  generalize (filter (fun r => String.eqb (city r) c) (rows df)) as l.
  intros l. unfold sort_values_time. split.
  - induction l as [|x l IH]; simpl; [reflexivity|].
    rewrite insert_by_time_perm. now constructor.
  - induction l as [|x l IH]; simpl; [constructor|].
    now apply insert_by_time_sorted.
Qed.

(** ** Pattern detector: one finding per city *)

(** What each of the three loops of [detect_weather_patterns] finds for
    one city. *)
Definition heat_wave_of (df : DataFrame) (c : string) : option HeatWave.t :=
  let city_df := city_frame df c in
  if existsb (fun g => (3 <=? snd g)%nat) (heat_sequences city_df) then
    Some {| HeatWave.city := c;
            HeatWave.duration_hours := count_max (map snd (heat_sequences city_df));
            HeatWave.max_temp :=
              series_max (map temperature_2m
                              (boolean_index city_df (heat_flags city_df))) |}
  else None.

Definition cold_front_rows (city_df : list Observation)
  : list (Observation * option Q) :=
  let temp_change_24h := diff 24 (map temperature_2m city_df) in
  boolean_index (combine city_df temp_change_24h) (lt_mask temp_change_24h (-10)).

Definition cold_front_of (df : DataFrame) (c : string) : option ColdFront.t :=
  match cold_front_rows (city_frame df c) with
  | [] => None
  | first :: _ =>
      Some {| ColdFront.city := c;
              ColdFront.temp_drop :=
                series_min (dropna (map snd (cold_front_rows (city_frame df c))));
              ColdFront.time := time (fst first) |}
  end.

Definition heavy_rain_rows (city_df : list Observation)
  : list (Observation * option Q) :=
  let precip_3h :=
    rolling_apply 3 3 (fun w => Some (Qsum w)) (map precipitation city_df) in
  boolean_index (combine city_df precip_3h) (gt_mask precip_3h 30).

Definition heavy_rain_of (df : DataFrame) (c : string) : option HeavyRainEvent.t :=
  match heavy_rain_rows (city_frame df c) with
  | [] => None
  | first :: _ =>
      Some {| HeavyRainEvent.city := c;
              HeavyRainEvent.precipitation_3h :=
                series_max (dropna (map snd (heavy_rain_rows (city_frame df c))));
              HeavyRainEvent.time := time (fst first) |}
  end.

Lemma heat_wave_step_fields df p c :
  heat_waves (heat_wave_step df p c) = heat_waves p ++ option_list (heat_wave_of df c) /\
  cold_fronts (heat_wave_step df p c) = cold_fronts p /\
  heavy_rain_events (heat_wave_step df p c) = heavy_rain_events p.
Proof.
  unfold heat_wave_step, heat_wave_of.
  destruct (existsb _ _); simpl; rewrite ?app_nil_r; auto.
Qed.

Lemma cold_front_step_fields df p c :
  heat_waves (cold_front_step df p c) = heat_waves p /\
  cold_fronts (cold_front_step df p c) = cold_fronts p ++ option_list (cold_front_of df c) /\
  heavy_rain_events (cold_front_step df p c) = heavy_rain_events p.
Proof.
  unfold cold_front_step, cold_front_of. fold (cold_front_rows (city_frame df c)).
  destruct (cold_front_rows (city_frame df c)); simpl; rewrite ?app_nil_r; auto.
Qed.

Lemma heavy_rain_step_fields df p c :
  heat_waves (heavy_rain_step df p c) = heat_waves p /\
  cold_fronts (heavy_rain_step df p c) = cold_fronts p /\
  heavy_rain_events (heavy_rain_step df p c)
    = heavy_rain_events p ++ option_list (heavy_rain_of df c).
Proof.
  unfold heavy_rain_step, heavy_rain_of. fold (heavy_rain_rows (city_frame df c)).
  destruct (heavy_rain_rows (city_frame df c)); simpl; rewrite ?app_nil_r; auto.
Qed.

(** The three lists of findings: for each distinct city in order of first
    appearance, what its loop finds. *)
Lemma detect_weather_patterns_fields (df : DataFrame) :
  heat_waves (detect_weather_patterns df)
    = flat_map (fun c => option_list (heat_wave_of df c)) (unique_cities (rows df)) /\
  cold_fronts (detect_weather_patterns df)
    = flat_map (fun c => option_list (cold_front_of df c)) (unique_cities (rows df)) /\
  heavy_rain_events (detect_weather_patterns df)
    = flat_map (fun c => option_list (heavy_rain_of df c)) (unique_cities (rows df)).
Proof.
  unfold detect_weather_patterns. destruct (empty df) eqn:E.
  - rewrite (empty_rows df E). simpl. auto.
  - repeat split.
    + rewrite (fold_left_keeps (heavy_rain_step df) heat_waves)
        by (intros; apply heavy_rain_step_fields).
      rewrite (fold_left_keeps (cold_front_step df) heat_waves)
        by (intros; apply cold_front_step_fields).
      rewrite (fold_left_appends (heat_wave_step df) heat_waves (heat_wave_of df))
        by (intros; apply heat_wave_step_fields).
      reflexivity.
    + rewrite (fold_left_keeps (heavy_rain_step df) cold_fronts)
        by (intros; apply heavy_rain_step_fields).
      rewrite (fold_left_appends (cold_front_step df) cold_fronts (cold_front_of df))
        by (intros; apply cold_front_step_fields).
      rewrite (fold_left_keeps (heat_wave_step df) cold_fronts)
        by (intros; apply heat_wave_step_fields).
      reflexivity.
    + rewrite (fold_left_appends (heavy_rain_step df) heavy_rain_events (heavy_rain_of df))
        by (intros; apply heavy_rain_step_fields).
      rewrite (fold_left_keeps (cold_front_step df) heavy_rain_events)
        by (intros; apply cold_front_step_fields).
      rewrite (fold_left_keeps (heat_wave_step df) heavy_rain_events)
        by (intros; apply heat_wave_step_fields).
      reflexivity.
Qed.

Lemma heat_waves_of_city (df : DataFrame) (c : string) :
  filter (fun f => String.eqb (HeatWave.city f) c) (heat_waves (detect_weather_patterns df))
    = option_list (heat_wave_of df c).
Proof.
  destruct (detect_weather_patterns_fields df) as [-> _].
  apply findings_of_city.
  - intros c' f. unfold heat_wave_of. destruct (existsb _ _); [|discriminate].
    now intros [= <-].
  - apply unique_cities_NoDup.
  - intros H. unfold heat_wave_of. now rewrite (city_frame_absent df c H).
Qed.

Lemma cold_fronts_of_city (df : DataFrame) (c : string) :
  filter (fun f => String.eqb (ColdFront.city f) c) (cold_fronts (detect_weather_patterns df))
    = option_list (cold_front_of df c).
Proof.
  destruct (detect_weather_patterns_fields df) as (_ & -> & _).
  apply findings_of_city.
  - intros c' f. unfold cold_front_of. destruct (cold_front_rows _); [discriminate|].
    now intros [= <-].
  - apply unique_cities_NoDup.
  - intros H. unfold cold_front_of. now rewrite (city_frame_absent df c H).
Qed.

Lemma heavy_rain_of_city (df : DataFrame) (c : string) :
  filter (fun f => String.eqb (HeavyRainEvent.city f) c)
         (heavy_rain_events (detect_weather_patterns df))
    = option_list (heavy_rain_of df c).
Proof.
  destruct (detect_weather_patterns_fields df) as (_ & _ & ->).
  apply findings_of_city.
  - intros c' f. unfold heavy_rain_of. destruct (heavy_rain_rows _); [discriminate|].
    now intros [= <-].
  - apply unique_cities_NoDup.
  - intros H. unfold heavy_rain_of. now rewrite (city_frame_absent df c H).
Qed.

(** ** Rows selected by a derived column *)

Lemma map_snd_combine {A B : Type} (l : list A) (l' : list B) :
  List.length l = List.length l' -> map snd (combine l l') = l'.
Proof.
  revert l'. induction l as [|x l IH]; intros [|y l'] H; simpl in *;
    try discriminate; [reflexivity|]. f_equal. apply IH. lia.
Qed.

Section DerivedColumn.
Variable g : Q -> bool.
Variable s : list Observation.
Variable vals : list (option Q).
Hypothesis same_length : List.length vals = List.length s.

Definition holds (d : option Q) : bool :=
  match d with
  | Some x => g x
  | None => false
  end.

(** Position [i] qualifies with value [d]. *)
Definition qualifies (i : nat) (d : Q) : Prop :=
  nth_error vals i = Some (Some d) /\ g d = true.

Definition selected : list (Observation * option Q) :=
  boolean_index (combine s vals) (map holds vals).

Lemma selected_filter :
  selected = filter (fun p => holds (snd p)) (combine s vals).
Proof.
  unfold selected.
  rewrite <- (map_snd_combine s vals) at 2 by (symmetry; exact same_length).
  rewrite map_map. apply boolean_index_map.
Qed.

Lemma qualifies_row (i : nat) (d : Q) :
  qualifies i d -> exists r, nth_error (combine s vals) i = Some (r, Some d).
Proof.
  intros [Hv _].
  assert (Hlt : (i < List.length s)%nat).
  { rewrite <- same_length. apply nth_error_Some. congruence. }
  destruct (nth_error s i) as [r|] eqn:Er;
    [|apply nth_error_None in Er; lia].
  exists r. now apply nth_error_combine.
Qed.

Lemma selected_nil : selected = [] <-> ~ exists i d, qualifies i d.
Proof.
  rewrite selected_filter, filter_nil_iff. split.
  - intros H (i & d & Hq). destruct (qualifies_row i d Hq) as [r Hr].
    specialize (H _ (nth_error_In _ _ Hr)). destruct Hq as [_ Hg].
    simpl in H. congruence.
  - intros H [r [d|]] Hin; simpl; [|reflexivity].
    destruct (g d) eqn:Eg; [|reflexivity].
    exfalso. apply H. destruct (In_nth_error _ _ Hin) as [i Hi].
    apply nth_error_combine in Hi. exists i, d. split; tauto.
Qed.

Lemma selected_head (first : Observation * option Q) (rest : list (Observation * option Q)) :
  selected = first :: rest ->
  exists i0 d0,
    snd first = Some d0 /\ qualifies i0 d0 /\
    (forall j d, (j < i0)%nat -> ~ qualifies j d) /\
    nth_error s i0 = Some (fst first).
Proof.
  rewrite selected_filter. intros H.
  destruct (filter_head _ _ _ _ H) as (i0 & Hi & Hp & Hlt).
  destruct first as [r0 [d0|]]; simpl in Hp; [|discriminate].
  apply nth_error_combine in Hi. destruct Hi as [Hs Hv].
  exists i0, d0. repeat split; auto.
  intros j d Hj Hq. destruct (qualifies_row j d Hq) as [r Hr].
  specialize (Hlt j _ Hj Hr). destruct Hq as [_ Hg]. simpl in Hlt. congruence.
Qed.

Lemma selected_values (m : Q) :
  In m (dropna (map snd selected)) <-> exists i, qualifies i m.
Proof.
  rewrite dropna_In, in_map_iff, selected_filter. split.
  - intros ([r d] & Hd & Hin). simpl in Hd. subst d.
    apply filter_In_nth in Hin. destruct Hin as (i & Hi & Hg).
    apply nth_error_combine in Hi. exists i. split; tauto.
  - intros (i & Hq). destruct (qualifies_row i m Hq) as [r Hr].
    exists (r, Some m). split; [reflexivity|].
    apply filter_In_nth. exists i. split; [exact Hr|]. now destruct Hq.
Qed.
End DerivedColumn.

(** ** Cold fronts *)

(** The temperature change at position [i] against the observation 24 rows
    earlier in the same series. *)
Definition change_24h (temps : list Q) (i : nat) (d : Q) : Prop :=
  (24 <= i)%nat /\
  exists a b, nth_error temps i = Some a /\ nth_error temps (i - 24) = Some b /\
              d = (a - b)%Q.

(** Position [i] qualifies: the change there is below -10. *)
Definition cold_at (temps : list Q) (i : nat) (d : Q) : Prop :=
  change_24h temps i d /\ (d < -10)%Q.

Lemma diff_length periods temps : List.length (diff periods temps) = List.length temps.
Proof. unfold diff. now rewrite length_map, length_seq. Qed.

Lemma diff_nth (temps : list Q) (i : nat) (d : Q) :
  nth_error (diff 24 temps) i = Some (Some d) <-> change_24h temps i d.
Proof.
  unfold change_24h. split.
  - intros H.
    assert (Hlt : (i < List.length temps)%nat).
    { rewrite <- (diff_length 24). apply nth_error_Some. congruence. }
    unfold diff in H. rewrite (map_nth_error _ _ _ (nth_error_seq0 _ _ Hlt)) in H.
    destruct (Nat.ltb_spec i 24); [discriminate|].
    split; [assumption|].
    destruct (nth_error temps i) as [a|]; [|discriminate].
    destruct (nth_error temps (i - 24)) as [b|]; [|discriminate].
    exists a, b. repeat split. congruence.
  - intros (Hi & a & b & Ha & Hb & ->).
    assert (Hlt : (i < List.length temps)%nat) by (apply nth_error_Some; congruence).
    unfold diff. rewrite (map_nth_error _ _ _ (nth_error_seq0 _ _ Hlt)).
    destruct (Nat.ltb_spec i 24); [lia|]. now rewrite Ha, Hb.
Qed.

Lemma qualifies_cold (temps : list Q) (i : nat) (d : Q) :
  qualifies (fun x => Qltb x (-10)) (diff 24 temps) i d <-> cold_at temps i d.
Proof.
  unfold qualifies, cold_at. now rewrite diff_nth, Qltb_lt.
Qed.

Lemma cold_front_rows_selected (s : list Observation) :
  cold_front_rows s
    = selected (fun x => Qltb x (-10)) s (diff 24 (map temperature_2m s)).
Proof. reflexivity. Qed.


(** ** Heavy rain *)

(** The sum of the three precipitation samples that end at position [i]. *)
Definition sum_3h (p : list Q) (i : nat) (d : Q) : Prop :=
  (2 <= i)%nat /\
  exists a b c, nth_error p (i - 2) = Some a /\ nth_error p (i - 1) = Some b /\
                nth_error p i = Some c /\ d = Qsum [a; b; c].

(** Position [i] qualifies: the three-sample sum there exceeds 30. *)
Definition heavy_at (p : list Q) (i : nat) (d : Q) : Prop :=
  sum_3h p i d /\ (30 < d)%Q.

Lemma three_sample_window (p : list Q) (j : nat) :
  (j + 2 < List.length p)%nat ->
  exists a b c,
    nth_error p j = Some a /\ nth_error p (j + 1) = Some b /\
    nth_error p (j + 2) = Some c /\
    skipn j (firstn (j + 3) p) = [a; b; c].
Proof.
  revert p. induction j as [|j IH]; intros p H.
  - destruct p as [|a [|b [|c p]]]; simpl in H; try lia.
    exists a, b, c. repeat split.
  - destruct p as [|x p]; simpl in H; [lia|].
    destruct (IH p ltac:(lia)) as (a & b & c & Ha & Hb & Hc & Hw).
    exists a, b, c. repeat split; assumption.
Qed.

Lemma rolling_sum_nth (p : list Q) (i : nat) (d : Q) :
  nth_error (rolling_apply 3 3 (fun w => Some (Qsum w)) p) i = Some (Some d)
  <-> sum_3h p i d.
Proof.
  unfold sum_3h. split.
  - intros H.
    assert (Hlt : (i < List.length p)%nat).
    { rewrite <- (rolling_apply_length 3 3 (fun w => Some (Qsum w))).
      apply nth_error_Some. congruence. }
    rewrite (rolling_apply_nth _ _ _ _ _ Hlt), (window_at_length _ _ _ Hlt) in H.
    destruct (Nat.leb_spec 3 (Nat.min 3 (i + 1))); [|discriminate].
    assert (Hi : (2 <= i)%nat) by lia. split; [exact Hi|].
    destruct (three_sample_window p (i - 2) ltac:(lia))
      as (a & b & c & Ha & Hb & Hc & Hw).
    unfold window_at in H.
    replace (i + 1 - 3)%nat with (i - 2)%nat in H by lia.
    replace (i + 1)%nat with (i - 2 + 3)%nat in H by lia.
    rewrite Hw in H.
    replace (i - 2 + 1)%nat with (i - 1)%nat in Hb by lia.
    replace (i - 2 + 2)%nat with i in Hc by lia.
    exists a, b, c. repeat split; try assumption. congruence.
  - intros (Hi & a & b & c & Ha & Hb & Hc & ->).
    assert (Hlt : (i < List.length p)%nat) by (apply nth_error_Some; congruence).
    rewrite (rolling_apply_nth _ _ _ _ _ Hlt), (window_at_length _ _ _ Hlt).
    destruct (Nat.leb_spec 3 (Nat.min 3 (i + 1))); [|lia].
    destruct (three_sample_window p (i - 2) ltac:(lia))
      as (a' & b' & c' & Ha' & Hb' & Hc' & Hw).
    unfold window_at.
    replace (i + 1 - 3)%nat with (i - 2)%nat by lia.
    replace (i + 1)%nat with (i - 2 + 3)%nat by lia.
    rewrite Hw.
    replace (i - 2 + 1)%nat with (i - 1)%nat in Hb' by lia.
    replace (i - 2 + 2)%nat with i in Hc' by lia.
    congruence.
Qed.

Lemma qualifies_heavy (p : list Q) (i : nat) (d : Q) :
  qualifies (fun x => Qgtb x 30) (rolling_apply 3 3 (fun w => Some (Qsum w)) p) i d
  <-> heavy_at p i d.
Proof.
  unfold qualifies, heavy_at. now rewrite rolling_sum_nth, Qgtb_gt.
Qed.

Lemma heavy_rain_rows_selected (s : list Observation) :
  heavy_rain_rows s
    = selected (fun x => Qgtb x 30) s
        (rolling_apply 3 3 (fun w => Some (Qsum w)) (map precipitation s)).
Proof. reflexivity. Qed.


(** ** Heat waves: groups of consecutive hot hours *)

(** A maximal run of [n] consecutive true flags: it cannot be extended to
    the left or to the right. *)
Definition maximal_true_run (flags : list bool) (n : nat) : Prop :=
  (1 <= n)%nat /\
  exists pre post,
    flags = pre ++ repeat true n ++ post /\
    last pre false = false /\ hd false post = false.

(** The lengths of the maximal runs of true flags, left to right; [cur]
    true flags are already open on the left. *)
Fixpoint true_runs_from (cur : nat) (flags : list bool) : list nat :=
  match flags with
  | [] => match cur with O => [] | S _ => [cur] end
  | true :: tl => true_runs_from (S cur) tl
  | false :: tl =>
      match cur with
      | O => true_runs_from 0 tl
      | S _ => cur :: true_runs_from 0 tl
      end
  end.

Definition true_runs (flags : list bool) : list nat := true_runs_from 0 flags.

(** The group numbers of the hot hours, as the code computes them: the
    running count of changes of the flag, kept where the flag is true. *)
Definition hot_groups (prev : option bool) (acc : nat) (flags : list bool) : list nat :=
  boolean_index (cumsum_from acc (ne_shifted flags (shift_from prev flags))) flags.

Lemma hot_groups_cons prev acc x tl :
  hot_groups prev acc (x :: tl) =
    let changed := match prev with None => true | Some b => xorb x b end in
    let acc' := if changed then S acc else acc in
    if x then acc' :: hot_groups (Some x) acc' tl
    else hot_groups (Some x) acc' tl.
Proof. reflexivity. Qed.

Definition keys_below (sizes : list (nat * nat)) (k : nat) : Prop :=
  Forall (fun g => (fst g < k)%nat) sizes.

Lemma keys_below_mono sizes k k' :
  (k <= k')%nat -> keys_below sizes k -> keys_below sizes k'.
Proof.
  intros Hk H. eapply Forall_impl; [|exact H]. simpl. intros; lia.
Qed.

Lemma size_add_new sizes k :
  keys_below sizes k -> size_add k sizes = sizes ++ [(k, 1%nat)].
Proof.
  induction 1 as [|[k' n] sizes Hk _ IH]; simpl in *; [reflexivity|].
  destruct (Nat.ltb_spec k k'); [lia|].
  destruct (Nat.eqb_spec k k'); [lia|]. now rewrite IH.
Qed.

Lemma size_add_last sizes k n :
  keys_below sizes k -> size_add k (sizes ++ [(k, n)]) = sizes ++ [(k, S n)].
Proof.
  induction 1 as [|[k' n'] sizes Hk _ IH]; simpl in *.
  - rewrite Nat.ltb_irrefl, Nat.eqb_refl. reflexivity.
  - destruct (Nat.ltb_spec k k'); [lia|].
    destruct (Nat.eqb_spec k k'); [lia|]. now rewrite IH.
Qed.

Lemma group_sizes_are_runs (flags : list bool) :
  (forall acc sizes cur,
     (1 <= cur)%nat -> keys_below sizes acc ->
     map snd (fold_left (fun sz k => size_add k sz)
                        (hot_groups (Some true) acc flags)
                        (sizes ++ [(acc, cur)]))
       = map snd sizes ++ true_runs_from cur flags) /\
  (forall prev acc sizes,
     prev <> Some true -> keys_below sizes (S acc) ->
     map snd (fold_left (fun sz k => size_add k sz)
                        (hot_groups prev acc flags) sizes)
       = map snd sizes ++ true_runs_from 0 flags).
Proof.
  induction flags as [|x tl [IHa IHb]]; split.
  - intros acc sizes cur Hcur _. simpl. rewrite map_app. simpl.
    destruct cur; [lia|reflexivity].
  - intros prev acc sizes _ _. simpl. now rewrite app_nil_r.
  - intros acc sizes cur Hcur Hk. rewrite hot_groups_cons.
    destruct x; cbn [xorb fold_left true_runs_from].
    + rewrite (size_add_last _ _ _ Hk). apply IHa; [lia|exact Hk].
    + rewrite IHb.
      * rewrite map_app. simpl. rewrite <- app_assoc. simpl.
        destruct cur; [lia|reflexivity].
      * discriminate.
      * apply Forall_app. split.
        -- apply (keys_below_mono _ acc); [lia|exact Hk].
        -- constructor; [simpl; lia|constructor].
  - intros prev acc sizes Hprev Hk. rewrite hot_groups_cons.
    destruct x.
    + assert (E : match prev with None => true | Some b => xorb true b end = true).
      { destruct prev as [[|]|]; try reflexivity. congruence. }
      rewrite E. cbn [fold_left true_runs_from].
      rewrite (size_add_new _ _ Hk). apply IHa; [lia|exact Hk].
    + cbn [true_runs_from].
      destruct prev as [[|]|]; [congruence| |]; cbn [xorb]; apply IHb;
        try discriminate; try exact Hk.
      apply (keys_below_mono _ (S acc)); [lia|exact Hk].
Qed.

Lemma heat_sequences_runs (city_df : list Observation) :
  map snd (heat_sequences city_df) = true_runs (heat_flags city_df).
Proof.
  unfold heat_sequences, groupby_size, true_runs, cumsum, shift.
  apply (proj2 (group_sizes_are_runs (heat_flags city_df)) None 0%nat []).
  - discriminate.
  - constructor.
Qed.

(** A run that is still open on the left with [cur] flags, or a run that
    starts after a false flag. *)
Definition open_run (cur : nat) (flags : list bool) (n : nat) : Prop :=
  (1 <= n)%nat /\
  exists k post, flags = repeat true k ++ post /\ hd false post = false /\
                 n = (cur + k)%nat.

Definition inner_run (flags : list bool) (n : nat) : Prop :=
  (1 <= n)%nat /\
  exists pre post, flags = pre ++ false :: repeat true n ++ post /\
                   hd false post = false.

Lemma true_runs_from_In (flags : list bool) :
  forall cur n,
    In n (true_runs_from cur flags) <-> open_run cur flags n \/ inner_run flags n.
Proof.
  unfold open_run, inner_run.
  induction flags as [|x tl IH]; intros cur n.
  - simpl. split.
    + destruct cur; [intros []|]. intros [<-|[]]. left. split; [lia|].
      exists 0%nat, []. repeat split; lia.
    + intros [(Hn & k & post & E & _ & ->)|(_ & pre & post & E & _)].
      * destruct k; [|discriminate]. destruct cur; [lia|]. left. lia.
      * destruct pre; discriminate.
  - destruct x.
    + cbn [true_runs_from]. rewrite IH. split.
      * intros [(Hn & k & post & -> & Hp & ->)|(Hn & pre & post & -> & Hp)].
        -- left. split; [exact Hn|]. exists (S k), post. repeat split; auto; lia.
        -- right. split; [exact Hn|]. exists (true :: pre), post. split; auto.
      * intros [(Hn & k & post & E & Hp & ->)|(Hn & pre & post & E & Hp)].
        -- destruct k as [|k]; simpl in E.
           ++ subst post. discriminate.
           ++ injection E as ->. left. split; [exact Hn|].
              exists k, post. repeat split; auto; lia.
        -- destruct pre as [|y pre]; [discriminate|]. injection E as _ ->.
           right. split; [exact Hn|]. exists pre, post. split; auto.
    + assert (Hstep : In n (true_runs_from cur (false :: tl)) <->
                      ((1 <= n)%nat /\ n = cur) \/ In n (true_runs_from 0 tl)).
      { cbn [true_runs_from]. destruct cur; simpl; split.
        - auto.
        - intros [[? ?]|?]; [lia|assumption].
        - intros [<-|?]; [left; lia|auto].
        - intros [[_ ->]|?]; auto. }
      rewrite Hstep, IH. split.
      * intros [[Hn ->]|[(Hn & k & post & -> & Hp & ->)|(Hn & pre & post & -> & Hp)]].
        -- left. split; [exact Hn|]. exists 0%nat, (false :: tl). repeat split; lia.
        -- right. split; [exact Hn|]. exists [], post. split; auto.
        -- right. split; [exact Hn|]. exists (false :: pre), post. split; auto.
      * intros [(Hn & k & post & E & Hp & ->)|(Hn & pre & post & E & Hp)].
        -- destruct k; [|discriminate]. left. split; [exact Hn|lia].
        -- destruct pre as [|y pre]; simpl in E.
           ++ injection E as E. right. left. split; [exact Hn|].
              exists n, post. repeat split; auto.
           ++ injection E as _ E. right. right. split; [exact Hn|].
              exists pre, post. split; auto.
Qed.

Lemma last_cons_false (pre : list bool) :
  pre <> [] -> last pre false = false -> exists pre', pre = pre' ++ [false].
Proof.
  intros Hne Hl. exists (removelast pre).
  pose proof (app_removelast_last false Hne) as E.
  rewrite Hl in E. exact E.
Qed.

(** The run lengths are exactly the lengths of the maximal true runs. *)
Lemma true_runs_maximal (flags : list bool) (n : nat) :
  In n (true_runs flags) <-> maximal_true_run flags n.
Proof.
  unfold true_runs, maximal_true_run. rewrite true_runs_from_In.
  unfold open_run, inner_run. split.
  - intros [(Hn & k & post & -> & Hp & ->)|(Hn & pre & post & -> & Hp)].
    + split; [exact Hn|]. exists [], post. repeat split; auto.
    + split; [exact Hn|]. exists (pre ++ [false]), post.
      rewrite <- app_assoc. repeat split; auto. apply last_last.
  - intros (Hn & pre & post & -> & Hl & Hp).
    destruct pre as [|y pre].
    + left. split; [exact Hn|]. exists n, post. repeat split; auto.
    + destruct (last_cons_false (y :: pre) ltac:(discriminate) Hl) as [pre' ->].
      right. split; [exact Hn|]. exists pre', post.
      rewrite <- app_assoc. split; auto.
Qed.



Lemma existsb_sizes (sizes : list (nat * nat)) :
  existsb (fun g => (3 <=? snd g)%nat) sizes = true <->
  exists n, In n (map snd sizes) /\ (3 <= n)%nat.
Proof.
  rewrite existsb_exists. split.
  - intros ([k n] & Hin & H). exists n. split.
    + apply in_map_iff. exists (k, n). auto.
    + now apply Nat.leb_le.
  - intros (n & Hin & H). apply in_map_iff in Hin.
    destruct Hin as ([k n'] & <- & Hin). exists (k, n'). split; [exact Hin|].
    now apply Nat.leb_le.
Qed.


(** ** Summary and regional statistics *)







Section Dict.
Context {K V : Type}.
Variable eqb : K -> K -> bool.
Hypothesis eqb_eq : forall a b, eqb a b = true <-> a = b.



End Dict.




(** A one-row table with a region, on which the regional entry lacks two of
    the nine scalars of the summary. *)
Definition curitiba_noon : Observation :=
  {| time := 720; city := "Curitiba"; latitude := -25; longitude := -49;
     state := Some "PR"; region := Some "Sul";
     temperature_2m := 20; relative_humidity_2m := 70; precipitation := 0;
     wind_speed_10m := 12; cloud_cover := 40;
     temp_ma := Some 20%Q; temp_anomaly := Some false |}.

Definition one_region_table : DataFrame :=
  {| columns := ["state"; "region"; "temp_ma"; "temp_anomaly"];
     rows := [curitiba_noon] |}.


(** ** Record normalizer *)

(** A payload without its hourly block, and one whose arrays differ in
    length. *)
Definition missing_hourly (p : Frame.CityData) : Prop := Frame.hourly p = None.

Definition ragged (p : Frame.CityData) : Prop :=
  exists d a b,
    Frame.hourly p = Some d /\ In a d /\ In b d /\
    List.length (snd a) <> List.length (snd b).

Definition malformed (p : Frame.CityData) : Prop := missing_hourly p \/ ragged p.

Lemma from_dict_ragged (d : dict string (list Frame.json)) :
  (exists a b, In a d /\ In b d /\ List.length (snd a) <> List.length (snd b)) ->
  Frame.from_dict d = Err (ValueError "All arrays must be of the same length").
Proof.
  intros (a & b & Ha & Hb & Hne). unfold Frame.from_dict.
  destruct d as [|[k first] d']; [contradiction|].
  destruct (forallb _ _) eqn:E; [|reflexivity].
  rewrite forallb_forall in E.
  pose proof (E a Ha) as Ea. pose proof (E b Hb) as Eb.
  apply Nat.eqb_eq in Ea, Eb. congruence.
Qed.

Section NormalizerProperties.
Variable parse_datetime : string -> option Z.

Lemma city_frame_malformed (p : Frame.CityData) :
  malformed p -> exists e, Frame.city_frame parse_datetime p = Err e.
Proof.
  intros H. unfold Frame.city_frame.
  destruct (Frame.city_name p); simpl; [|eauto].
  destruct (Frame.lat p); simpl; [|eauto].
  destruct (Frame.lon p); simpl; [|eauto].
  destruct H as [H|(d & a & b & Hd & Hab)].
  - unfold missing_hourly in H. rewrite H. simpl. eauto.
  - rewrite Hd. simpl. rewrite from_dict_ragged by eauto. simpl. eauto.
Qed.

Lemma city_frame_missing_hourly (p : Frame.CityData) :
  Frame.city_name p <> None -> Frame.lat p <> None -> Frame.lon p <> None ->
  missing_hourly p ->
  Frame.city_frame parse_datetime p = Err (KeyError "hourly").
Proof.
  intros Hn Hlat Hlon H. unfold Frame.city_frame.
  destruct (Frame.city_name p); [|congruence].
  destruct (Frame.lat p); [|congruence].
  destruct (Frame.lon p); [|congruence].
  unfold missing_hourly in H. now rewrite H.
Qed.

Lemma city_frame_ragged (p : Frame.CityData) :
  Frame.city_name p <> None -> Frame.lat p <> None -> Frame.lon p <> None ->
  ragged p ->
  Frame.city_frame parse_datetime p
    = Err (ValueError "All arrays must be of the same length").
Proof.
  intros Hn Hlat Hlon (d & a & b & Hd & Hab). unfold Frame.city_frame.
  destruct (Frame.city_name p); [|congruence].
  destruct (Frame.lat p); [|congruence].
  destruct (Frame.lon p); [|congruence].
  rewrite Hd. simpl. rewrite from_dict_ragged by eauto. reflexivity.
Qed.

(** The loop of [raw_to_dataframe]. *)
Definition collect (raw_data : list Frame.CityData) (acc : result (list Frame.DataFrame))
  : result (list Frame.DataFrame) :=
  fold_left
    (fun acc city_data =>
       all_records <- acc ;;
       df <- Frame.city_frame parse_datetime city_data ;;
       Ok (all_records ++ [df]))
    raw_data acc.

Lemma collect_err (raw_data : list Frame.CityData) (e : exn) :
  collect raw_data (Err e) = Err e.
Proof. induction raw_data as [|p l IH]; simpl; [reflexivity|exact IH]. Qed.

Lemma collect_accepted (l : list Frame.CityData) :
  Forall (fun q => exists df, Frame.city_frame parse_datetime q = Ok df) l ->
  forall recs, exists recs', collect l (Ok recs) = Ok recs'.
Proof.
  induction 1 as [|q l [df Hq] _ IH]; intros recs; simpl; [eauto|].
  unfold collect in *. simpl. rewrite Hq. simpl. apply IH.
Qed.

Lemma collect_rejects (pre post : list Frame.CityData) (p : Frame.CityData) (e : exn) :
  Frame.city_frame parse_datetime p = Err e ->
  forall acc, exists e', collect (pre ++ p :: post) acc = Err e' /\
    ((exists recs, collect pre acc = Ok recs) -> e' = e).
Proof.
  intros Hp acc. unfold collect. rewrite fold_left_app. fold (collect pre acc).
  destruct (collect pre acc) as [recs|e0] eqn:E.
  - exists e. simpl. rewrite Hp. simpl. split; [apply collect_err|auto].
  - exists e0. split; [apply collect_err|]. intros [recs H]. discriminate.
Qed.

Lemma raw_to_dataframe_collect (raw_data : list Frame.CityData) :
  Frame.raw_to_dataframe parse_datetime raw_data =
    (all_records <- collect raw_data (Ok []) ;;
     match all_records with
     | [] => Ok Frame.empty_frame
     | _ :: _ => Ok (Frame.concat all_records)
     end).
Proof. reflexivity. Qed.

(** C1 (amended). A payload sequence that contains a payload without its
    hourly block, or with hourly arrays of unequal lengths, is rejected:
    [raw_to_dataframe] raises and returns no table, and nothing is
    truncated.  The exception is not a DataShapeError (the code has none):
    when the payloads before the offending one are accepted and the
    offending one has its name and coordinates, it is KeyError('hourly')
    for a missing block and ValueError for unequal lengths. *)
Theorem raw_to_dataframe_rejects_malformed :
  forall (pre post : list Frame.CityData) (p : Frame.CityData),
    malformed p ->
    (exists e : exn,
       Frame.raw_to_dataframe parse_datetime (pre ++ p :: post) = Err e /\
       exn_name e <> "DataShapeError") /\
    (Forall (fun q => exists df, Frame.city_frame parse_datetime q = Ok df) pre ->
     Frame.city_name p <> None -> Frame.lat p <> None -> Frame.lon p <> None ->
     (missing_hourly p ->
      Frame.raw_to_dataframe parse_datetime (pre ++ p :: post)
        = Err (KeyError "hourly")) /\
     (ragged p ->
      Frame.raw_to_dataframe parse_datetime (pre ++ p :: post)
        = Err (ValueError "All arrays must be of the same length"))).
Proof.
  intros pre post p Hbad. split.
  - destruct (city_frame_malformed p Hbad) as [e He].
    destruct (collect_rejects pre post p e He (Ok [])) as (e' & He' & _).
    exists e'. rewrite raw_to_dataframe_collect, He'. split; [reflexivity|].
    destruct e'; discriminate.
  - intros Hpre Hn Hlat Hlon. split; intros H.
    + pose proof (city_frame_missing_hourly p Hn Hlat Hlon H) as He.
      destruct (collect_rejects pre post p _ He (Ok [])) as (e' & He' & Hsame).
      rewrite raw_to_dataframe_collect, He'.
      now rewrite (Hsame (collect_accepted pre Hpre [])).
    + pose proof (city_frame_ragged p Hn Hlat Hlon H) as He.
      destruct (collect_rejects pre post p _ He (Ok [])) as (e' & He' & Hsame).
      rewrite raw_to_dataframe_collect, He'.
      now rewrite (Hsame (collect_accepted pre Hpre [])).
Qed.
End NormalizerProperties.

(** A parser that knows the two timestamps used in the examples below
    (minutes since 1970-01-01). *)
Definition sample_clock (s : string) : option Z :=
  if String.eqb s "2024-01-01T00:00" then Some 28401120%Z
  else if String.eqb s "2024-01-01T01:00" then Some 28401180%Z
  else None.

Definition payload_without_hourly : Frame.CityData :=
  {| Frame.city_name := Some "Recife"; Frame.lat := Some (-8)%Q;
     Frame.lon := Some (-35)%Q; Frame.hourly := None;
     Frame.state := None; Frame.region := None |}.

Definition payload_ragged : Frame.CityData :=
  {| Frame.city_name := Some "Recife"; Frame.lat := Some (-8)%Q;
     Frame.lon := Some (-35)%Q;
     Frame.hourly :=
       Some [ ("time", [Frame.JStr "2024-01-01T00:00"; Frame.JStr "2024-01-01T01:00"]);
              ("temperature_2m", [Frame.JNum 25]) ];
     Frame.state := None; Frame.region := None |}.

(** C1 as stated fails: the two malformed payloads are rejected with
    KeyError and ValueError, not with DataShapeError. *)
Lemma malformed_payloads_raise_builtin_errors :
  Frame.raw_to_dataframe sample_clock [payload_without_hourly]
    = Err (KeyError "hourly") /\
  Frame.raw_to_dataframe sample_clock [payload_ragged]
    = Err (ValueError "All arrays must be of the same length") /\
  ~ (exists e, Frame.raw_to_dataframe sample_clock [payload_without_hourly] = Err e /\
               exn_name e = "DataShapeError") /\
  ~ (exists e, Frame.raw_to_dataframe sample_clock [payload_ragged] = Err e /\
               exn_name e = "DataShapeError").
Proof.
  split; [reflexivity|]. split; [reflexivity|]. split.
  - intros (e & He & Hname). vm_compute in He. injection He as <-. discriminate.
  - intros (e & He & Hname). vm_compute in He. injection He as <-. discriminate.
Qed.

(** ** Daily aggregator *)

Lemma index_of_app_other (name other : string) (cols : list string) :
  name <> other ->
  (match Frame.index_of name (cols ++ [other]) with Some _ => true | None => false end)
  = (match Frame.index_of name cols with Some _ => true | None => false end).
Proof.
  intros Hne. induction cols as [|c cols IH]; simpl.
  - destruct (String.eqb_spec other name); [congruence|reflexivity].
  - destruct (String.eqb c name); [reflexivity|].
    destruct (Frame.index_of name (cols ++ [other])),
             (Frame.index_of name cols); simpl in *; congruence.
Qed.

Lemma has_column_set_column (df : Frame.DataFrame) (name other : string)
    (values : list Frame.cell) :
  name <> other ->
  Frame.has_column (Frame.set_column df other values) name = Frame.has_column df name.
Proof.
  intros Hne. unfold Frame.has_column, Frame.set_column.
  destruct (Frame.index_of other (Frame.columns df)); cbn [Frame.columns].
  - reflexivity.
  - now apply index_of_app_other.
Qed.

Lemma groupby_agg_columns (df out : Frame.DataFrame) (group_cols : list string)
    (agg_dict : dict string (list Frame.aggfunc)) :
  Frame.groupby_agg df group_cols agg_dict = Ok out ->
  Frame.columns out =
    group_cols ++
    flat_map (fun kv => map (Frame.agg_column_name (fst kv)) (snd kv)) agg_dict.
Proof.
  unfold Frame.groupby_agg.
  destruct (Frame.sequence (map (Frame.get_column df) group_cols)); [|discriminate].
  cbn [bind].
  destruct (Frame.sequence (map (fun kv => Frame.get_column df (fst kv)) agg_dict));
    [|discriminate].
  cbn [bind].
  destruct (Frame.sequence _); [|discriminate].
  cbn [bind]. now intros [= <-].
Qed.

Lemma set_columns_length (df out : Frame.DataFrame) (names : list string) :
  Frame.set_columns df names = Ok out ->
  List.length names = List.length (Frame.columns df).
Proof.
  unfold Frame.set_columns.
  destruct (Nat.eqb_spec (List.length names) (List.length (Frame.columns df)));
    [auto|discriminate].
Qed.

(** A frame that carries a state or a region column is never aggregated:
    the grouped frame then has twelve or thirteen columns, and the code
    names eleven. *)
Lemma aggregate_daily_stats_regional_columns (df : Frame.DataFrame) :
  Frame.has_column df "state" = true \/ Frame.has_column df "region" = true ->
  forall out, Frame.aggregate_daily_stats df <> Ok out.
Proof.
  intros Hcol out. unfold Frame.aggregate_daily_stats.
  destruct (Frame.get_column df "time") as [time|]; [|discriminate]. cbn [bind].
  destruct (Frame.dt_date time) as [date|]; [|discriminate]. cbn [bind].
  rewrite !has_column_set_column by discriminate.
  destruct (Frame.groupby_agg _ _ _) as [daily|] eqn:Eg; [|discriminate].
  cbn [bind].
  destruct (Frame.set_columns daily _) as [renamed|] eqn:Es; [|discriminate].
  exfalso. apply set_columns_length in Es. apply groupby_agg_columns in Eg.
  rewrite Eg in Es.
  destruct (Frame.has_column df "state"), (Frame.has_column df "region");
    simpl in Es; try discriminate.
  destruct Hcol; discriminate.
Qed.

(** C2 (the code departs from the claim). On the empty table
    [pd.DataFrame()], which is what the normalizer returns for an empty
    input, [aggregate_daily_stats] raises KeyError('time'); so it does on
    every frame without a time column. *)
Theorem aggregate_daily_stats_empty_frame_raises :
  Frame.raw_to_dataframe sample_clock [] = Ok Frame.empty_frame /\
  Frame.aggregate_daily_stats Frame.empty_frame = Err (KeyError "time") /\
  forall df : Frame.DataFrame,
    Frame.has_column df "time" = false ->
    Frame.aggregate_daily_stats df = Err (KeyError "time").
Proof.
  split; [reflexivity|]. split; [reflexivity|].
  intros df H. unfold Frame.aggregate_daily_stats, Frame.get_column.
  unfold Frame.has_column in H.
  destruct (Frame.index_of "time" (Frame.columns df)); [discriminate|reflexivity].
Qed.

(** A single-city, single-hour payload that names its region. *)
Definition payload_one_hour_with_region : Frame.CityData :=
  {| Frame.city_name := Some "Curitiba"; Frame.lat := Some (-25)%Q;
     Frame.lon := Some (-49)%Q;
     Frame.hourly :=
       Some [ ("time", [Frame.JStr "2024-01-01T00:00"]);
              ("temperature_2m", [Frame.JNum 20]);
              ("relative_humidity_2m", [Frame.JNum 70]);
              ("precipitation", [Frame.JNum 0]);
              ("wind_speed_10m", [Frame.JNum 12]);
              ("cloud_cover", [Frame.JNum 40]) ];
     Frame.state := None; Frame.region := Some "Sul" |}.

(** The same payload without the region. *)
Definition payload_one_hour : Frame.CityData :=
  {| Frame.city_name := Some "Curitiba"; Frame.lat := Some (-25)%Q;
     Frame.lon := Some (-49)%Q;
     Frame.hourly := Frame.hourly payload_one_hour_with_region;
     Frame.state := None; Frame.region := None |}.

(** C10 (the code departs from the claim). Normalizing the one-hour payload
    that names its region and aggregating the result raises ValueError
    instead of giving one daily row, as does every frame with a state or
    region column; without the region the same payload gives the one row
    of the claim. *)
Theorem single_hour_round_trip_with_region_raises :
  (df <- Frame.raw_to_dataframe sample_clock [payload_one_hour_with_region] ;;
   Frame.aggregate_daily_stats df) = Err (ValueError "Length mismatch") /\
  (df <- Frame.raw_to_dataframe sample_clock [payload_one_hour] ;;
   Frame.aggregate_daily_stats df)
    = Ok {| Frame.columns :=
              [ "city"; "date"; "temp_mean"; "temp_min"; "temp_max";
                "humidity_mean"; "precipitation_total"; "wind_max";
                "cloud_cover_mean"; "latitude"; "longitude" ];
            Frame.rows :=
              [ [ Frame.Str "Curitiba"; Frame.Date 19723;
                  Frame.Num (20 / 1); Frame.Num 20; Frame.Num 20;
                  Frame.Num (70 / 1); Frame.Num 0; Frame.Num 12;
                  Frame.Num (40 / 1); Frame.Num (-25); Frame.Num (-49) ] ] |} /\
  forall df : Frame.DataFrame,
    Frame.has_column df "state" = true \/ Frame.has_column df "region" = true ->
    forall out, Frame.aggregate_daily_stats df <> Ok out.
Proof.
  split; [vm_compute; reflexivity|]. split; [vm_compute; reflexivity|].
  exact aggregate_daily_stats_regional_columns.
Qed.

(** * Part III: the theorems at concrete inputs *)

(** The configuration of the test suite. *)
Definition sample_processor : WeatherDataProcessor :=
  {| ma_window := 3;
     anomaly_threshold := 2;
     alert_config :=
       {| temperature_high_threshold := 35;
          temperature_low_threshold := 5;
          wind_speed_high_threshold := 60;
          precipitation_high_threshold := 50 |} |}.

Definition observe (t : Z) (c : string) (temp : Q) : Observation :=
  {| time := t; city := c; latitude := 0; longitude := 0;
     state := None; region := None;
     temperature_2m := temp; relative_humidity_2m := 60; precipitation := 0;
     wind_speed_10m := 10; cloud_cover := 30;
     temp_ma := None; temp_anomaly := None |}.

(** Two cities, interleaved: one with a constant temperature, one with a
    hot hour. *)
Definition two_city_table : DataFrame :=
  {| columns := [];
     rows := [ observe 0 "Manaus" 30; observe 0 "Gramado" 12;
               observe 60 "Manaus" 30; observe 60 "Gramado" 40;
               observe 120 "Manaus" 30 ] |}.

(** A rational stand-in for the square root: the integer root of the
    value scaled by 10^12. *)
Definition approx_sqrt (x : Q) : Q :=
  (Z.sqrt (Qnum x * Zpos (Qden x) * 1000000000000) # (Qden x * 1000000))%Q.


Lemma generate_alerts_witness :
  exists before after a,
    filter (is_type "high_temperature")
           (generate_alerts (fun _ => "40.0") sample_processor two_city_table)
      = before ++ a :: after /\
    (Alert.value a == 40)%Q.
Proof.
  destruct (proj2 (generate_alerts_by_type_in_row_order
                     (fun _ => "40.0") sample_processor two_city_table)
                  [observe 0 "Manaus" 30; observe 0 "Gramado" 12; observe 60 "Manaus" 30]
                  [observe 120 "Manaus" 30]
                  (observe 60 "Gramado" 40)
                  eq_refl (Qeq_refl 35) (Qeq_refl 40))
    as (before & after & a & H & _ & Hv & _).
  exists before, after, a. split; [exact H|exact Hv].
Defined.




Lemma raw_to_dataframe_witness :
  malformed payload_ragged /\
  exists e : exn,
    Frame.raw_to_dataframe sample_clock
      ([payload_one_hour] ++ payload_ragged :: [payload_without_hourly]) = Err e /\
    exn_name e <> "DataShapeError".
Proof.
  assert (H : malformed payload_ragged).
  { right. exists [ ("time", [Frame.JStr "2024-01-01T00:00"; Frame.JStr "2024-01-01T01:00"]);
                    ("temperature_2m", [Frame.JNum 25]) ],
      ("time", [Frame.JStr "2024-01-01T00:00"; Frame.JStr "2024-01-01T01:00"]),
      ("temperature_2m", [Frame.JNum 25]).
    split; [reflexivity|]. split; [now left|]. split; [right; now left|].
    simpl. discriminate. }
  split; [exact H|].
  exact (proj1 (raw_to_dataframe_rejects_malformed sample_clock
                  [payload_one_hour] [payload_without_hourly] payload_ragged H)).
Defined.

(** ** The detectors on small series *)

Definition rain (t : Z) (c : string) (p : Q) : Observation :=
  {| time := t; city := c; latitude := 0; longitude := 0;
     state := None; region := None;
     temperature_2m := 20; relative_humidity_2m := 60; precipitation := p;
     wind_speed_10m := 10; cloud_cover := 30;
     temp_ma := None; temp_anomaly := None |}.

(** Three consecutive hours above 35 degrees, given out of time order. *)
Example heat_wave_of_three_hours :
  heat_waves
    (detect_weather_patterns
       {| columns := [];
          rows := [ observe 180 "Cuiaba" 38; observe 0 "Cuiaba" 30;
                    observe 60 "Cuiaba" 36; observe 240 "Cuiaba" 30;
                    observe 120 "Cuiaba" 37; observe 0 "Gramado" 12 ] |})
  = [ {| HeatWave.city := "Cuiaba";
         HeatWave.duration_hours := Some 3%nat;
         HeatWave.max_temp := Some 38%Q |} ].
Proof. vm_compute. reflexivity. Qed.

(** Two hot hours, a cool one, two hot hours: no run of three. *)
Example no_heat_wave_when_interrupted :
  heat_waves
    (detect_weather_patterns
       {| columns := [];
          rows := [ observe 0 "Cuiaba" 36; observe 60 "Cuiaba" 37;
                    observe 120 "Cuiaba" 30; observe 180 "Cuiaba" 36;
                    observe 240 "Cuiaba" 38 ] |})
  = [].
Proof. vm_compute. reflexivity. Qed.

(** Twenty-five hourly rows at 30 degrees, then 18 at the last one. *)
Example cold_front_of_twelve_degrees :
  cold_fronts
    (detect_weather_patterns
       {| columns := [];
          rows := map (fun h => observe (Z.of_nat h * 60) "Lages" 30) (seq 0 24)
                  ++ [observe 1440 "Lages" 18] |})
  = [ {| ColdFront.city := "Lages";
         ColdFront.temp_drop := Some (18 - 30)%Q;
         ColdFront.time := 1440 |} ].
Proof. vm_compute. reflexivity. Qed.

(** Sums of three samples: 25, 35 and 20 at hours 2, 3 and 4. *)
Example heavy_rain_at_third_hour :
  heavy_rain_events
    (detect_weather_patterns
       {| columns := [];
          rows := [ rain 0 "Santos" 0; rain 60 "Santos" 15; rain 120 "Santos" 10;
                    rain 180 "Santos" 10; rain 240 "Santos" 0 ] |})
  = [ {| HeavyRainEvent.city := "Santos";
         HeavyRainEvent.precipitation_3h := Some (15 + (10 + (10 + 0)))%Q;
         HeavyRainEvent.time := 180 |} ].
Proof. vm_compute. reflexivity. Qed.

(** One sample of 50 mm alone is no three-sample sum. *)
Example no_heavy_rain_on_a_short_series :
  heavy_rain_events
    (detect_weather_patterns {| columns := []; rows := [rain 0 "Santos" 50] |})
  = [].
Proof. vm_compute. reflexivity. Qed.

(** The moving average and the anomaly flags of the two-city table. *)
Example moving_average_of_two_cities :
  option_map (fun df => map temp_ma (rows df))
    (match calculate_moving_averages sample_processor two_city_table with
     | Ok df => Some df
     | Err _ => None
     end)
  = Some [ Some (30 / 1)%Q; Some (12 / 1)%Q; Some ((30 + 30) / 2)%Q;
           Some ((12 + 40) / 2)%Q; Some ((30 + 30 + 30) / 3)%Q ].
Proof. vm_compute. reflexivity. Qed.

Example anomaly_flags_of_two_cities :
  map temp_anomaly (rows (detect_anomalies approx_sqrt sample_processor two_city_table))
  = [ Some false; Some false; Some false; Some false; Some false ].
Proof. vm_compute. reflexivity. Qed.

(** * Part IV: further properties of the analysis pipeline *)

(** ** Row-wise comparison of two tables *)

Lemma Forall2_of_nth {A B : Type} (R : A -> B -> Prop) (l : list A) (l' : list B) :
  List.length l' = List.length l ->
  (forall i x, nth_error l i = Some x -> exists y, nth_error l' i = Some y /\ R x y) ->
  Forall2 R l l'.
Proof.
  revert l'. induction l as [|x l IH]; intros [|y l'] Hlen H; simpl in Hlen;
    try discriminate; constructor.
  - destruct (H 0%nat x eq_refl) as (y' & Hy & HR). simpl in Hy. now injection Hy as ->.
  - apply IH; [lia|]. intros i x0 Hi. apply (H (S i) x0 Hi).
Qed.

Lemma Forall2_filter_map {A B : Type} (R : A -> A -> Prop) (p : A -> bool) (mk : A -> B)
    (l l' : list A) :
  (forall x y, R x y -> p x = p y /\ mk x = mk y) ->
  Forall2 R l l' -> map mk (filter p l) = map mk (filter p l').
Proof.
  intros H. induction 1 as [|x y l l' HR _ IH]; simpl; [reflexivity|].
  destruct (H x y HR) as [<- Hmk]. destruct (p x); simpl; [rewrite Hmk, IH|]; auto.
Qed.

(** Two rows that differ at most in the derived columns [temp_ma] and
    [temp_anomaly]. *)
Definition same_observation (r r' : Observation) : Prop :=
  time r' = time r /\ city r' = city r /\ latitude r' = latitude r /\
  longitude r' = longitude r /\ state r' = state r /\ region r' = region r /\
  temperature_2m r' = temperature_2m r /\
  relative_humidity_2m r' = relative_humidity_2m r /\
  precipitation r' = precipitation r /\ wind_speed_10m r' = wind_speed_10m r /\
  cloud_cover r' = cloud_cover r.

Lemma same_observation_refl r : same_observation r r.
Proof. repeat split. Qed.

Section AlertsAfterEnrichment.
Variable format_1f : Q -> string.

Lemma generate_alerts_same_observations self (df df' : DataFrame) :
  Forall2 same_observation (rows df) (rows df') ->
  generate_alerts format_1f self df' = generate_alerts format_1f self df.
Proof.
  intros H. rewrite !generate_alerts_groups.
  assert (E : forall (p : Observation -> bool) (mk : Observation -> Alert.t),
             (forall x y, same_observation x y -> p x = p y /\ mk x = mk y) ->
             map mk (filter p (rows df')) = map mk (filter p (rows df))).
  { intros p mk Hp. symmetry. now apply (Forall2_filter_map same_observation). }
  rewrite !E; [reflexivity| | | |];
    intros x y (Ht & Hc & _ & _ & _ & _ & Htemp & _ & Hp & Hw & _);
    unfold high_temperature_alert, low_temperature_alert, high_wind_alert,
      heavy_precipitation_alert;
    rewrite ?Ht, ?Hc, ?Htemp, ?Hp, ?Hw; split; reflexivity.
Qed.
End AlertsAfterEnrichment.

(** ** Moving average: when it succeeds and what it changes *)

Lemma fold_left_bind_err {A C : Type} (k : A -> C -> result A) (cs : list C) (e : exn) :
  fold_left (fun acc c => x <- acc ;; k x c) cs (Err e) = Err e.
Proof. induction cs as [|c cs IH]; simpl; [reflexivity|exact IH]. Qed.

Lemma rolling_fails (W m : Z) (agg : list Q -> option Q) (s : list Q) :
  (W < m)%Z -> (0 <= m)%Z -> exists msg, rolling W m agg s = Err (ValueError msg).
Proof.
  intros H Hm. unfold rolling.
  destruct (Z.ltb_spec W 0); [eauto|].
  destruct (Z.ltb_spec W m); [eauto|lia].
Qed.

Lemma unique_cities_cons (x : Observation) (l : list Observation) :
  exists cs, unique_cities (x :: l) = city x :: cs.
Proof. unfold unique_cities. simpl. eauto. Qed.

Lemma calculate_moving_averages_fails (self : WeatherDataProcessor) (df : DataFrame) :
  rows df <> [] -> (ma_window self < 1)%Z ->
  exists msg, calculate_moving_averages self df = Err (ValueError msg).
Proof.
  intros Hne HW. unfold calculate_moving_averages.
  destruct (rows df) as [|x l] eqn:Er; [congruence|].
  destruct (unique_cities_cons x l) as [cs ->]. simpl.
  destruct (rolling_fails (ma_window self) 1 mean
              (map temperature_2m
                 (boolean_index (rows df) (city_mask (rows df) (city x))))
              HW ltac:(lia)) as [msg Hmsg].
  rewrite Hmsg. simpl. exists msg.
  apply (fold_left_bind_err
           (fun df c =>
              ma <- rolling (ma_window self) 1 mean
                      (map temperature_2m
                         (boolean_index (rows df) (city_mask (rows df) c))) ;;
              Ok {| columns := add_column (columns df) "temp_ma";
                    rows := loc_set set_temp_ma (rows df) (city_mask (rows df) c) ma |})).
Qed.

Lemma add_column_twice (cols : list string) (name : string) :
  add_column (add_column cols name) name = add_column cols name.
Proof.
  unfold add_column at 2.
  destruct (existsb (String.eqb name) cols) eqn:E.
  - unfold add_column. now rewrite E.
  - unfold add_column. rewrite existsb_app, E. simpl.
    now rewrite String.eqb_refl.
Qed.

Lemma existsb_add_column (cols : list string) (name other : string) :
  existsb (String.eqb other) (add_column cols name)
  = existsb (String.eqb other) cols || String.eqb other name.
Proof.
  unfold add_column. destruct (existsb (String.eqb name) cols) eqn:E.
  - destruct (String.eqb_spec other name) as [->|]; [|now rewrite orb_false_r].
    now rewrite E.
  - rewrite existsb_app. simpl. now rewrite orb_false_r.
Qed.

Lemma calculate_moving_averages_run (self : WeatherDataProcessor) :
  (1 <= ma_window self)%Z ->
  forall (cs : list string) (df : DataFrame),
    exists df',
      fold_left
        (fun acc c =>
           df <- acc ;;
           let city_mask := city_mask (rows df) c in
           ma <- rolling (ma_window self) 1 mean
                   (map temperature_2m (boolean_index (rows df) city_mask)) ;;
           Ok {| columns := add_column (columns df) "temp_ma";
                 rows := loc_set set_temp_ma (rows df) city_mask ma |})
        cs (Ok df) = Ok df' /\
      rows df' = fold_left (ma_step (Z.to_nat (ma_window self))) cs (rows df) /\
      columns df' = match cs with
                    | [] => columns df
                    | _ :: _ => add_column (columns df) "temp_ma"
                    end.
Proof.
  intros HW. induction cs as [|c cs IH]; intros df; simpl.
  - exists df. repeat split.
  - rewrite rolling_ok by lia. simpl.
    destruct (IH {| columns := add_column (columns df) "temp_ma";
                    rows := ma_step (Z.to_nat (ma_window self)) (rows df) c |})
      as (df' & H1 & H2 & H3).
    exists df'. split; [exact H1|]. split; [exact H2|].
    rewrite H3. cbn [columns]. destruct cs; [reflexivity|apply add_column_twice].
Qed.

Lemma set_temp_ma_self (r : Observation) : set_temp_ma r (temp_ma r) = r.
Proof. now destruct r. Qed.


Lemma calculate_moving_averages_rows (self : WeatherDataProcessor) (df df' : DataFrame) :
  calculate_moving_averages self df = Ok df' ->
  List.length (rows df') = List.length (rows df) /\
  forall i r, nth_error (rows df) i = Some r ->
    nth_error (rows df') i
    = Some (set_temp_ma r (ma_value (Z.to_nat (ma_window self)) (rows df) r i)).
Proof.
  intros H.
  destruct (rows df) as [|x l] eqn:Er.
  - unfold calculate_moving_averages in H. rewrite Er in H. simpl in H.
    injection H as <-. rewrite Er. split; [reflexivity|]. intros [|i] r Hr; discriminate.
  - assert (HW : (1 <= ma_window self)%Z).
    { destruct (Z.le_gt_cases 1 (ma_window self)) as [|Hlt]; [assumption|].
      destruct (calculate_moving_averages_fails self df) as [msg Hmsg];
        [rewrite Er; discriminate|lia|congruence]. }
    destruct (calculate_moving_averages_run self HW (unique_cities (rows df)) df)
      as (df'' & Hrun & Hrows & _).
    change (calculate_moving_averages self df = Ok df'') in Hrun.
    rewrite Hrun in H. injection H as <-.
    rewrite <- Er, Hrows. split; [apply ma_fold_length|].
    intros i r Hr.
    rewrite (ma_fold_nth _ (rows df) (unique_cities (rows df)) (rows df)
               eq_refl eq_refl i r Hr).
    now rewrite (city_listed _ _ _ Hr).
Qed.

(** X2. When [calculate_moving_averages] returns, the table has the same
    rows in the same order and every row differs from its original in
    [temp_ma] at most; the columns are the ones it had, plus [temp_ma]
    (added as soon as there is a row). *)
Theorem calculate_moving_averages_keeps_observations :
  forall (self : WeatherDataProcessor) (df df' : DataFrame),
    calculate_moving_averages self df = Ok df' ->
    Forall2 (fun r r' => r' = set_temp_ma r (temp_ma r')) (rows df) (rows df') /\
    (rows df <> [] -> has_column df' "temp_ma" = true) /\
    (forall name, name <> "temp_ma" -> has_column df' name = has_column df name).
Proof.
  intros self df df' H.
  destruct (calculate_moving_averages_rows self df df' H) as [Hlen Hnth].
  split; [|split].
  - apply Forall2_of_nth; [exact Hlen|].
    intros i r Hr. eexists. split; [apply (Hnth i r Hr)|reflexivity].
  - intros Hne.
    destruct (rows df) as [|x l] eqn:Er; [congruence|].
    assert (HW : (1 <= ma_window self)%Z).
    { destruct (Z.le_gt_cases 1 (ma_window self)) as [|Hlt]; [assumption|].
      destruct (calculate_moving_averages_fails self df) as [msg Hmsg];
        [rewrite Er; discriminate|lia|congruence]. }
    destruct (calculate_moving_averages_run self HW (unique_cities (rows df)) df)
      as (df'' & Hrun & _ & Hcols).
    change (calculate_moving_averages self df = Ok df'') in Hrun.
    rewrite Hrun in H. injection H as <-.
    unfold has_column. rewrite Hcols, Er.
    destruct (unique_cities_cons x l) as [cs ->].
    rewrite existsb_add_column, String.eqb_refl. apply orb_true_r.
  - intros name Hname.
    destruct (rows df) as [|x l] eqn:Er.
    + unfold calculate_moving_averages in H. rewrite Er in H. simpl in H.
      now injection H as <-.
    + assert (HW : (1 <= ma_window self)%Z).
      { destruct (Z.le_gt_cases 1 (ma_window self)) as [|Hlt]; [assumption|].
        destruct (calculate_moving_averages_fails self df) as [msg Hmsg];
          [rewrite Er; discriminate|lia|congruence]. }
      destruct (calculate_moving_averages_run self HW (unique_cities (rows df)) df)
        as (df'' & Hrun & _ & Hcols).
      change (calculate_moving_averages self df = Ok df'') in Hrun.
    rewrite Hrun in H. injection H as <-.
      unfold has_column. rewrite Hcols, Er.
      destruct (unique_cities_cons x l) as [cs ->].
      rewrite existsb_add_column.
      destruct (String.eqb_spec name "temp_ma"); [contradiction|apply orb_false_r].
Qed.

(** ** Moving average: it stays within the range of the city *)



Lemma In_firstn {A : Type} (n : nat) (l : list A) (x : A) :
  In x (firstn n l) -> In x l.
Proof.
  revert l. induction n as [|n IH]; intros [|y l]; simpl; try tauto.
  intros [->|H]; auto.
Qed.





(** ** Anomaly detection: what it changes, and when it cannot flag *)

Lemma nth_error_ext_eq {A : Type} (l l' : list A) :
  (forall i, nth_error l i = nth_error l' i) -> l = l'.
Proof.
  revert l'. induction l as [|x l IH]; intros [|y l'] H.
  - reflexivity.
  - specialize (H 0%nat). discriminate.
  - specialize (H 0%nat). discriminate.
  - pose proof (H 0%nat) as H0. simpl in H0. injection H0 as ->.
    f_equal. apply IH. intros i. apply (H (S i)).
Qed.

Section AnomalyFurther.
Variable sqrt : Q -> Q.

Lemma detect_anomalies_rows (self : WeatherDataProcessor) (df : DataFrame) :
  List.length (rows (detect_anomalies sqrt self df)) = List.length (rows df) /\
  forall i r, nth_error (rows df) i = Some r ->
    nth_error (rows (detect_anomalies sqrt self df)) i
    = Some (set_temp_anomaly r
              (anomaly_from sqrt self (city_series (rows df) (city r))
                            (temperature_2m r) false)).
Proof.
  rewrite detect_anomalies_unfold. split.
  - rewrite anomaly_fold_length. cbn [rows]. apply length_map.
  - intros i r Hr.
    rewrite (anomaly_fold_nth sqrt self (rows df) (unique_cities (rows df))
               _ i r false).
    + now rewrite (city_listed _ _ _ Hr).
    + cbn [rows]. now rewrite map_map.
    + cbn [rows]. now rewrite map_map.
    + cbn [rows].
      apply (map_nth_error (fun r0 => set_temp_anomaly r0 false) _ _ Hr).
Qed.

Lemma detect_anomalies_columns (self : WeatherDataProcessor) (df : DataFrame) :
  columns (detect_anomalies sqrt self df) = add_column (columns df) "temp_anomaly".
Proof.
  rewrite detect_anomalies_unfold.
  rewrite (fold_left_keeps (anomaly_step sqrt self) columns); [reflexivity|].
  intros p c. unfold anomaly_step.
  destruct (mean _); [|reflexivity]. destruct (std _ _); [|reflexivity].
  now destruct (Qgtb _ _).
Qed.

Lemma detect_anomalies_same (self : WeatherDataProcessor) (df : DataFrame) :
  Forall2 same_observation (rows df) (rows (detect_anomalies sqrt self df)).
Proof.
  destruct (detect_anomalies_rows self df) as [Hlen Hnth].
  apply Forall2_of_nth; [exact Hlen|].
  intros i r Hr. eexists. split; [apply (Hnth i r Hr)|]. repeat split.
Qed.

Lemma same_observation_series (l l' : list Observation) (c : string) :
  Forall2 same_observation l l' -> city_series l' c = city_series l c.
Proof.
  unfold city_series. induction 1 as [|x y l l' HR _ IH]; simpl; [reflexivity|].
  destruct HR as (_ & Hc & _ & _ & _ & _ & Ht & _).
  assert (E : city_is c y = city_is c x) by (unfold city_is; now rewrite Hc).
  rewrite E. destruct (city_is c x); simpl; [rewrite Ht, IH|]; auto.
Qed.

(** X4. [detect_anomalies] returns the same rows in the same order: a row
    differs from its original in [temp_anomaly] at most, which is now a
    definite flag, and the columns are the ones the table had plus
    [temp_anomaly].  Running it a second time changes nothing. *)
Theorem detect_anomalies_changes_only_the_flag :
  forall (self : WeatherDataProcessor) (df : DataFrame),
    Forall2 (fun r r' => exists b : bool, r' = set_temp_anomaly r b)
            (rows df) (rows (detect_anomalies sqrt self df)) /\
    has_column (detect_anomalies sqrt self df) "temp_anomaly" = true /\
    (forall name, name <> "temp_anomaly" ->
       has_column (detect_anomalies sqrt self df) name = has_column df name) /\
    detect_anomalies sqrt self (detect_anomalies sqrt self df)
      = detect_anomalies sqrt self df.
Proof.
  intros self df.
  destruct (detect_anomalies_rows self df) as [Hlen Hnth].
  split; [|split; [|split]].
  - apply Forall2_of_nth; [exact Hlen|].
    intros i r Hr. eexists. split; [apply (Hnth i r Hr)|]. eauto.
  - unfold has_column. rewrite detect_anomalies_columns, existsb_add_column.
    rewrite String.eqb_refl. apply orb_true_r.
  - intros name Hname. unfold has_column.
    rewrite detect_anomalies_columns, existsb_add_column.
    destruct (String.eqb_spec name "temp_anomaly"); [contradiction|apply orb_false_r].
  - set (df1 := detect_anomalies sqrt self df).
    assert (Hcols : columns (detect_anomalies sqrt self df1) = columns df1).
    { rewrite detect_anomalies_columns. unfold df1.
      rewrite detect_anomalies_columns. apply add_column_twice. }
    assert (Hrows : rows (detect_anomalies sqrt self df1) = rows df1).
    { apply nth_error_ext_eq. intros i.
      destruct (detect_anomalies_rows self df1) as [Hlen1 Hnth1].
      destruct (nth_error (rows df) i) as [r|] eqn:Er.
      - pose proof (Hnth i r Er) as H1. fold df1 in H1.
        rewrite (Hnth1 i _ H1), H1.
        cbn [city temperature_2m set_temp_anomaly].
        pose proof (same_observation_series _ _ (city r)
                      (detect_anomalies_same self df)) as Hs.
        fold df1 in Hs. now rewrite Hs.
      - assert (H1 : nth_error (rows df1) i = None).
        { apply nth_error_None. unfold df1. rewrite Hlen. now apply nth_error_None. }
        rewrite H1. apply nth_error_None. rewrite Hlen1. now apply nth_error_None. }
    destruct (detect_anomalies sqrt self df1) as [cols2 rows2], df1 as [cols1 rows1].
    simpl in Hcols, Hrows. now subst.
Qed.

(** X5. A city with fewer than two rows is never flagged: the deviation
    of a single value is undefined, and the code flags only when it is
    positive. *)
Theorem detect_anomalies_needs_two_rows :
  forall (self : WeatherDataProcessor) (df : DataFrame) (i : nat) (r : Observation),
    nth_error (rows df) i = Some r ->
    (List.length (filter (fun x => String.eqb (city x) (city r)) (rows df)) <= 1)%nat ->
    nth_error (rows (detect_anomalies sqrt self df)) i
      = Some (set_temp_anomaly r false).
Proof.
  intros self df i r Hr Hone.
  destruct (detect_anomalies_rows self df) as [_ Hnth].
  rewrite (Hnth i r Hr). do 2 f_equal.
  unfold anomaly_from, std.
  destruct (mean (city_series (rows df) (city r))); [|reflexivity].
  assert (E : (List.length (city_series (rows df) (city r)) <=? 1)%nat = true).
  { apply Nat.leb_le. unfold city_series. now rewrite length_map. }
  now rewrite E.
Qed.

(** X6. Raising the threshold never adds a flag: a row flagged under the
    larger of two thresholds is flagged under the smaller one. *)
Theorem detect_anomalies_monotone_in_threshold :
  forall (self1 self2 : WeatherDataProcessor) (df : DataFrame) (i : nat) (r : Observation),
    (anomaly_threshold self1 <= anomaly_threshold self2)%Q ->
    nth_error (rows df) i = Some r ->
    nth_error (rows (detect_anomalies sqrt self2 df)) i
      = Some (set_temp_anomaly r true) ->
    nth_error (rows (detect_anomalies sqrt self1 df)) i
      = Some (set_temp_anomaly r true).
Proof.
  intros self1 self2 df i r Hle Hr H2.
  destruct (detect_anomalies_rows self1 df) as [_ Hnth1].
  destruct (detect_anomalies_rows self2 df) as [_ Hnth2].
  rewrite (Hnth2 i r Hr) in H2. rewrite (Hnth1 i r Hr).
  injection H2 as H2. do 2 f_equal.
  unfold anomaly_from in *.
  destruct (mean (city_series (rows df) (city r))) as [mu|]; [|discriminate].
  destruct (std sqrt (city_series (rows df) (city r))) as [sd|]; [|discriminate].
  destruct (Qgtb sd 0) eqn:Esd; [|discriminate].
  apply Qgtb_gt in Esd, H2. apply Qgtb_gt. nra.
Qed.
End AnomalyFurther.

Section PipelineAlerts.
Variable format_1f : Q -> string.
Variable sqrt : Q -> Q.

(** X7. The alerts do not depend on the enrichment: the table after the
    moving average, after the anomaly flags, or after both (the order of
    the pipeline) gives the same alert list as the table before. *)
Theorem generate_alerts_ignores_enrichment :
  forall (self : WeatherDataProcessor) (df : DataFrame),
    generate_alerts format_1f self (detect_anomalies sqrt self df)
      = generate_alerts format_1f self df /\
    forall df1 : DataFrame,
      calculate_moving_averages self df = Ok df1 ->
      generate_alerts format_1f self df1 = generate_alerts format_1f self df /\
      generate_alerts format_1f self (detect_anomalies sqrt self df1)
        = generate_alerts format_1f self df.
Proof.
  intros self df.
  assert (Han : forall d, generate_alerts format_1f self (detect_anomalies sqrt self d)
                          = generate_alerts format_1f self d).
  { intros d. apply generate_alerts_same_observations, detect_anomalies_same. }
  split; [apply Han|]. intros df1 H.
  assert (Hma : generate_alerts format_1f self df1 = generate_alerts format_1f self df).
  { apply generate_alerts_same_observations.
    destruct (calculate_moving_averages_rows self df df1 H) as [Hlen Hnth].
    apply Forall2_of_nth; [exact Hlen|].
    intros i r Hr. eexists. split; [apply (Hnth i r Hr)|]. repeat split. }
  split; [exact Hma|]. now rewrite Han.
Qed.
End PipelineAlerts.

(** ** Summary statistics: the figures are consistent with each other *)

Lemma unique_length_le {A : Type} (eqb : A -> A -> bool) (l : list A) :
  (List.length (unique eqb l) <= List.length l)%nat.
Proof.
  induction l as [|x l IH]; simpl; [lia|].
  pose proof (filter_length_le (fun y => negb (eqb x y)) (unique eqb l)). lia.
Qed.



(** ** Pattern detector: order, thresholds and short series *)

(** [l1] is [l2] with some elements left out. *)
Inductive subsequence {A : Type} : list A -> list A -> Prop :=
| subsequence_nil : forall l, subsequence [] l
| subsequence_take : forall x l1 l2, subsequence l1 l2 -> subsequence (x :: l1) (x :: l2)
| subsequence_skip : forall x l1 l2, subsequence l1 l2 -> subsequence l1 (x :: l2).

Lemma subsequence_In {A : Type} (l1 l2 : list A) (x : A) :
  subsequence l1 l2 -> In x l1 -> In x l2.
Proof.
  induction 1 as [l|y l1 l2 _ IH|y l1 l2 _ IH]; simpl; intros H; [tauto| |auto].
  destruct H; auto.
Qed.

Lemma subsequence_NoDup {A : Type} (l1 l2 : list A) :
  subsequence l1 l2 -> NoDup l2 -> NoDup l1.
Proof.
  induction 1 as [l|y l1 l2 Hs IH|y l1 l2 Hs IH]; intros Hnd.
  - constructor.
  - inversion Hnd as [|? ? Hy Hnd']; subst. constructor; [|now apply IH].
    intros Hin. apply Hy. eapply subsequence_In; eauto.
  - inversion Hnd; subst. now apply IH.
Qed.

Lemma findings_subsequence {F : Type} (key : F -> string) (found_in : string -> option F)
    (cs : list string) :
  (forall c f, found_in c = Some f -> key f = c) ->
  subsequence (map key (flat_map (fun c => option_list (found_in c)) cs)) cs.
Proof.
  intros Hkey. induction cs as [|c cs IH]; simpl; [constructor|].
  destruct (found_in c) as [f|] eqn:E; simpl.
  - rewrite (Hkey c f E). now constructor.
  - now constructor.
Qed.

Lemma heat_wave_of_city df c f : heat_wave_of df c = Some f -> HeatWave.city f = c.
Proof.
  unfold heat_wave_of. destruct (existsb _ _); [|discriminate]. now intros [= <-].
Qed.

Lemma cold_front_of_city df c f : cold_front_of df c = Some f -> ColdFront.city f = c.
Proof.
  unfold cold_front_of. destruct (cold_front_rows _); [discriminate|]. now intros [= <-].
Qed.

Lemma heavy_rain_of_city_key df c f :
  heavy_rain_of df c = Some f -> HeavyRainEvent.city f = c.
Proof.
  unfold heavy_rain_of. destruct (heavy_rain_rows _); [discriminate|]. now intros [= <-].
Qed.

(** X9. In each of the three lists of findings the cities follow the order
    in which they first appear in the table, and no city occurs twice. *)
Theorem findings_follow_city_order :
  forall df : DataFrame,
    let first_seen := unique String.eqb (map city (rows df)) in
    subsequence (map HeatWave.city (heat_waves (detect_weather_patterns df))) first_seen /\
    subsequence (map ColdFront.city (cold_fronts (detect_weather_patterns df))) first_seen /\
    subsequence (map HeavyRainEvent.city (heavy_rain_events (detect_weather_patterns df)))
                first_seen /\
    NoDup (map HeatWave.city (heat_waves (detect_weather_patterns df))) /\
    NoDup (map ColdFront.city (cold_fronts (detect_weather_patterns df))) /\
    NoDup (map HeavyRainEvent.city (heavy_rain_events (detect_weather_patterns df))).
Proof.
  intros df first_seen.
  destruct (detect_weather_patterns_fields df) as (-> & -> & ->).
  pose proof (findings_subsequence HeatWave.city (heat_wave_of df)
                (unique_cities (rows df)) (heat_wave_of_city df)) as H1.
  pose proof (findings_subsequence ColdFront.city (cold_front_of df)
                (unique_cities (rows df)) (cold_front_of_city df)) as H2.
  pose proof (findings_subsequence HeavyRainEvent.city (heavy_rain_of df)
                (unique_cities (rows df)) (heavy_rain_of_city_key df)) as H3.
  pose proof (unique_cities_NoDup (rows df)) as Hnd.
  repeat split; auto; eapply subsequence_NoDup; eauto.
Qed.

Lemma in_findings {F : Type} (found_in : string -> option F) (cs : list string) (f : F) :
  In f (flat_map (fun c => option_list (found_in c)) cs) ->
  exists c, In c cs /\ found_in c = Some f.
Proof.
  rewrite in_flat_map. intros (c & Hc & Hf). exists c. split; [exact Hc|].
  destruct (found_in c); simpl in Hf; [|contradiction].
  destruct Hf as [->|[]]. reflexivity.
Qed.

Lemma heat_flags_true (s : list Observation) :
  In true (heat_flags s) ->
  map temperature_2m (filter (fun r => Qgtb (temperature_2m r) 35) s) <> [].
Proof.
  unfold heat_flags. rewrite in_map_iff. intros (r & Hr & Hin) E.
  assert (H : In (temperature_2m r)
                 (map temperature_2m (filter (fun r => Qgtb (temperature_2m r) 35) s))).
  { apply in_map, filter_In. auto. }
  rewrite E in H. contradiction.
Qed.

Lemma maximal_true_run_In (flags : list bool) (n : nat) :
  maximal_true_run flags n -> In true flags /\ (n <= List.length flags)%nat.
Proof.
  intros (Hn & pre & post & -> & _). split.
  - apply in_or_app. right. apply in_or_app. left.
    destruct n; [lia|]. now left.
  - rewrite !length_app, repeat_length. lia.
Qed.

(** X10. Every finding meets the threshold of its detector and names a
    city of the table: a heat wave lasts at least three hours and peaks
    above 35 degrees, a cold front drops by more than 10 degrees, a heavy
    rain event sums to more than 30 mm. *)
Theorem findings_meet_thresholds :
  forall df : DataFrame,
    (forall f, In f (heat_waves (detect_weather_patterns df)) ->
       In (HeatWave.city f) (map city (rows df)) /\
       exists (d : nat) (m : Q),
         HeatWave.duration_hours f = Some d /\ (3 <= d)%nat /\
         HeatWave.max_temp f = Some m /\ (35 < m)%Q) /\
    (forall f, In f (cold_fronts (detect_weather_patterns df)) ->
       In (ColdFront.city f) (map city (rows df)) /\
       exists m : Q, ColdFront.temp_drop f = Some m /\ (m < -10)%Q) /\
    (forall f, In f (heavy_rain_events (detect_weather_patterns df)) ->
       In (HeavyRainEvent.city f) (map city (rows df)) /\
       exists m : Q, HeavyRainEvent.precipitation_3h f = Some m /\ (30 < m)%Q).
Proof.
  intros df.
  destruct (detect_weather_patterns_fields df) as (-> & -> & ->).
  assert (Hcity : forall c, In c (unique_cities (rows df)) -> In c (map city (rows df))).
  { intros c. apply (unique_In String.eqb String.eqb_eq). }
  split; [|split].
  - intros f Hf. apply in_findings in Hf. destruct Hf as (c & Hc & Hof).
    rewrite (heat_wave_of_city df c f Hof). split; [now apply Hcity|].
    unfold heat_wave_of in Hof.
    destruct (existsb _ _) eqn:E; [|discriminate]. injection Hof as <-.
    cbn [HeatWave.duration_hours HeatWave.max_temp].
    apply existsb_sizes in E. destruct E as (n & Hin & Hn).
    destruct (count_max_some (map snd (heat_sequences (city_frame df c)))) as [d Hd].
    { intros E0. rewrite E0 in Hin. contradiction. }
    destruct (count_max_spec _ _ Hd) as [_ Hle].
    pose proof (Hle n Hin) as Hnd.
    rewrite heat_sequences_runs in Hin.
    apply true_runs_maximal, maximal_true_run_In in Hin. destruct Hin as [Htrue _].
    change (boolean_index (city_frame df c) (heat_flags (city_frame df c)))
      with (boolean_index (city_frame df c)
              (map (fun r => Qgtb (temperature_2m r) 35) (city_frame df c))).
    rewrite boolean_index_map.
    destruct (series_max_some _ (heat_flags_true _ Htrue)) as [m Hm].
    destruct (series_max_spec _ _ Hm) as [Hmin _].
    exists d, m. split; [exact Hd|]. split; [lia|]. split; [exact Hm|].
    apply in_map_iff in Hmin. destruct Hmin as (r & <- & Hr).
    apply filter_In in Hr. now apply Qgtb_gt.
  - intros f Hf. apply in_findings in Hf. destruct Hf as (c & Hc & Hof).
    rewrite (cold_front_of_city df c f Hof). split; [now apply Hcity|].
    unfold cold_front_of in Hof. rewrite cold_front_rows_selected in Hof.
    set (s := city_frame df c) in *.
    set (vals := diff 24 (map temperature_2m s)) in *.
    assert (Hlen : List.length vals = List.length s).
    { unfold vals. rewrite diff_length. apply length_map. }
    destruct (selected _ s vals) as [|first rest] eqn:Esel; [discriminate|].
    injection Hof as <-. cbn [ColdFront.temp_drop].
    destruct (selected_head _ s _ Hlen _ _ Esel) as (i0 & d0 & _ & Hq & _).
    destruct (series_min_some (dropna (map snd (first :: rest)))) as [m Hm].
    { intros E. assert (Hin : In d0 (dropna (map snd (first :: rest)))).
      { rewrite <- Esel. apply (selected_values _ s _ Hlen). eauto. }
      rewrite E in Hin. contradiction. }
    destruct (series_min_spec _ _ Hm) as [Hmin _].
    exists m. split; [exact Hm|].
    rewrite <- Esel in Hmin. apply (selected_values _ s _ Hlen) in Hmin.
    destruct Hmin as [i [_ Hg]]. now apply Qltb_lt.
  - intros f Hf. apply in_findings in Hf. destruct Hf as (c & Hc & Hof).
    rewrite (heavy_rain_of_city_key df c f Hof). split; [now apply Hcity|].
    unfold heavy_rain_of in Hof. rewrite heavy_rain_rows_selected in Hof.
    set (s := city_frame df c) in *.
    set (vals := rolling_apply 3 3 (fun w => Some (Qsum w)) (map precipitation s)) in *.
    assert (Hlen : List.length vals = List.length s).
    { unfold vals. rewrite rolling_apply_length. apply length_map. }
    destruct (selected _ s vals) as [|first rest] eqn:Esel; [discriminate|].
    injection Hof as <-. cbn [HeavyRainEvent.precipitation_3h].
    destruct (selected_head _ s _ Hlen _ _ Esel) as (i0 & d0 & _ & Hq & _).
    destruct (series_max_some (dropna (map snd (first :: rest)))) as [m Hm].
    { intros E. assert (Hin : In d0 (dropna (map snd (first :: rest)))).
      { rewrite <- Esel. apply (selected_values _ s _ Hlen). eauto. }
      rewrite E in Hin. contradiction. }
    destruct (series_max_spec _ _ Hm) as [Hmax _].
    exists m. split; [exact Hm|].
    rewrite <- Esel in Hmax. apply (selected_values _ s _ Hlen) in Hmax.
    destruct Hmax as [i [_ Hg]]. now apply Qgtb_gt.
Qed.

Lemma city_frame_length (df : DataFrame) (c : string) :
  List.length (city_frame df c)
  = List.length (filter (fun r => String.eqb (city r) c) (rows df)).
Proof. apply Permutation_length, city_frame_sorted. Qed.

Lemma heat_wave_of_short (df : DataFrame) (c : string) :
  (List.length (city_frame df c) < 3)%nat -> heat_wave_of df c = None.
Proof.
  intros H. unfold heat_wave_of.
  destruct (existsb _ _) eqn:E; [|reflexivity]. exfalso.
  apply existsb_sizes in E. destruct E as (n & Hin & Hn).
  rewrite heat_sequences_runs in Hin.
  apply true_runs_maximal, maximal_true_run_In in Hin. destruct Hin as [_ Hle].
  unfold heat_flags in Hle. rewrite length_map in Hle. lia.
Qed.

Lemma cold_front_of_short (df : DataFrame) (c : string) :
  (List.length (city_frame df c) < 25)%nat -> cold_front_of df c = None.
Proof.
  intros H. unfold cold_front_of. rewrite cold_front_rows_selected.
  set (s := city_frame df c) in *.
  assert (Hlen : List.length (diff 24 (map temperature_2m s)) = List.length s).
  { rewrite diff_length. apply length_map. }
  replace (selected (fun x => Qltb x (-10)) s (diff 24 (map temperature_2m s)))
    with (@nil (Observation * option Q)); [reflexivity|].
  symmetry. apply (selected_nil _ s _ Hlen).
  intros (i & d & Hq). apply qualifies_cold in Hq.
  destruct Hq as [(Hi & a & b & Ha & _) _].
  assert (i < List.length (map temperature_2m s))%nat
    by (apply nth_error_Some; congruence).
  rewrite length_map in *. lia.
Qed.

Lemma heavy_rain_of_short (df : DataFrame) (c : string) :
  (List.length (city_frame df c) < 3)%nat -> heavy_rain_of df c = None.
Proof.
  intros H. unfold heavy_rain_of. rewrite heavy_rain_rows_selected.
  set (s := city_frame df c) in *.
  set (vals := rolling_apply 3 3 (fun w => Some (Qsum w)) (map precipitation s)).
  assert (Hlen : List.length vals = List.length s).
  { unfold vals. rewrite rolling_apply_length. apply length_map. }
  replace (selected (fun x => Qgtb x 30) s vals)
    with (@nil (Observation * option Q)); [reflexivity|].
  symmetry. apply (selected_nil _ s _ Hlen).
  intros (i & d & Hq). apply qualifies_heavy in Hq.
  destruct Hq as [(Hi & a & b & c0 & _ & _ & Hc & _) _].
  assert (i < List.length (map precipitation s))%nat
    by (apply nth_error_Some; congruence).
  rewrite length_map in *. lia.
Qed.

Lemma no_finding_for_city {F : Type} (key : F -> string) (l : list F) (c : string) :
  filter (fun f => String.eqb (key f) c) l = [] ->
  forall f, In f l -> key f <> c.
Proof.
  intros H f Hin Hc.
  assert (Hf : In f (filter (fun f => String.eqb (key f) c) l)).
  { apply filter_In. split; [exact Hin|]. now apply String.eqb_eq. }
  rewrite H in Hf. contradiction.
Qed.

(** X11. A city needs enough rows to be found: with fewer than 25 rows it
    has no cold front, and with fewer than three rows it has neither a heat
    wave nor a heavy-rain event, whatever its measurements. *)
Theorem short_series_have_no_findings :
  forall (df : DataFrame) (c : string),
    let n := List.length (filter (fun r => String.eqb (city r) c) (rows df)) in
    ((n < 25)%nat ->
     forall f, In f (cold_fronts (detect_weather_patterns df)) -> ColdFront.city f <> c) /\
    ((n < 3)%nat ->
     (forall f, In f (heat_waves (detect_weather_patterns df)) -> HeatWave.city f <> c) /\
     (forall f, In f (heavy_rain_events (detect_weather_patterns df)) ->
        HeavyRainEvent.city f <> c)).
Proof.
  intros df c n. unfold n. rewrite <- city_frame_length. split.
  - intros H. apply no_finding_for_city.
    now rewrite cold_fronts_of_city, cold_front_of_short.
  - intros H. split; apply no_finding_for_city.
    + now rewrite heat_waves_of_city, heat_wave_of_short.
    + now rewrite heavy_rain_of_city, heavy_rain_of_short.
Qed.

(** ** Alert generator: how many alerts, and when none *)

Lemma filter_disjoint_length {A : Type} (p q : A -> bool) (l : list A) :
  (forall x, p x = true -> q x = false) ->
  (List.length (filter p l) + List.length (filter q l) <= List.length l)%nat.
Proof.
  intros H. induction l as [|x l IH]; simpl; [lia|].
  destruct (p x) eqn:Ep.
  - rewrite (H x Ep). simpl. lia.
  - destruct (q x); simpl; lia.
Qed.

Section AlertCounts.
Variable format_1f : Q -> string.

(** X12. There is no alert exactly when every row is within all four
    thresholds.  A row gives at most four alerts, and at most three when
    the low temperature threshold does not exceed the high one, since a
    temperature is then never both too high and too low. *)
Theorem generate_alerts_count :
  forall (self : WeatherDataProcessor) (df : DataFrame),
    let cfg := alert_config self in
    (generate_alerts format_1f self df = [] <->
     forall r, In r (rows df) ->
       (temperature_low_threshold cfg <= temperature_2m r
        <= temperature_high_threshold cfg)%Q /\
       (wind_speed_10m r <= wind_speed_high_threshold cfg)%Q /\
       (precipitation r <= precipitation_high_threshold cfg)%Q) /\
    (List.length (generate_alerts format_1f self df) <= 4 * List.length (rows df))%nat /\
    ((temperature_low_threshold cfg <= temperature_high_threshold cfg)%Q ->
     (List.length (generate_alerts format_1f self df) <= 3 * List.length (rows df))%nat).
Proof.
  intros self df cfg. rewrite generate_alerts_groups. fold cfg.
  set (hi := fun r => Qgtb (temperature_2m r) (temperature_high_threshold cfg)).
  set (lo := fun r => Qltb (temperature_2m r) (temperature_low_threshold cfg)).
  set (wi := fun r => Qgtb (wind_speed_10m r) (wind_speed_high_threshold cfg)).
  set (pr := fun r => Qgtb (precipitation r) (precipitation_high_threshold cfg)).
  split; [|split].
  - split.
    + intros H r Hr.
      apply app_eq_nil in H. destruct H as [H1 H].
      apply app_eq_nil in H. destruct H as [H2 H].
      apply app_eq_nil in H. destruct H as [H3 H4].
      apply map_eq_nil in H1, H2, H3, H4.
      pose proof (proj1 (filter_nil_iff hi _) H1 r Hr) as E1.
      pose proof (proj1 (filter_nil_iff lo _) H2 r Hr) as E2.
      pose proof (proj1 (filter_nil_iff wi _) H3 r Hr) as E3.
      pose proof (proj1 (filter_nil_iff pr _) H4 r Hr) as E4.
      apply Qgtb_le in E1, E3, E4. apply Qltb_ge in E2. auto.
    + intros H.
      assert (E : forall p : Observation -> bool,
                 (forall r, In r (rows df) -> p r = false) -> filter p (rows df) = []).
      { intros p Hp. now apply filter_nil_iff. }
      rewrite (E hi), (E lo), (E wi), (E pr); [reflexivity| | | |];
        intros r Hr; destruct (H r Hr) as ([Hlo Hhi] & Hw & Hp).
      * now apply Qgtb_le.
      * now apply Qgtb_le.
      * now apply Qltb_ge.
      * now apply Qgtb_le.
  - rewrite !length_app, !length_map.
    pose proof (filter_length_le hi (rows df)).
    pose proof (filter_length_le lo (rows df)).
    pose proof (filter_length_le wi (rows df)).
    pose proof (filter_length_le pr (rows df)). lia.
  - intros Hthr. rewrite !length_app, !length_map.
    assert (Hdis : forall r, hi r = true -> lo r = false).
    { intros r Hr. apply Qgtb_gt in Hr. apply Qltb_ge. lra. }
    pose proof (filter_disjoint_length hi lo (rows df) Hdis).
    pose proof (filter_length_le wi (rows df)).
    pose proof (filter_length_le pr (rows df)). lia.
Qed.
End AlertCounts.

(** ** The further theorems at concrete inputs *)

Lemma calculate_moving_averages_keeps_observations_witness :
  exists df' : DataFrame,
    calculate_moving_averages sample_processor two_city_table = Ok df' /\
    has_column df' "temp_ma" = true.
Proof.
  destruct (calculate_moving_averages sample_processor two_city_table) as [df'|e] eqn:E;
    [|vm_compute in E; discriminate].
  exists df'. split; [reflexivity|].
  apply (proj1 (proj2 (calculate_moving_averages_keeps_observations
                         sample_processor two_city_table df' E))).
  discriminate.
Defined.


Lemma detect_anomalies_needs_two_rows_witness :
  nth_error (rows (detect_anomalies approx_sqrt sample_processor one_region_table)) 0
    = Some (set_temp_anomaly curitiba_noon false).
Proof.
  apply (detect_anomalies_needs_two_rows approx_sqrt sample_processor one_region_table
           0%nat curitiba_noon eq_refl).
  simpl. lia.
Defined.

(** Four hours at 12 degrees and one at 40: the hot hour is an anomaly at a
    threshold of one deviation, so it is one at half a deviation too. *)
Definition gramado_table : DataFrame :=
  {| columns := [];
     rows := [ observe 0 "Gramado" 12; observe 60 "Gramado" 12;
               observe 120 "Gramado" 12; observe 180 "Gramado" 12;
               observe 240 "Gramado" 40 ] |}.

Definition processor_with_threshold (t : Q) : WeatherDataProcessor :=
  {| ma_window := 3; anomaly_threshold := t;
     alert_config := alert_config sample_processor |}.

Lemma detect_anomalies_monotone_in_threshold_witness :
  nth_error (rows (detect_anomalies approx_sqrt (processor_with_threshold (1 # 2))
                     gramado_table)) 4
    = Some (set_temp_anomaly (observe 240 "Gramado" 40) true).
Proof.
  apply (detect_anomalies_monotone_in_threshold approx_sqrt
           (processor_with_threshold (1 # 2)) (processor_with_threshold 1)
           gramado_table 4%nat (observe 240 "Gramado" 40)).
  - simpl. lra.
  - reflexivity.
  - vm_compute. reflexivity.
Defined.

(** * Part V: city rankings *)

(** ** Model *)

(** One row of the daily table. *)
Module Daily.
Record t : Type := mk {
  city : string;
  date : Z;
  temp_mean : Q;
  temp_min : Q;
  temp_max : Q;
  humidity_mean : Q;
  precipitation_total : Q;
  wind_max : Q;
  cloud_cover_mean : Q;
  latitude : Q;
  longitude : Q
}.
End Daily.

(** A stable insertion sort: the order of group keys. *)
Fixpoint insert_sorted {A : Type} (leb : A -> A -> bool) (x : A) (l : list A) : list A :=
match l with
| [] => [x]
| y :: l' => if leb x y then x :: l else y :: insert_sorted leb x l'
end.

Definition sort_by {A : Type} (leb : A -> A -> bool) (l : list A) : list A :=
fold_right (insert_sorted leb) [] l.

(** The last element of a list, if any. *)
Fixpoint last_row {A : Type} (l : list A) : option A :=
match l with
| [] => None
| [x] => Some x
| _ :: l' => last_row l'
end.

(** [daily_df.groupby('city').last().reset_index()]: for each city, in
    ascending order of the name, its last row. *)
Definition groupby_city_last (daily_df : list Daily.t) : list Daily.t :=
flat_map
  (fun c =>
     match last_row (filter (fun r => String.eqb (Daily.city r) c) daily_df) with
     | Some r => [r]
     | None => []
     end)
  (sort_by String.leb (unique String.eqb (map Daily.city daily_df))).

Section Rankings.
(** The order in which [nlargest] and [nsmallest] consider the rows:
    descending, respectively ascending, in the column; how rows with equal
    values are ordered is left to the library. *)
Variable descending : (Daily.t -> Q) -> list Daily.t -> list Daily.t.
Variable ascending : (Daily.t -> Q) -> list Daily.t -> list Daily.t.

(** [df.nlargest(n, col)[['city', col]].reset_index(drop=True)] *)
Definition nlargest (n : nat) (col : Daily.t -> Q) (df : list Daily.t)
  : list (string * Q) :=
map (fun r => (Daily.city r, col r)) (firstn n (descending col df)).

Definition nsmallest (n : nat) (col : Daily.t -> Q) (df : list Daily.t)
  : list (string * Q) :=
map (fun r => (Daily.city r, col r)) (firstn n (ascending col df)).

Definition get_city_rankings (daily_df : list Daily.t)
  : dict string (list (string * Q)) :=
match daily_df with
| [] => []
| _ :: _ =>
    let latest := groupby_city_last daily_df in
    let rankings :=
      [ ("hottest", nlargest 10 Daily.temp_max latest);
        ("coldest", nsmallest 10 Daily.temp_min latest);
        ("rainiest", nlargest 10 Daily.precipitation_total latest);
        ("windiest", nlargest 10 Daily.wind_max latest);
        ("most_humid", nlargest 10 Daily.humidity_mean latest) ] in
    rankings
end.
End Rankings.

(** ** Properties *)

Section SortBy.
Context {A : Type}.
Variable leb : A -> A -> bool.
Hypothesis leb_total : forall x y, leb x y = false -> leb y x = true.

Lemma insert_sorted_perm (x : A) (l : list A) :
  Permutation (insert_sorted leb x l) (x :: l).
Proof.
  induction l as [|y l IH]; simpl; [reflexivity|].
  destruct (leb x y); [reflexivity|]. rewrite IH. apply perm_swap.
Qed.

Lemma sort_by_perm (l : list A) : Permutation (sort_by leb l) l.
Proof.
  induction l as [|x l IH]; simpl; [reflexivity|].
  rewrite insert_sorted_perm. now constructor.
Qed.

Lemma insert_sorted_hd (x y : A) (l : list A) :
  leb y x = true -> HdRel (fun a b => leb a b = true) y l ->
  HdRel (fun a b => leb a b = true) y (insert_sorted leb x l).
Proof.
  intros Hy Hl. destruct l as [|z l]; simpl; [now constructor|].
  destruct (leb x z); constructor; [exact Hy|now inversion Hl].
Qed.

Lemma sort_by_sorted (l : list A) : Sorted (fun a b => leb a b = true) (sort_by leb l).
Proof.
  induction l as [|x l IH]; simpl; [constructor|].
  induction IH as [|y l' Hs IH' Hhd]; simpl; [repeat constructor|].
  destruct (leb x y) eqn:E.
  - constructor; [now constructor|now constructor].
  - constructor; [exact IH'|]. apply insert_sorted_hd; [now apply leb_total|exact Hhd].
Qed.
End SortBy.

Lemma last_row_In {A : Type} (l : list A) (x : A) : last_row l = Some x -> In x l.
Proof.
  induction l as [|y l IH]; simpl; [discriminate|].
  destruct l as [|z l]; [intros [= ->]; now left|]. intros H. right. now apply IH.
Qed.

Lemma last_row_some {A : Type} (l : list A) : l <> [] -> exists x, last_row l = Some x.
Proof.
  induction l as [|y l IH]; [congruence|]. intros _.
  destruct l as [|z l]; [now exists y|]. apply IH. discriminate.
Qed.

(** The latest row of a city in the daily table. *)
Definition latest_of (daily_df : list Daily.t) (c : string) : option Daily.t :=
  last_row (filter (fun r => String.eqb (Daily.city r) c) daily_df).

Lemma latest_of_city (daily_df : list Daily.t) (c : string) (r : Daily.t) :
  latest_of daily_df c = Some r -> In r daily_df /\ Daily.city r = c.
Proof.
  intros H. apply last_row_In, filter_In in H. destruct H as [Hin Hc].
  split; [exact Hin|now apply String.eqb_eq].
Qed.

Lemma latest_of_listed (daily_df : list Daily.t) (c : string) :
  In c (map Daily.city daily_df) -> exists r, latest_of daily_df c = Some r.
Proof.
  intros H. apply last_row_some. apply in_map_iff in H.
  destruct H as (r & Hc & Hin). intros E.
  assert (Hf : In r (filter (fun r => String.eqb (Daily.city r) c) daily_df)).
  { apply filter_In. split; [exact Hin|]. now apply String.eqb_eq. }
  rewrite E in Hf. contradiction.
Qed.

Lemma flat_map_latest (daily_df : list Daily.t) (cs : list string) :
  (forall c, In c cs -> In c (map Daily.city daily_df)) ->
  map Daily.city
    (flat_map (fun c => match latest_of daily_df c with Some r => [r] | None => [] end) cs)
  = cs.
Proof.
  induction cs as [|c cs IH]; intros H; simpl; [reflexivity|].
  destruct (latest_of_listed daily_df c (H c (or_introl eq_refl))) as [r Hr].
  rewrite Hr. simpl. rewrite (proj2 (latest_of_city _ _ _ Hr)).
  f_equal. apply IH. intros c' Hc'. apply H. now right.
Qed.

Lemma groupby_city_last_cities (daily_df : list Daily.t) :
  map Daily.city (groupby_city_last daily_df)
  = sort_by String.leb (unique String.eqb (map Daily.city daily_df)).
Proof.
  apply flat_map_latest. intros c Hc.
  apply (Permutation_in _ (sort_by_perm String.leb _)) in Hc.
  exact (proj1 (unique_In String.eqb String.eqb_eq _ c) Hc).
Qed.

Lemma groupby_city_last_In (daily_df : list Daily.t) (r : Daily.t) :
  In r (groupby_city_last daily_df) <-> latest_of daily_df (Daily.city r) = Some r.
Proof.
  unfold groupby_city_last. rewrite in_flat_map. split.
  - intros (c & Hc & Hr). fold (latest_of daily_df c) in Hr.
    destruct (latest_of daily_df c) as [r0|] eqn:E; [|contradiction].
    destruct Hr as [->|[]]. now rewrite (proj2 (latest_of_city _ _ _ E)).
  - intros H. exists (Daily.city r). split.
    + apply (Permutation_in _ (Permutation_sym (sort_by_perm String.leb _))).
      apply (unique_In String.eqb String.eqb_eq).
      apply in_map. apply (latest_of_city _ _ _ H).
    + fold (latest_of daily_df (Daily.city r)). rewrite H. now left.
Qed.

Lemma groupby_city_last_NoDup (daily_df : list Daily.t) :
  NoDup (map Daily.city (groupby_city_last daily_df)).
Proof.
  rewrite groupby_city_last_cities.
  apply (Permutation_NoDup (Permutation_sym (sort_by_perm String.leb _))).
  apply (unique_NoDup String.eqb String.eqb_eq).
Qed.

Lemma groupby_city_last_length (daily_df : list Daily.t) :
  List.length (groupby_city_last daily_df)
  = List.length (unique String.eqb (map Daily.city daily_df)).
Proof.
  rewrite <- (length_map Daily.city), groupby_city_last_cities.
  apply Permutation_length, sort_by_perm.
Qed.

Lemma Sorted_firstn {A : Type} (R : A -> A -> Prop) (n : nat) (l : list A) :
  Sorted R l -> Sorted R (firstn n l).
Proof.
  revert l. induction n as [|n IH]; intros l H; [constructor|].
  destruct l as [|x l]; [constructor|]. simpl.
  inversion H as [|? ? Hs Hhd]; subst. constructor; [now apply IH|].
  destruct l as [|y l]; [destruct n; constructor|].
  inversion Hhd; subst. destruct n; simpl; constructor. assumption.
Qed.

Lemma Sorted_map {A B : Type} (R : A -> A -> Prop) (R' : B -> B -> Prop) (f : A -> B)
    (l : list A) :
  (forall a b, R a b -> R' (f a) (f b)) -> Sorted R l -> Sorted R' (map f l).
Proof.
  intros H. induction 1 as [|x l Hs IH Hhd]; simpl; constructor; [exact IH|].
  destruct Hhd; simpl; constructor. now apply H.
Qed.

Lemma StronglySorted_app {A : Type} (R : A -> A -> Prop) (l1 l2 : list A) :
  StronglySorted R (l1 ++ l2) -> forall a b, In a l1 -> In b l2 -> R a b.
Proof.
  induction l1 as [|x l1 IH]; simpl; intros H a b Ha Hb; [contradiction|].
  inversion H as [|? ? Hs Hall]; subst. destruct Ha as [->|Ha].
  - rewrite Forall_forall in Hall. apply Hall. apply in_or_app. now right.
  - now apply IH.
Qed.

(** [entries] is the ranking of the table by [col]: the ten cities, or all
    of them when there are fewer, whose latest row is best in [col]; best
    first; each city once, with the value of its latest row; and no city
    left out is better than a city listed. *)
Definition is_ranking (better : Q -> Q -> Prop) (col : Daily.t -> Q)
    (daily_df : list Daily.t) (entries : list (string * Q)) : Prop :=
  List.length entries
    = Nat.min 10 (List.length (unique String.eqb (map Daily.city daily_df))) /\
  NoDup (map fst entries) /\
  Sorted (fun a b => better (snd a) (snd b)) entries /\
  (forall c v, In (c, v) entries ->
     exists r, latest_of daily_df c = Some r /\ v = col r) /\
  (forall c r, latest_of daily_df c = Some r -> ~ In c (map fst entries) ->
     forall e, In e entries -> better (snd e) (col r)).

Lemma ranking_of_order (better : Q -> Q -> Prop) (col : Daily.t -> Q)
    (order : list Daily.t -> list Daily.t) (daily_df : list Daily.t) :
  (forall x y z, better x y -> better y z -> better x z) ->
  Permutation (order (groupby_city_last daily_df)) (groupby_city_last daily_df) ->
  Sorted (fun a b => better (col a) (col b)) (order (groupby_city_last daily_df)) ->
  is_ranking better col daily_df
    (map (fun r => (Daily.city r, col r))
         (firstn 10 (order (groupby_city_last daily_df)))).
Proof.
  intros Htrans Hperm Hsorted.
  set (L := order (groupby_city_last daily_df)) in *.
  assert (HL : forall r, In r L <-> latest_of daily_df (Daily.city r) = Some r).
  { intros r. rewrite <- groupby_city_last_In. split; apply Permutation_in;
      [exact Hperm|now apply Permutation_sym]. }
  assert (Hnd : NoDup (map Daily.city L)).
  { apply (Permutation_NoDup (Permutation_map Daily.city (Permutation_sym Hperm))).
    apply groupby_city_last_NoDup. }
  assert (Hsplit : L = firstn 10 L ++ skipn 10 L) by (symmetry; apply firstn_skipn).
  unfold is_ranking. split; [|split; [|split; [|split]]].
  - rewrite length_map, length_firstn.
    now rewrite (Permutation_length Hperm), groupby_city_last_length.
  - rewrite map_map. cbn [fst].
    rewrite Hsplit, map_app in Hnd. now apply NoDup_app_remove_r in Hnd.
  - apply (Sorted_map (fun a b => better (col a) (col b))); [auto|].
    now apply Sorted_firstn.
  - intros c v Hin. apply in_map_iff in Hin. destruct Hin as (r & [= <- <-] & Hr).
    exists r. split; [|reflexivity]. apply HL. now apply In_firstn in Hr.
  - intros c r Hr Hout e He.
    apply in_map_iff in He. destruct He as (r0 & <- & Hr0). cbn [snd].
    assert (Hin : In r L).
    { apply HL. now rewrite (proj2 (latest_of_city _ _ _ Hr)). }
    rewrite Hsplit in Hin. apply in_app_or in Hin. destruct Hin as [Hin|Hin].
    + exfalso. apply Hout. rewrite map_map. cbn [fst].
      rewrite <- (proj2 (latest_of_city _ _ _ Hr)). now apply in_map.
    + assert (Hss : StronglySorted (fun a b => better (col a) (col b)) L).
      { apply Sorted_StronglySorted; [|exact Hsorted].
        intros x y z Hxy Hyz. eapply Htrans; eauto. }
      rewrite Hsplit in Hss. apply (StronglySorted_app _ _ _ Hss r0 r Hr0 Hin).
Qed.

Section RankingProperties.
Variable descending : (Daily.t -> Q) -> list Daily.t -> list Daily.t.
Variable ascending : (Daily.t -> Q) -> list Daily.t -> list Daily.t.

(** X13. [get_city_rankings] returns no ranking for a table without rows.
    Otherwise it returns five rankings, each over the latest row of every
    city: hottest by [temp_max], rainiest, windiest and most humid in
    descending order, coldest by [temp_min] in ascending order.  Each holds
    at most ten cities, every city once, best first, and no city left out
    beats a listed one.  (Of the library's ordering it is assumed that it
    permutes the rows and sorts them by the column.) *)
Theorem get_city_rankings_top_ten :
  (forall col l, Permutation (descending col l) l) ->
  (forall col l, Sorted (fun a b => (col b <= col a)%Q) (descending col l)) ->
  (forall col l, Permutation (ascending col l) l) ->
  (forall col l, Sorted (fun a b => (col a <= col b)%Q) (ascending col l)) ->
  forall daily_df : list Daily.t,
    (daily_df = [] -> get_city_rankings descending ascending daily_df = []) /\
    (daily_df <> [] ->
     exists hottest coldest rainiest windiest most_humid,
       get_city_rankings descending ascending daily_df
         = [ ("hottest", hottest); ("coldest", coldest); ("rainiest", rainiest);
             ("windiest", windiest); ("most_humid", most_humid) ] /\
       is_ranking (fun x y => (y <= x)%Q) Daily.temp_max daily_df hottest /\
       is_ranking (fun x y => (x <= y)%Q) Daily.temp_min daily_df coldest /\
       is_ranking (fun x y => (y <= x)%Q) Daily.precipitation_total daily_df rainiest /\
       is_ranking (fun x y => (y <= x)%Q) Daily.wind_max daily_df windiest /\
       is_ranking (fun x y => (y <= x)%Q) Daily.humidity_mean daily_df most_humid).
Proof.
  intros Hdp Hds Hap Has daily_df. split.
  - intros ->. reflexivity.
  - intros Hne. destruct daily_df as [|x l]; [congruence|].
    eexists _, _, _, _, _. split; [reflexivity|].
    assert (Hge : forall a b c : Q, (b <= a)%Q -> (c <= b)%Q -> (c <= a)%Q).
    { intros a b c H1 H2. now apply Qle_trans with b. }
    assert (Hle : forall a b c : Q, (a <= b)%Q -> (b <= c)%Q -> (a <= c)%Q).
    { intros a b c. apply Qle_trans. }
    repeat split;
      first [ apply (ranking_of_order (fun x y => (y <= x)%Q) _ (descending _));
              [exact Hge|apply Hdp|apply Hds]
            | apply (ranking_of_order (fun x y => (x <= y)%Q) _ (ascending _));
              [exact Hle|apply Hap|apply Has] ].
Qed.
End RankingProperties.

(** A stable ordering that fits what is assumed of the library's. *)
Definition descending_stable (col : Daily.t -> Q) (l : list Daily.t) : list Daily.t :=
  sort_by (fun a b => Qle_bool (col b) (col a)) l.

Definition ascending_stable (col : Daily.t -> Q) (l : list Daily.t) : list Daily.t :=
  sort_by (fun a b => Qle_bool (col a) (col b)) l.

Lemma Qle_bool_total (x y : Q) : Qle_bool x y = false -> Qle_bool y x = true.
Proof.
  intros H. apply Qle_bool_iff.
  destruct (Qlt_le_dec y x) as [Hlt|Hle]; [now apply Qlt_le_weak|].
  apply Qle_bool_iff in Hle. congruence.
Qed.

Lemma Sorted_impl {A : Type} (R R' : A -> A -> Prop) (l : list A) :
  (forall a b, R a b -> R' a b) -> Sorted R l -> Sorted R' l.
Proof.
  intros H Hs. rewrite <- (map_id l). now apply (Sorted_map R R' (fun x => x)).
Qed.

Lemma descending_stable_sorted col l :
  Sorted (fun a b => (col b <= col a)%Q) (descending_stable col l).
Proof.
  apply (Sorted_impl (fun a b => Qle_bool (col b) (col a) = true)).
  - intros a b. apply Qle_bool_iff.
  - apply sort_by_sorted. intros x y. apply Qle_bool_total.
Qed.

Lemma ascending_stable_sorted col l :
  Sorted (fun a b => (col a <= col b)%Q) (ascending_stable col l).
Proof.
  apply (Sorted_impl (fun a b => Qle_bool (col a) (col b) = true)).
  - intros a b. apply Qle_bool_iff.
  - apply sort_by_sorted. intros x y. apply Qle_bool_total.
Qed.

Definition daily (c : string) (d : Z) (lo hi : Q) : Daily.t :=
  {| Daily.city := c; Daily.date := d; Daily.temp_mean := (lo + hi) / 2;
     Daily.temp_min := lo; Daily.temp_max := hi; Daily.humidity_mean := 60;
     Daily.precipitation_total := 0; Daily.wind_max := 10;
     Daily.cloud_cover_mean := 30; Daily.latitude := 0; Daily.longitude := 0 |}.

Definition three_day_table : list Daily.t :=
  [ daily "Manaus" 1 24 33; daily "Gramado" 1 8 19;
    daily "Manaus" 2 25 31; daily "Gramado" 2 9 21 ].

Lemma get_city_rankings_top_ten_witness :
  exists hottest : list (string * Q),
    dict_get String.eqb
      (get_city_rankings descending_stable ascending_stable three_day_table) "hottest"
      = Some hottest /\
    is_ranking (fun x y => (y <= x)%Q) Daily.temp_max three_day_table hottest.
Proof.
  destruct (proj2 (get_city_rankings_top_ten descending_stable ascending_stable
                     (fun col l => sort_by_perm _ l) descending_stable_sorted
                     (fun col l => sort_by_perm _ l) ascending_stable_sorted
                     three_day_table)
                  ltac:(discriminate))
    as (hottest & coldest & rainiest & windiest & most_humid & Heq & Hhot & _).
  exists hottest. split; [|exact Hhot]. rewrite Heq. reflexivity.
Defined.

Example rankings_of_three_days :
  get_city_rankings descending_stable ascending_stable three_day_table
  = [ ("hottest", [("Manaus", 31%Q); ("Gramado", 21%Q)]);
      ("coldest", [("Gramado", 9%Q); ("Manaus", 25%Q)]);
      ("rainiest", [("Gramado", 0%Q); ("Manaus", 0%Q)]);
      ("windiest", [("Gramado", 10%Q); ("Manaus", 10%Q)]);
      ("most_humid", [("Gramado", 60%Q); ("Manaus", 60%Q)]) ].
Proof. vm_compute. reflexivity. Qed.

(** * Part VI: further properties of the normalizer and the aggregator *)

Lemma index_of_In (name : string) (cols : list string) :
  (exists i, Frame.index_of name cols = Some i) <-> In name cols.
Proof.
  induction cols as [|c cols IH]; simpl.
  - split; [intros [i H]; discriminate|tauto].
  - destruct (String.eqb_spec c name) as [->|Hne].
    + split; [auto|eauto].
    + rewrite <- IH. split.
      * intros [i H]. destruct (Frame.index_of name cols); [eauto|discriminate].
      * intros [Heq|[i H]]; [congruence|]. rewrite H. simpl. eauto.
Qed.

Lemma has_column_In (df : Frame.DataFrame) (name : string) :
  Frame.has_column df name = true <-> In name (Frame.columns df).
Proof.
  unfold Frame.has_column. rewrite <- index_of_In.
  destruct (Frame.index_of name (Frame.columns df)); split; eauto;
    try discriminate. intros [i H]. discriminate.
Qed.



Section NormalizerFurther.
Variable parse_datetime : string -> option Z.

(** X14. [raw_to_dataframe] is all or nothing: when the payloads before
    [p] are accepted and [p] is not, the whole call raises the exception of
    [p], whatever follows [p]. *)
Theorem raw_to_dataframe_first_failure :
  forall (pre post : list Frame.CityData) (p : Frame.CityData) (e : exn),
    Forall (fun q => exists df, Frame.city_frame parse_datetime q = Ok df) pre ->
    Frame.city_frame parse_datetime p = Err e ->
    Frame.raw_to_dataframe parse_datetime (pre ++ p :: post) = Err e.
Proof.
  intros pre post p e Hpre He.
  destruct (collect_rejects parse_datetime pre post p e He (Ok [])) as (e' & He' & Hsame).
  rewrite raw_to_dataframe_collect, He'.
  now rewrite (Hsame (collect_accepted parse_datetime pre Hpre [])).
Qed.

End NormalizerFurther.

(** ** Daily aggregator *)

Definition daily_columns : list string :=
  [ "city"; "date"; "temp_mean"; "temp_min"; "temp_max";
    "humidity_mean"; "precipitation_total"; "wind_max";
    "cloud_cover_mean"; "latitude"; "longitude" ].

Lemma sequence_ok_length {A : Type} (l : list (result A)) (xs : list A) :
  Frame.sequence l = Ok xs -> List.length xs = List.length l.
Proof.
  revert xs. induction l as [|r l IH]; intros xs H; simpl in H.
  - now injection H as <-.
  - destruct r as [x|]; [|discriminate]. cbn [bind] in H.
    destruct (Frame.sequence l) as [xs'|]; [|discriminate]. cbn [bind] in H.
    injection H as <-. simpl. f_equal. now apply IH.
Qed.

Lemma sequence_ok_all {A : Type} (l : list (result A)) (xs : list A) :
  Frame.sequence l = Ok xs -> forall r, In r l -> exists x, r = Ok x.
Proof.
  revert xs. induction l as [|r0 l IH]; intros xs H r Hr; simpl in H; [contradiction|].
  destruct r0 as [x|]; [|discriminate]. cbn [bind] in H.
  destruct (Frame.sequence l) as [xs'|] eqn:E; [|discriminate].
  destruct Hr as [<-|Hr]; [eauto|]. eapply IH; eauto.
Qed.

Lemma get_column_ok (df : Frame.DataFrame) (name : string) (col : list Frame.cell) :
  Frame.get_column df name = Ok col -> Frame.has_column df name = true.
Proof.
  unfold Frame.get_column, Frame.has_column.
  destruct (Frame.index_of name (Frame.columns df)); [reflexivity|discriminate].
Qed.

Lemma insert_key_length (k : list Frame.cell) (l : list (list Frame.cell)) :
  List.length (Frame.insert_key k l) = S (List.length l).
Proof.
  induction l as [|x l IH]; simpl; [reflexivity|].
  destruct (Frame.key_leb k x); simpl; [reflexivity|now rewrite IH].
Qed.

Lemma sort_keys_length (l : list (list Frame.cell)) :
  List.length (Frame.sort_keys l) = List.length l.
Proof.
  induction l as [|x l IH]; simpl; [reflexivity|].
  now rewrite insert_key_length, IH.
Qed.

Lemma groupby_agg_rows_le (df out : Frame.DataFrame) (group_cols : list string)
    (agg_dict : dict string (list Frame.aggfunc)) :
  Frame.groupby_agg df group_cols agg_dict = Ok out ->
  (List.length (Frame.rows out) <= List.length (Frame.rows df))%nat.
Proof.
  unfold Frame.groupby_agg.
  destruct (Frame.sequence (map (Frame.get_column df) group_cols)); [|discriminate].
  cbn [bind].
  destruct (Frame.sequence (map (fun kv => Frame.get_column df (fst kv)) agg_dict));
    [|discriminate].
  cbn [bind].
  destruct (Frame.sequence _) as [out_rows|] eqn:E; [|discriminate].
  cbn [bind]. intros [= <-]. cbn [Frame.rows].
  rewrite (sequence_ok_length _ _ E), length_map, sort_keys_length.
  etransitivity; [apply unique_length_le|].
  rewrite length_map. apply filter_length_le.
Qed.

Lemma set_column_rows_le (df : Frame.DataFrame) (name : string) (values : list Frame.cell) :
  (List.length (Frame.rows (Frame.set_column df name values))
   <= List.length (Frame.rows df))%nat.
Proof.
  unfold Frame.set_column.
  destruct (Frame.index_of name (Frame.columns df)); cbn [Frame.rows];
    rewrite length_map, length_combine; lia.
Qed.

(** X16. Whenever [aggregate_daily_stats] returns a table, that table has
    exactly the eleven daily columns, at most as many rows as the input,
    and the input had a time and a city column and neither a state nor a
    region column. *)
Theorem aggregate_daily_stats_output_shape :
  forall df out : Frame.DataFrame,
    Frame.aggregate_daily_stats df = Ok out ->
    Frame.columns out = daily_columns /\
    (List.length (Frame.rows out) <= List.length (Frame.rows df))%nat /\
    Frame.has_column df "time" = true /\
    Frame.has_column df "city" = true /\
    Frame.has_column df "state" = false /\
    Frame.has_column df "region" = false.
Proof.
  intros df out H.
  assert (Hstate : Frame.has_column df "state" = false).
  { destruct (Frame.has_column df "state") eqn:E; [|reflexivity].
    exfalso. apply (aggregate_daily_stats_regional_columns df (or_introl E) out H). }
  assert (Hregion : Frame.has_column df "region" = false).
  { destruct (Frame.has_column df "region") eqn:E; [|reflexivity].
    exfalso. apply (aggregate_daily_stats_regional_columns df (or_intror E) out H). }
  unfold Frame.aggregate_daily_stats in H.
  destruct (Frame.get_column df "time") as [time|] eqn:Et; [|discriminate].
  cbn [bind] in H.
  destruct (Frame.dt_date time) as [date|]; [|discriminate]. cbn [bind] in H.
  rewrite !has_column_set_column in H by discriminate.
  rewrite Hstate, Hregion in H.
  destruct (Frame.groupby_agg _ _ _) as [daily|] eqn:Eg; [|discriminate].
  cbn [bind] in H.
  destruct (Frame.set_columns daily _) as [renamed|] eqn:Es; [|discriminate].
  cbn [bind] in H. injection H as <-.
  split; [|split; [|split; [|split; [|split]]]]; auto.
  - unfold Frame.set_columns in Es.
    destruct (_ =? _)%nat; [|discriminate]. now injection Es as <-.
  - unfold Frame.set_columns in Es.
    destruct (_ =? _)%nat; [|discriminate]. injection Es as <-. cbn [Frame.rows].
    etransitivity; [apply (groupby_agg_rows_le _ _ _ _ Eg)|apply set_column_rows_le].
  - now apply get_column_ok in Et.
  - unfold Frame.groupby_agg in Eg.
    destruct (Frame.sequence (map (Frame.get_column _) ["city"; "date"])) eqn:E1;
      [|discriminate].
    destruct (sequence_ok_all _ _ E1 (Frame.get_column (Frame.set_column df "date" date) "city")
                ltac:(now left)) as [col Hcol].
    apply get_column_ok in Hcol.
    now rewrite has_column_set_column in Hcol by discriminate.
Qed.

(** The columns [aggregate_daily_stats] reads. *)
Definition required_columns : list string :=
  [ "time"; "city"; "temperature_2m"; "relative_humidity_2m"; "precipitation";
    "wind_speed_10m"; "cloud_cover"; "latitude"; "longitude" ].

Lemma get_column_err (df : Frame.DataFrame) (name : string) (e : exn) :
  Frame.get_column df name = Err e -> e = KeyError name.
Proof.
  unfold Frame.get_column.
  destruct (Frame.index_of name (Frame.columns df)); [discriminate|congruence].
Qed.

Lemma sequence_err {A : Type} (l : list (result A)) (e : exn) :
  Frame.sequence l = Err e -> In (Err e) l.
Proof.
  induction l as [|r l IH]; simpl; [discriminate|].
  destruct r as [x|e0]; cbn [bind].
  - destruct (Frame.sequence l) as [xs|e1]; cbn [bind]; [discriminate|].
    intros [= <-]. right. now apply IH.
  - intros [= <-]. now left.
Qed.

Lemma sequence_get_column_err (df : Frame.DataFrame) (names : list string) (e : exn) :
  Frame.sequence (map (Frame.get_column df) names) = Err e -> exn_name e = "KeyError".
Proof.
  intros H. apply sequence_err, in_map_iff in H.
  destruct H as (name & H & _). apply get_column_err in H. now subst.
Qed.

Lemma dt_date_err (s : list Frame.cell) (e : exn) :
  Frame.dt_date s = Err e -> exn_name e = "AttributeError".
Proof.
  unfold Frame.dt_date. intros H. apply sequence_err, in_map_iff in H.
  destruct H as (c & H & _). destruct c; try discriminate; now injection H as <-.
Qed.

(** X17. A frame that lacks one of the columns the aggregation reads is
    not aggregated: the call raises a KeyError, or an AttributeError when
    the time column it does have is not a column of timestamps. *)
Theorem aggregate_daily_stats_missing_column :
  forall (df : Frame.DataFrame) (name : string),
    In name required_columns ->
    Frame.has_column df name = false ->
    exists e : exn,
      Frame.aggregate_daily_stats df = Err e /\
      (exn_name e = "KeyError" \/ exn_name e = "AttributeError").
Proof.
  intros df name Hname Hmiss. unfold Frame.aggregate_daily_stats.
  destruct (Frame.get_column df "time") as [time|e] eqn:Et; cbn [bind];
    [|exists e; split; [reflexivity|left; apply get_column_err in Et; now subst]].
  destruct (Frame.dt_date time) as [date|e] eqn:Ed; cbn [bind];
    [|exists e; split; [reflexivity|right; now apply dt_date_err in Ed]].
  rewrite !has_column_set_column by discriminate.
  set (df' := Frame.set_column df "date" date).
  set (agg_dict :=
         (if Frame.has_column df "region"
          then (if Frame.has_column df "state" then _ else _) ++ [("region", [Frame.First])]
          else (if Frame.has_column df "state" then _ else _))).
  destruct (Frame.groupby_agg df' ["city"; "date"] agg_dict) as [daily|e] eqn:Eg;
    cbn [bind].
  - exfalso. unfold Frame.groupby_agg in Eg.
    destruct (Frame.sequence (map (Frame.get_column df') ["city"; "date"])) eqn:E1;
      [|discriminate].
    cbn [bind] in Eg.
    destruct (Frame.sequence (map (fun kv => Frame.get_column df' (fst kv)) agg_dict))
      eqn:E2; [|discriminate].
    assert (Hhas : forall n, n <> "date" ->
                   (exists col, Frame.get_column df' n = Ok col) ->
                   Frame.has_column df n = true).
    { intros n Hn [col Hcol]. apply get_column_ok in Hcol. unfold df' in Hcol.
      now rewrite has_column_set_column in Hcol by exact Hn. }
    assert (Hagg : forall n, In n (map fst agg_dict) -> n <> "date" ->
                   Frame.has_column df n = true).
    { intros n Hn Hnd. apply Hhas; [exact Hnd|].
      apply in_map_iff in Hn. destruct Hn as (kv & <- & Hkv).
      apply (sequence_ok_all _ _ E2).
      apply in_map_iff. exists kv. split; [reflexivity|exact Hkv]. }
    assert (Hbase : forall n,
              In n [ "temperature_2m"; "relative_humidity_2m"; "precipitation";
                     "wind_speed_10m"; "cloud_cover"; "latitude"; "longitude" ] ->
              In n (map fst agg_dict)).
    { intros n Hn. unfold agg_dict.
      destruct (Frame.has_column df "region"), (Frame.has_column df "state");
        rewrite ?map_app; repeat (apply in_or_app; left); exact Hn. }
    unfold required_columns in Hname. simpl in Hname.
    destruct Hname as [<-|[<-|Hname]].
    + apply get_column_ok in Et. congruence.
    + rewrite Hhas in Hmiss; [discriminate|discriminate|].
      apply (sequence_ok_all _ _ E1). now left.
    + rewrite Hagg in Hmiss; [discriminate|now apply Hbase|].
      simpl in Hname.
      destruct Hname as [<-|[<-|[<-|[<-|[<-|[<-|[<-|[]]]]]]]]; discriminate.
  - exists e. split; [reflexivity|]. left.
    unfold Frame.groupby_agg in Eg.
    destruct (Frame.sequence (map (Frame.get_column df') ["city"; "date"])) eqn:E1;
      [|injection Eg as <-; now apply sequence_get_column_err in E1].
    cbn [bind] in Eg.
    destruct (Frame.sequence (map (fun kv => Frame.get_column df' (fst kv)) agg_dict))
      eqn:E2.
    + exfalso. cbn [bind] in Eg.
      assert (Hhas : forall n, n <> "date" ->
                     (exists col, Frame.get_column df' n = Ok col) ->
                     Frame.has_column df n = true).
      { intros n Hn [col Hcol]. apply get_column_ok in Hcol. unfold df' in Hcol.
        now rewrite has_column_set_column in Hcol by exact Hn. }
      assert (Hagg : forall n, In n (map fst agg_dict) -> n <> "date" ->
                     Frame.has_column df n = true).
      { intros n Hn Hnd. apply Hhas; [exact Hnd|].
        apply in_map_iff in Hn. destruct Hn as (kv & <- & Hkv).
        apply (sequence_ok_all _ _ E2).
        apply in_map_iff. exists kv. split; [reflexivity|exact Hkv]. }
      assert (Hbase : forall n,
                In n [ "temperature_2m"; "relative_humidity_2m"; "precipitation";
                       "wind_speed_10m"; "cloud_cover"; "latitude"; "longitude" ] ->
                In n (map fst agg_dict)).
      { intros n Hn. unfold agg_dict.
        destruct (Frame.has_column df "region"), (Frame.has_column df "state");
          rewrite ?map_app; repeat (apply in_or_app; left); exact Hn. }
      unfold required_columns in Hname. simpl in Hname.
      destruct Hname as [<-|[<-|Hname]].
      * apply get_column_ok in Et. congruence.
      * rewrite Hhas in Hmiss; [discriminate|discriminate|].
        apply (sequence_ok_all _ _ E1). now left.
      * rewrite Hagg in Hmiss; [discriminate|now apply Hbase|].
        simpl in Hname.
        destruct Hname as [<-|[<-|[<-|[<-|[<-|[<-|[<-|[]]]]]]]]; discriminate.
    + cbn [bind] in Eg. injection Eg as <-.
      rewrite <- (map_map fst (Frame.get_column df')) in E2.
      now apply sequence_get_column_err in E2.
Qed.





Definition empty_observation_frame : Frame.DataFrame :=
  {| Frame.columns := required_columns ++ ["temp_ma"; "temp_anomaly"];
     Frame.rows := [] |}.


Lemma aggregate_daily_stats_missing_column_witness :
  exists e : exn,
    Frame.aggregate_daily_stats
      {| Frame.columns := ["time"; "city"; "temperature_2m"];
         Frame.rows := [[Frame.Timestamp 0; Frame.Str "Recife"; Frame.Num 28]] |}
      = Err e /\
    (exn_name e = "KeyError" \/ exn_name e = "AttributeError").
Proof.
  apply (aggregate_daily_stats_missing_column _ "cloud_cover").
  - unfold required_columns. simpl. tauto.
  - reflexivity.
Defined.

Lemma aggregate_daily_stats_output_shape_witness :
  exists out : Frame.DataFrame,
    Frame.aggregate_daily_stats empty_observation_frame = Ok out /\
    Frame.columns out = daily_columns.
Proof.
  exists {| Frame.columns := daily_columns; Frame.rows := [] |}.
  split; [reflexivity|].
  exact (proj1 (aggregate_daily_stats_output_shape empty_observation_frame _ eq_refl)).
Defined.

Lemma raw_to_dataframe_first_failure_witness :
  Frame.raw_to_dataframe sample_clock
    ([payload_one_hour] ++ payload_without_hourly :: [payload_ragged])
  = Err (KeyError "hourly").
Proof.
  apply raw_to_dataframe_first_failure.
  - constructor; [|constructor]. eexists. vm_compute. reflexivity.
  - reflexivity.
Defined.

(** ** Record normalizer: the rows it builds *)

(** Every row has one cell per column. *)
Definition well_formed (df : Frame.DataFrame) : Prop :=
  Forall (fun row => List.length row = List.length (Frame.columns df)) (Frame.rows df).

(** The number of hours of a payload: the length of its first array. *)
Definition hours (p : Frame.CityData) : nat :=
  match Frame.hourly p with
  | Some ((_, first) :: _) => List.length first
  | _ => 0%nat
  end.

Definition name_of (p : Frame.CityData) : string :=
  match Frame.city_name p with
  | Some n => n
  | None => EmptyString
  end.

Lemma index_of_nth (name : string) (cols : list string) (i : nat) :
  Frame.index_of name cols = Some i ->
  nth_error cols i = Some name /\ (i < List.length cols)%nat.
Proof.
  revert i. induction cols as [|c cols IH]; intros i H; simpl in H; [discriminate|].
  destruct (String.eqb_spec c name) as [->|Hne].
  - injection H as <-. simpl. split; [reflexivity|lia].
  - destruct (Frame.index_of name cols) as [j|]; [|discriminate].
    injection H as <-. destruct (IH j eq_refl). simpl. split; [assumption|lia].
Qed.

Lemma index_of_app_new (name : string) (cols : list string) :
  Frame.index_of name cols = None ->
  Frame.index_of name (cols ++ [name]) = Some (List.length cols).
Proof.
  induction cols as [|c cols IH]; simpl.
  - now rewrite String.eqb_refl.
  - destruct (String.eqb c name); [discriminate|].
    destruct (Frame.index_of name cols); [discriminate|].
    intros _. now rewrite IH.
Qed.

Lemma index_of_app_old (name other : string) (cols : list string) :
  name <> other ->
  Frame.index_of name (cols ++ [other]) = Frame.index_of name cols.
Proof.
  intros Hne. induction cols as [|c cols IH]; simpl.
  - destruct (String.eqb_spec other name); [congruence|reflexivity].
  - destruct (String.eqb c name); [reflexivity|now rewrite IH].
Qed.

Lemma nth_replace_nth_same (j : nat) (row : list Frame.cell) (v d : Frame.cell) :
  (j < List.length row)%nat -> nth j (Frame.replace_nth j row v) d = v.
Proof.
  revert j. induction row as [|x row IH]; intros [|j] H; simpl in *; try lia; auto.
  apply IH. lia.
Qed.

Lemma nth_replace_nth_other (i j : nat) (row : list Frame.cell) (v d : Frame.cell) :
  i <> j -> nth i (Frame.replace_nth j row v) d = nth i row d.
Proof.
  revert i j. induction row as [|x row IH]; intros [|i] [|j] H; simpl; auto; try lia.
Qed.

Lemma replace_nth_length (j : nat) (row : list Frame.cell) (v : Frame.cell) :
  List.length (Frame.replace_nth j row v) = List.length row.
Proof.
  revert j. induction row as [|x row IH]; intros [|j]; simpl; auto.
Qed.

Lemma map_fst_combine {A B : Type} (l : list A) (l' : list B) :
  List.length l = List.length l' -> map fst (combine l l') = l.
Proof.
  revert l'. induction l as [|x l IH]; intros [|y l'] H; simpl in *;
    try discriminate; [reflexivity|]. f_equal. apply IH. lia.
Qed.

Lemma map_combine_ext {A B C : Type} (f g : A * B -> C) (l : list A) (l' : list B)
    (P : A -> Prop) :
  Forall P l -> (forall a b, P a -> f (a, b) = g (a, b)) ->
  map f (combine l l') = map g (combine l l').
Proof.
  intros HP H. revert l'. induction HP as [|x l Hx _ IH]; intros [|y l']; simpl;
    try reflexivity. now rewrite (H x y Hx), IH.
Qed.

Section SetColumn.
Variable df : Frame.DataFrame.
Variable name : string.
Variable values : list Frame.cell.
Hypothesis df_well_formed : well_formed df.
Hypothesis values_length : List.length values = List.length (Frame.rows df).

Lemma set_column_well_formed : well_formed (Frame.set_column df name values).
Proof.
  unfold well_formed, Frame.set_column in *.
  destruct (Frame.index_of name (Frame.columns df)); cbn [Frame.rows Frame.columns];
    apply Forall_forall; intros row Hrow; apply in_map_iff in Hrow;
    destruct Hrow as ([r v] & <- & Hin); apply in_combine_l in Hin;
    rewrite Forall_forall in df_well_formed; cbn [fst snd].
  - rewrite replace_nth_length. now apply df_well_formed.
  - rewrite !length_app. simpl. f_equal. now apply df_well_formed.
Qed.

Lemma set_column_rows_length :
  List.length (Frame.rows (Frame.set_column df name values))
  = List.length (Frame.rows df).
Proof.
  unfold Frame.set_column.
  destruct (Frame.index_of name (Frame.columns df)); cbn [Frame.rows];
    rewrite length_map, length_combine; lia.
Qed.

Lemma get_column_set_column_same :
  Frame.get_column (Frame.set_column df name values) name = Ok values.
Proof.
  unfold Frame.get_column, Frame.set_column.
  destruct (Frame.index_of name (Frame.columns df)) as [j|] eqn:E;
    cbn [Frame.rows Frame.columns].
  - rewrite E. f_equal. rewrite map_map.
    rewrite <- (map_snd_combine (Frame.rows df) values) at 2 by (symmetry; exact values_length).
    apply (map_combine_ext _ _ _ _ _ df_well_formed).
    intros row v Hrow. cbn [fst snd]. apply nth_replace_nth_same.
    rewrite Hrow. apply (index_of_nth _ _ _ E).
  - rewrite (index_of_app_new _ _ E). f_equal. rewrite map_map.
    rewrite <- (map_snd_combine (Frame.rows df) values) at 2 by (symmetry; exact values_length).
    apply (map_combine_ext _ _ _ _ _ df_well_formed).
    intros row v Hrow. cbn [fst snd]. rewrite <- Hrow.
    rewrite app_nth2, Nat.sub_diag by lia. reflexivity.
Qed.

Lemma get_column_set_column_other (other : string) :
  other <> name ->
  Frame.get_column (Frame.set_column df name values) other = Frame.get_column df other.
Proof.
  intros Hne. unfold Frame.get_column, Frame.set_column.
  destruct (Frame.index_of name (Frame.columns df)) as [j|] eqn:E;
    cbn [Frame.rows Frame.columns].
  - destruct (Frame.index_of other (Frame.columns df)) as [i|] eqn:Ei; [|reflexivity].
    f_equal. rewrite map_map.
    rewrite <- (map_fst_combine (Frame.rows df) values) at 2 by (symmetry; exact values_length).
    rewrite map_map. apply map_ext. intros [row v]. cbn [fst snd].
    apply nth_replace_nth_other. intros ->.
    destruct (index_of_nth _ _ _ E) as [H1 _], (index_of_nth _ _ _ Ei) as [H2 _].
    congruence.
  - rewrite (index_of_app_old other name _ Hne).
    destruct (Frame.index_of other (Frame.columns df)) as [i|] eqn:Ei; [|reflexivity].
    f_equal. rewrite map_map.
    rewrite <- (map_fst_combine (Frame.rows df) values) at 2 by (symmetry; exact values_length).
    rewrite map_map.
    apply (map_combine_ext _ _ _ _ _ df_well_formed).
    intros row v Hrow. cbn [fst snd]. apply app_nth1.
    rewrite Hrow. apply (index_of_nth _ _ _ Ei).
Qed.
End SetColumn.

Lemma set_scalar_facts (df : Frame.DataFrame) (name : string) (v : Frame.cell) :
  well_formed df ->
  well_formed (Frame.set_scalar df name v) /\
  List.length (Frame.rows (Frame.set_scalar df name v)) = List.length (Frame.rows df) /\
  Frame.get_column (Frame.set_scalar df name v) name
    = Ok (repeat v (List.length (Frame.rows df))) /\
  (forall other, other <> name ->
     Frame.get_column (Frame.set_scalar df name v) other = Frame.get_column df other).
Proof.
  intros Hwf. unfold Frame.set_scalar.
  assert (Hlen : List.length (repeat v (List.length (Frame.rows df)))
                 = List.length (Frame.rows df)) by apply repeat_length.
  split; [now apply set_column_well_formed|].
  split; [now apply set_column_rows_length|].
  split; [now apply get_column_set_column_same|].
  intros other Hne. now apply get_column_set_column_other.
Qed.

Lemma from_dict_ok (d : dict string (list Frame.json)) (f : Frame.DataFrame) :
  Frame.from_dict d = Ok f ->
  well_formed f /\
  List.length (Frame.rows f)
  = match d with
    | [] => 0%nat
    | (_, first) :: _ => List.length first
    end.
Proof.
  unfold Frame.from_dict. destruct d as [|[k first] d'].
  - intros [= <-]. split; [constructor|reflexivity].
  - destruct (forallb _ _); [|discriminate]. intros [= <-]. split.
    + unfold well_formed. cbn [Frame.rows Frame.columns].
      apply Forall_forall. intros row Hrow. apply in_map_iff in Hrow.
      destruct Hrow as (i & <- & _). simpl. now rewrite !length_map.
    + cbn [Frame.rows]. now rewrite length_map, length_seq.
Qed.

Lemma get_column_length (df : Frame.DataFrame) (name : string) (col : list Frame.cell) :
  Frame.get_column df name = Ok col -> List.length col = List.length (Frame.rows df).
Proof.
  unfold Frame.get_column.
  destruct (Frame.index_of name (Frame.columns df)); [|discriminate].
  intros [= <-]. apply length_map.
Qed.

Section NormalizerRows.
Variable parse_datetime : string -> option Z.

Lemma city_frame_ok (p : Frame.CityData) (f : Frame.DataFrame) :
  Frame.city_frame parse_datetime p = Ok f ->
  well_formed f /\
  List.length (Frame.rows f) = hours p /\
  Frame.get_column f "city" = Ok (repeat (Frame.Str (name_of p)) (hours p)).
Proof.
  unfold Frame.city_frame, hours, name_of.
  destruct (Frame.city_name p) as [n|]; [|discriminate]. cbn [Frame.getitem bind].
  destruct (Frame.lat p) as [la|]; [|discriminate]. cbn [Frame.getitem bind].
  destruct (Frame.lon p) as [lo|]; [|discriminate]. cbn [Frame.getitem bind].
  destruct (Frame.hourly p) as [d|]; [|discriminate]. cbn [Frame.getitem bind].
  destruct (Frame.from_dict d) as [f0|] eqn:E0; [|discriminate]. cbn [bind].
  destruct (from_dict_ok d f0 E0) as [Hwf0 Hlen0].
  destruct (Frame.get_column f0 "time") as [time|] eqn:Et; [|discriminate]. cbn [bind].
  destruct (Frame.sequence (map (Frame.to_datetime parse_datetime) time)) as [time'|] eqn:Es;
    [|discriminate].
  cbn [bind].
  assert (Htime : List.length time' = List.length (Frame.rows f0)).
  { rewrite (sequence_ok_length _ _ Es), length_map. now apply get_column_length in Et. }
  set (f1 := Frame.set_column f0 "time" time').
  assert (Hwf1 : well_formed f1) by now apply set_column_well_formed.
  assert (Hlen1 : List.length (Frame.rows f1) = List.length (Frame.rows f0))
    by now apply set_column_rows_length.
  destruct (set_scalar_facts f1 "city" (Frame.Str n) Hwf1) as (Hwf2 & Hlen2 & Hcity2 & _).
  set (f2 := Frame.set_scalar f1 "city" (Frame.Str n)) in *.
  destruct (set_scalar_facts f2 "latitude" (Frame.Num la) Hwf2) as (Hwf3 & Hlen3 & _ & Hk3).
  set (f3 := Frame.set_scalar f2 "latitude" (Frame.Num la)) in *.
  destruct (set_scalar_facts f3 "longitude" (Frame.Num lo) Hwf3) as (Hwf4 & Hlen4 & _ & Hk4).
  set (f4 := Frame.set_scalar f3 "longitude" (Frame.Num lo)) in *.
  assert (H4 : well_formed f4 /\
               List.length (Frame.rows f4) = List.length (Frame.rows f0) /\
               Frame.get_column f4 "city"
                 = Ok (repeat (Frame.Str n) (List.length (Frame.rows f0)))).
  { split; [exact Hwf4|]. split; [congruence|].
    rewrite Hk4, Hk3, Hcity2 by discriminate. now rewrite Hlen1. }
  clearbody f4. clear - H4 Hlen0.
  assert (Hstep : forall (g : Frame.DataFrame) (nm : string) (v : Frame.cell),
             nm <> "city" ->
             (well_formed g /\
              List.length (Frame.rows g) = List.length (Frame.rows f0) /\
              Frame.get_column g "city"
                = Ok (repeat (Frame.Str n) (List.length (Frame.rows f0)))) ->
             well_formed (Frame.set_scalar g nm v) /\
             List.length (Frame.rows (Frame.set_scalar g nm v))
               = List.length (Frame.rows f0) /\
             Frame.get_column (Frame.set_scalar g nm v) "city"
               = Ok (repeat (Frame.Str n) (List.length (Frame.rows f0)))).
  { intros g nm v Hnm (Hwf & Hlen & Hcity).
    destruct (set_scalar_facts g nm v Hwf) as (Hwf' & Hlen' & _ & Hk).
    split; [exact Hwf'|]. split; [congruence|].
    rewrite Hk by (intros E; now apply Hnm). exact Hcity. }
  assert (H5 : let f5 := match Frame.state p with
                         | Some s => Frame.set_scalar f4 "state" (Frame.Str s)
                         | None => f4
                         end in
               well_formed f5 /\
               List.length (Frame.rows f5) = List.length (Frame.rows f0) /\
               Frame.get_column f5 "city"
                 = Ok (repeat (Frame.Str n) (List.length (Frame.rows f0)))).
  { destruct (Frame.state p); [apply Hstep; [discriminate|exact H4]|exact H4]. }
  cbv zeta in H5.
  intros [= <-].
  assert (Hhours : List.length (Frame.rows f0)
                   = match d with
                     | [] => 0%nat
                     | (_, first) :: _ => List.length first
                     end) by exact Hlen0.
  rewrite <- Hhours.
  destruct (Frame.region p); [apply Hstep; [discriminate|exact H5]|exact H5].
Qed.

Lemma collect_ok (raw : list Frame.CityData) :
  forall acc recs,
    collect parse_datetime raw (Ok acc) = Ok recs ->
    exists fs, recs = acc ++ fs /\
               Forall2 (fun p f => Frame.city_frame parse_datetime p = Ok f) raw fs.
Proof.
  induction raw as [|p raw IH]; intros acc recs H.
  - simpl in H. injection H as <-. exists []. split; [now rewrite app_nil_r|constructor].
  - unfold collect in H. simpl in H.
    destruct (Frame.city_frame parse_datetime p) as [f|e] eqn:Ef.
    + cbn [bind] in H. destruct (IH (acc ++ [f]) recs H) as (fs & -> & Hfs).
      exists (f :: fs). split; [now rewrite <- app_assoc|]. now constructor.
    + cbn [bind] in H. fold (collect parse_datetime raw (Err e)) in H.
      rewrite collect_err in H. discriminate.
Qed.
End NormalizerRows.

Lemma nth_map_at {A B : Type} (g : A -> B) (l : list A) (j : nat) (x : A) (d : B) :
  nth_error l j = Some x -> nth j (map g l) d = g x.
Proof.
  intros H. apply nth_error_nth. now apply map_nth_error.
Qed.

(** A column of a concatenation is the concatenation of the columns. *)
Lemma get_column_concat (fs : list Frame.DataFrame) (name : string) :
  fs <> [] ->
  (forall f, In f fs -> exists col, Frame.get_column f name = Ok col) ->
  Frame.get_column (Frame.concat fs) name
    = Ok (flat_map (fun f => match Frame.get_column f name with
                             | Ok col => col
                             | Err _ => []
                             end) fs).
Proof.
  intros Hne Hall. unfold Frame.get_column at 1, Frame.concat. cbn [Frame.columns Frame.rows].
  assert (Hin : In name (unique String.eqb (flat_map Frame.columns fs))).
  { apply (unique_In String.eqb String.eqb_eq). apply in_flat_map.
    destruct fs as [|f fs']; [congruence|]. exists f. split; [now left|].
    destruct (Hall f (or_introl eq_refl)) as [col Hcol].
    apply has_column_In. now apply get_column_ok in Hcol. }
  remember (unique String.eqb (flat_map Frame.columns fs)) as cols eqn:Ecols.
  clear Ecols.
  apply index_of_In in Hin. destruct Hin as [j Hj]. rewrite Hj. f_equal.
  destruct (index_of_nth _ _ _ Hj) as [Hnth _].
  clear Hne. induction fs as [|f fs IH]; simpl; [reflexivity|].
  rewrite map_app, IH by (intros f' Hf'; apply Hall; now right). f_equal.
  destruct (Hall f (or_introl eq_refl)) as [col Hcol]. rewrite Hcol.
  unfold Frame.get_column in Hcol.
  destruct (Frame.index_of name (Frame.columns f)) as [i|] eqn:Ei; [|discriminate].
  injection Hcol as <-. rewrite map_map. apply map_ext. intros row.
  unfold Frame.reindex_row. rewrite (nth_map_at _ _ _ _ _ Hnth). now rewrite Ei.
Qed.

Lemma Forall2_In_right {A B : Type} (R : A -> B -> Prop) (l : list A) (l' : list B)
    (y : B) :
  Forall2 R l l' -> In y l' -> exists x, In x l /\ R x y.
Proof.
  induction 1 as [|a b l l' Hab _ IH]; simpl; [contradiction|].
  intros [<-|Hy]; [eauto|]. destruct (IH Hy) as (x & Hx & HR). eauto.
Qed.

Section NormalizerOrder.
Variable parse_datetime : string -> option Z.

Lemma city_columns_of_frames (raw : list Frame.CityData) (fs : list Frame.DataFrame) :
  Forall2 (fun p f => Frame.city_frame parse_datetime p = Ok f) raw fs ->
  flat_map (fun f => match Frame.get_column f "city" with
                     | Ok col => col
                     | Err _ => []
                     end) fs
  = flat_map (fun p => repeat (Frame.Str (name_of p)) (hours p)) raw.
Proof.
  induction 1 as [|p f raw fs Hpf _ IH]; simpl; [reflexivity|].
  destruct (city_frame_ok parse_datetime p f Hpf) as (_ & _ & Hcity).
  now rewrite Hcity, IH.
Qed.

Lemma flat_map_repeat_length (raw : list Frame.CityData) :
  List.length (flat_map (fun p => repeat (Frame.Str (name_of p)) (hours p)) raw)
  = list_sum (map hours raw).
Proof.
  induction raw as [|p raw IH]; simpl; [reflexivity|].
  now rewrite length_app, repeat_length, IH.
Qed.

(** X19. When [raw_to_dataframe] returns a table, its rows are the hours of
    the payloads, payload after payload in input order: the city column
    reads the name of the first payload once per hour of that payload, then
    the name of the second, and so on, so the number of rows is the total
    number of hours.  For no payload at all the table is [pd.DataFrame()]. *)
Theorem raw_to_dataframe_rows_in_payload_order :
  forall (raw : list Frame.CityData) (df : Frame.DataFrame),
    Frame.raw_to_dataframe parse_datetime raw = Ok df ->
    List.length (Frame.rows df) = list_sum (map hours raw) /\
    (raw = [] -> df = Frame.empty_frame) /\
    (raw <> [] ->
     Frame.get_column df "city"
       = Ok (flat_map (fun p => repeat (Frame.Str (name_of p)) (hours p)) raw)).
Proof.
  intros raw df H. rewrite raw_to_dataframe_collect in H.
  destruct (collect parse_datetime raw (Ok [])) as [recs|] eqn:Ec; [|discriminate].
  cbn [bind] in H.
  destruct (collect_ok parse_datetime raw [] recs Ec) as (fs & -> & Hfs).
  simpl in H.
  destruct fs as [|f fs].
  - inversion Hfs; subst. injection H as <-. repeat split; congruence.
  - injection H as <-.
    assert (Hcol : Frame.get_column (Frame.concat (f :: fs)) "city"
                   = Ok (flat_map (fun p => repeat (Frame.Str (name_of p)) (hours p)) raw)).
    { rewrite get_column_concat; [|discriminate|].
      - now rewrite (city_columns_of_frames raw (f :: fs) Hfs).
      - intros f' Hf'.
        destruct (Forall2_In_right _ _ _ _ Hfs Hf') as (p & _ & Hp).
        destruct (city_frame_ok parse_datetime p f' Hp) as (_ & _ & Hcity). eauto. }
    split; [|split].
    + rewrite <- (get_column_length _ _ _ Hcol). apply flat_map_repeat_length.
    + intros ->. inversion Hfs.
    + intros _. exact Hcol.
Qed.
End NormalizerOrder.

Lemma raw_to_dataframe_rows_in_payload_order_witness :
  exists df : Frame.DataFrame,
    Frame.raw_to_dataframe sample_clock [payload_one_hour; payload_one_hour] = Ok df /\
    List.length (Frame.rows df) = 2%nat /\
    Frame.get_column df "city" = Ok [Frame.Str "Curitiba"; Frame.Str "Curitiba"].
Proof.
  destruct (Frame.raw_to_dataframe sample_clock [payload_one_hour; payload_one_hour])
    as [df|e] eqn:E.
  - exists df. split; [reflexivity|].
    destruct (raw_to_dataframe_rows_in_payload_order sample_clock _ df E) as (Hl & _ & Hc).
    split; [exact Hl|]. apply Hc. discriminate.
  - vm_compute in E. discriminate.
Defined.

(** * Part VII: the fetcher *)

(** ** Model of [src/data/fetcher.py] *)

Module Fetcher.

Record WeatherDataFetcher : Type := mkFetcher {
  base_url : string;
  timeout : Q;
  retry_attempts : Z;
  weather_params : list string
}.

(** The query of one request. *)
Record Params : Type := mkParams {
  latitude : Q;
  longitude : Q;
  hourly : string;
  forecast_days : Z;
  timezone : string
}.

(** One entry of [config["cities"]]: a dict in which a key may be absent. *)
Record City : Type := mkCity {
  name : option string;
  lat : option Q;
  lon : option Q
}.

(** What [fetch_city_weather] returns: the body of the response, seen
    through the keys the normalizer reads, with city_name, lat and lon
    overwritten, and the time of the fetch. *)
Record Data : Type := mkData {
  payload : Frame.CityData;
  fetch_timestamp : string
}.

(** What the fetcher has done to the outside so far: the number of requests
    sent and the pauses taken, in seconds, in order. *)
Record World : Type := mkWorld {
  requests : nat;
  slept : list Q
}.

(** [time.sleep(seconds)] *)
Definition sleep (seconds : Q) (w : World) : World :=
{| requests := requests w; slept := slept w ++ [seconds] |}.

Section Network.
(** The outcome of the [n]-th request sent (from 0): the parsed body, or
    nothing when [requests.get], [raise_for_status], [json] or the
    assignments to the body raise. *)
Variable get : nat -> string -> Params -> Q -> option Frame.CityData.
(** [datetime.now().isoformat()] once [n] requests have been sent. *)
Variable now : nat -> string.

Definition request (url : string) (params : Params) (timeout : Q) (w : World)
  : option Frame.CityData * World :=
(get (requests w) url params timeout,
 {| requests := S (requests w); slept := slept w |}).

(** The body of [for attempt in range(...)], on what is left of the range. *)
Fixpoint attempts (self : WeatherDataFetcher) (params : Params)
    (lat lon : Q) (city_name : string) (range : list nat) (w : World)
  : option Data * World :=
match range with
| [] => (None, w)
| attempt :: range' =>
    let (response, w) := request (base_url self) params (timeout self) w in
    match response with
    | Some data =>
        let data :=
          {| Frame.city_name := Some city_name;
             Frame.lat := Some lat;
             Frame.lon := Some lon;
             Frame.hourly := Frame.hourly data;
             Frame.state := Frame.state data;
             Frame.region := Frame.region data |} in
        (Some {| payload := data; fetch_timestamp := now (requests w) |}, w)
    | None =>
        if (Z.of_nat attempt <? retry_attempts self - 1)%Z
        then attempts self params lat lon city_name range'
               (sleep (inject_Z (2 ^ Z.of_nat attempt)) w)
        else (None, w)
    end
end.

Definition fetch_city_weather (self : WeatherDataFetcher)
    (lat lon : Q) (city_name : string) (forecast_days : Z) (w : World)
  : option Data * World :=
let params :=
  {| latitude := lat;
     longitude := lon;
     hourly := String.concat "," (weather_params self);
     forecast_days := forecast_days;
     timezone := "America/Sao_Paulo" |} in
attempts self params lat lon city_name (seq 0 (Z.to_nat (retry_attempts self))) w.

(** The body of [for city in cities], on what is left of the list. *)
Fixpoint fetch_each (self : WeatherDataFetcher) (cities : list City)
    (forecast_days : Z) (all_data : list Data) (w : World)
  : result (list Data) * World :=
match cities with
| [] => (Ok all_data, w)
| city :: cities' =>
    match (lat <- Frame.getitem "lat" (lat city) ;;
           lon <- Frame.getitem "lon" (lon city) ;;
           city_name <- Frame.getitem "name" (name city) ;;
           Ok (lat, lon, city_name)) with
    | Err e => (Err e, w)
    | Ok (lat, lon, city_name) =>
        let (data, w) := fetch_city_weather self lat lon city_name forecast_days w in
        let all_data :=
          match data with
          | Some d => all_data ++ [d]
          | None => all_data
          end in
        fetch_each self cities' forecast_days all_data (sleep (1 # 2) w)
    end
end.

Definition fetch_all_cities (self : WeatherDataFetcher) (cities : list City)
    (forecast_days : Z) (w : World) : result (list Data) * World :=
fetch_each self cities forecast_days [] w.
End Network.

End Fetcher.

(** ** Properties of the fetcher *)

(** The pauses between [k + 1] failed attempts: 1, 2, 4, ... seconds. *)
Definition backoff_from (attempt k : nat) : list Q :=
  map (fun a => inject_Z (2 ^ Z.of_nat a)) (seq attempt k).

Definition backoff (k : nat) : list Q := backoff_from 0 k.

(** The query [fetch_city_weather] sends. *)
Definition query (self : Fetcher.WeatherDataFetcher) (lat lon : Q) (forecast_days : Z)
  : Fetcher.Params :=
  {| Fetcher.latitude := lat;
     Fetcher.longitude := lon;
     Fetcher.hourly := String.concat "," (Fetcher.weather_params self);
     Fetcher.forecast_days := forecast_days;
     Fetcher.timezone := "America/Sao_Paulo" |}.

(** The dict returned for a response [body]. *)
Definition fetched (lat lon : Q) (city_name : string) (body : Frame.CityData)
    (stamp : string) : Fetcher.Data :=
  {| Fetcher.payload :=
       {| Frame.city_name := Some city_name;
          Frame.lat := Some lat;
          Frame.lon := Some lon;
          Frame.hourly := Frame.hourly body;
          Frame.state := Frame.state body;
          Frame.region := Frame.region body |};
     Fetcher.fetch_timestamp := stamp |}.

Lemma backoff_from_succ (a k : nat) :
  backoff_from a (S k) = inject_Z (2 ^ Z.of_nat a) :: backoff_from (S a) k.
Proof. reflexivity. Qed.

Lemma Qsum_app (l1 l2 : list Q) : Qsum (l1 ++ l2) == Qsum l1 + Qsum l2.
Proof.
  induction l1 as [|x l1 IH]; simpl.
  - change (Qsum []) with 0%Q. lra.
  - change (Qsum (x :: l1 ++ l2)) with (x + Qsum (l1 ++ l2))%Q.
    change (Qsum (x :: l1)) with (x + Qsum l1)%Q. lra.
Qed.

Lemma Qsum_backoff_from (k a : nat) :
  Qsum (backoff_from a k) == inject_Z (2 ^ Z.of_nat (a + k) - 2 ^ Z.of_nat a).
Proof.
  revert a. induction k as [|k IH]; intros a.
  - rewrite Nat.add_0_r, Z.sub_diag. reflexivity.
  - rewrite backoff_from_succ.
    change (Qsum (?x :: ?l)) with (x + Qsum l)%Q.
    rewrite IH. rewrite <- inject_Z_plus.
    replace (S a + k)%nat with (a + S k)%nat by lia.
    apply inject_Z_injective.
    replace (Z.of_nat (S a)) with (Z.of_nat a + 1)%Z by lia.
    rewrite Z.pow_add_r by lia. lia.
Qed.

Section FetcherProperties.
Variable get : nat -> string -> Fetcher.Params -> Q -> option Frame.CityData.
Variable now : nat -> string.
Variable self : Fetcher.WeatherDataFetcher.

(** The [i]-th request after [w] fails. *)
Definition fails (params : Fetcher.Params) (w : Fetcher.World) (i : nat) : Prop :=
  get (Fetcher.requests w + i) (Fetcher.base_url self) params (Fetcher.timeout self) = None.

Lemma attempts_all_fail (params : Fetcher.Params) (la lo : Q) (nm : string) :
  forall (r a : nat) (w : Fetcher.World),
    (a + r = Z.to_nat (Fetcher.retry_attempts self))%nat ->
    (forall i, (i < r)%nat -> fails params w i) ->
    Fetcher.attempts get now self params la lo nm (seq a r) w
    = (None, {| Fetcher.requests := Fetcher.requests w + r;
                Fetcher.slept := Fetcher.slept w ++ backoff_from a (r - 1) |}).
Proof.
  induction r as [|r IH]; intros a w Hn Hf.
  - destruct w as [rq sl]. simpl. unfold backoff_from. simpl.
    now rewrite Nat.add_0_r, app_nil_r.
  - cbn [seq Fetcher.attempts Fetcher.request].
    pose proof (Hf 0%nat ltac:(lia)) as H0. unfold fails in H0.
    rewrite Nat.add_0_r in H0. rewrite H0.
    destruct (Z.ltb_spec (Z.of_nat a) (Fetcher.retry_attempts self - 1)) as [Hlt|Hge].
    + rewrite (IH (S a)); [|lia|].
      * cbn [Fetcher.sleep Fetcher.requests Fetcher.slept].
        destruct r as [|r]; [lia|].
        replace (S (S r) - 1)%nat with (S r) by lia.
        replace (S r - 1)%nat with r by lia.
        rewrite backoff_from_succ, <- app_assoc. simpl.
        do 2 f_equal. lia.
      * intros i Hi. unfold fails. cbn [Fetcher.sleep Fetcher.requests].
        replace (S (Fetcher.requests w) + i)%nat with (Fetcher.requests w + S i)%nat by lia.
        apply Hf. lia.
    + destruct r as [|r]; [|lia]. unfold backoff_from. simpl.
      rewrite app_nil_r. do 2 f_equal. lia.
Qed.

Lemma attempts_first_success (params : Fetcher.Params) (la lo : Q) (nm : string)
    (body : Frame.CityData) :
  forall (i r a : nat) (w : Fetcher.World),
    (a + r = Z.to_nat (Fetcher.retry_attempts self))%nat ->
    (i < r)%nat ->
    (forall j, (j < i)%nat -> fails params w j) ->
    get (Fetcher.requests w + i) (Fetcher.base_url self) params (Fetcher.timeout self)
      = Some body ->
    Fetcher.attempts get now self params la lo nm (seq a r) w
    = (Some (fetched la lo nm body (now (Fetcher.requests w + i + 1))),
       {| Fetcher.requests := Fetcher.requests w + i + 1;
          Fetcher.slept := Fetcher.slept w ++ backoff_from a i |}).
Proof.
  induction i as [|i IH]; intros r a w Hn Hi Hf Hs.
  - destruct r as [|r]; [lia|].
    cbn [seq Fetcher.attempts Fetcher.request].
    rewrite Nat.add_0_r in Hs. rewrite Hs.
    unfold fetched, backoff_from. cbn [Fetcher.requests seq map].
    rewrite app_nil_r.
    replace (Fetcher.requests w + 0 + 1)%nat with (S (Fetcher.requests w)) by lia.
    reflexivity.
  - destruct r as [|r]; [lia|].
    cbn [seq Fetcher.attempts Fetcher.request].
    pose proof (Hf 0%nat ltac:(lia)) as H0. unfold fails in H0.
    rewrite Nat.add_0_r in H0. rewrite H0.
    destruct (Z.ltb_spec (Z.of_nat a) (Fetcher.retry_attempts self - 1)) as [Hlt|Hge]; [|lia].
    rewrite (IH r (S a)); [| lia | lia | | ].
    + cbn [Fetcher.sleep Fetcher.requests Fetcher.slept].
      rewrite backoff_from_succ, <- app_assoc. simpl.
      replace (Fetcher.requests w + S i + 1)%nat
        with (S (Fetcher.requests w + i + 1)) by lia.
      reflexivity.
    + intros j Hj. unfold fails. cbn [Fetcher.sleep Fetcher.requests].
      replace (S (Fetcher.requests w) + j)%nat with (Fetcher.requests w + S j)%nat by lia.
      apply Hf. lia.
    + cbn [Fetcher.sleep Fetcher.requests].
      replace (S (Fetcher.requests w) + i)%nat with (Fetcher.requests w + S i)%nat by lia.
      exact Hs.
Qed.

(** Either every attempt fails or there is a first one that succeeds. *)
Lemma first_success_or_none (params : Fetcher.Params) (w : Fetcher.World) (r : nat) :
  (forall i, (i < r)%nat -> fails params w i) \/
  (exists i body, (i < r)%nat /\ (forall j, (j < i)%nat -> fails params w j) /\
     get (Fetcher.requests w + i) (Fetcher.base_url self) params (Fetcher.timeout self)
       = Some body).
Proof.
  induction r as [|r [IH|IH]].
  - left. intros i Hi. lia.
  - destruct (get (Fetcher.requests w + r) (Fetcher.base_url self) params
                (Fetcher.timeout self)) as [body|] eqn:E.
    + right. exists r, body. repeat split; [lia| |exact E].
      intros j Hj. apply IH. exact Hj.
    + left. intros i Hi. destruct (Nat.eq_dec i r) as [->|Hne]; [exact E|].
      apply IH. lia.
  - right. destruct IH as (i & body & Hi & Hf & Hs).
    exists i, body. repeat split; [lia|exact Hf|exact Hs].
Qed.
End FetcherProperties.

Section FetchCity.
Variable get : nat -> string -> Fetcher.Params -> Q -> option Frame.CityData.
Variable now : nat -> string.
Variable self : Fetcher.WeatherDataFetcher.

(** The world after one call, and what the call returns. *)
Lemma fetch_city_weather_run (lat lon : Q) (city_name : string) (forecast_days : Z)
    (w : Fetcher.World) :
  let n := Z.to_nat (Fetcher.retry_attempts self) in
  let r := Fetcher.fetch_city_weather get now self lat lon city_name forecast_days w in
  exists k : nat,
    (k <= n)%nat /\
    snd r = {| Fetcher.requests := Fetcher.requests w + k;
               Fetcher.slept := Fetcher.slept w ++ backoff (k - 1) |} /\
    ((fst r = None /\ k = n) \/
     (exists body stamp, fst r = Some (fetched lat lon city_name body stamp) /\
                         (1 <= k)%nat)).
Proof.
  intros n r. subst r. unfold Fetcher.fetch_city_weather. fold (query self lat lon forecast_days).
  fold n.
  destruct (first_success_or_none get self (query self lat lon forecast_days) w n)
    as [Hf|(i & body & Hi & Hf & Hs)].
  - rewrite (attempts_all_fail get now self _ lat lon city_name n 0 w eq_refl Hf).
    exists n. split; [lia|]. split; [reflexivity|]. left. split; reflexivity.
  - rewrite (attempts_first_success get now self _ lat lon city_name body i n 0 w
               eq_refl Hi Hf Hs).
    exists (i + 1)%nat. split; [lia|]. split.
    + cbn [snd]. replace (i + 1 - 1)%nat with i by lia.
      now rewrite Nat.add_assoc.
    + right. exists body, (now (Fetcher.requests w + i + 1)). split; [reflexivity|lia].
Qed.

(** X20. [fetch_city_weather] returns None exactly when each of its
    [retry_attempts] requests fails.  It has then sent that many requests
    and paused 1, 2, 4, ... seconds between them, with no pause after the
    last; for [retry_attempts] of zero or less it sends no request at
    all. *)
Theorem fetch_city_weather_gives_up :
  forall (lat lon : Q) (city_name : string) (forecast_days : Z) (w : Fetcher.World),
    let n := Z.to_nat (Fetcher.retry_attempts self) in
    let r := Fetcher.fetch_city_weather get now self lat lon city_name forecast_days w in
    let all_fail :=
      forall i, (i < n)%nat -> fails get self (query self lat lon forecast_days) w i in
    (fst r = None <-> all_fail) /\
    (all_fail ->
     snd r = {| Fetcher.requests := Fetcher.requests w + n;
                Fetcher.slept := Fetcher.slept w ++ backoff (n - 1) |}).
Proof.
  intros lat lon city_name forecast_days w n r all_fail.
  assert (Hall : all_fail ->
            r = (None, {| Fetcher.requests := Fetcher.requests w + n;
                          Fetcher.slept := Fetcher.slept w ++ backoff (n - 1) |})).
  { intros Hf. exact (attempts_all_fail get now self _ lat lon city_name n 0 w eq_refl Hf). }
  split; [split|].
  - intros Hnone.
    destruct (first_success_or_none get self (query self lat lon forecast_days) w n)
      as [Hf|(i & body & Hi & Hf & Hs)]; [exact Hf|].
    exfalso. subst r. unfold Fetcher.fetch_city_weather in Hnone.
    fold (query self lat lon forecast_days) in Hnone. fold n in Hnone.
    rewrite (attempts_first_success get now self _ lat lon city_name body i n 0 w
               eq_refl Hi Hf Hs) in Hnone.
    discriminate.
  - intros Hf. now rewrite (Hall Hf).
  - intros Hf. now rewrite (Hall Hf).
Qed.

(** X21. When the first [i] requests fail and the next one, still within
    [retry_attempts], succeeds, [fetch_city_weather] returns the body of
    that response under the city's name and coordinates, stamped with the
    time after that request.  It has sent [i + 1] requests and paused
    1, 2, ..., 2^(i-1) seconds, one pause after each failure. *)
Theorem fetch_city_weather_first_success :
  forall (lat lon : Q) (city_name : string) (forecast_days : Z) (w : Fetcher.World)
         (i : nat) (body : Frame.CityData),
    (i < Z.to_nat (Fetcher.retry_attempts self))%nat ->
    (forall j, (j < i)%nat -> fails get self (query self lat lon forecast_days) w j) ->
    get (Fetcher.requests w + i) (Fetcher.base_url self)
        (query self lat lon forecast_days) (Fetcher.timeout self) = Some body ->
    Fetcher.fetch_city_weather get now self lat lon city_name forecast_days w
    = (Some (fetched lat lon city_name body (now (Fetcher.requests w + i + 1))),
       {| Fetcher.requests := Fetcher.requests w + i + 1;
          Fetcher.slept := Fetcher.slept w ++ backoff i |}).
Proof.
  intros lat lon city_name forecast_days w i body Hi Hf Hs.
  exact (attempts_first_success get now self _ lat lon city_name body i _ 0 w
           eq_refl Hi Hf Hs).
Qed.

(** X22. One call of [fetch_city_weather] sends at most [retry_attempts]
    requests, and at least one when [retry_attempts] is positive.  After
    [k] requests it has paused 1, 2, ..., 2^(k-2) seconds, 2^(k-1) - 1 in
    all, which is less than 2^(retry_attempts - 1). *)
Theorem fetch_city_weather_cost :
  forall (lat lon : Q) (city_name : string) (forecast_days : Z) (w : Fetcher.World),
    let n := Z.to_nat (Fetcher.retry_attempts self) in
    let r := Fetcher.fetch_city_weather get now self lat lon city_name forecast_days w in
    let k := (Fetcher.requests (snd r) - Fetcher.requests w)%nat in
    (Fetcher.requests w <= Fetcher.requests (snd r) <= Fetcher.requests w + n)%nat /\
    ((1 <= n)%nat -> (1 <= k)%nat) /\
    Fetcher.slept (snd r) = Fetcher.slept w ++ backoff (k - 1) /\
    Qsum (backoff (k - 1)) == inject_Z (2 ^ Z.of_nat (k - 1) - 1) /\
    Qsum (backoff (k - 1)) < inject_Z (2 ^ Z.of_nat (n - 1)).
Proof.
  intros lat lon city_name forecast_days w n r k.
  destruct (fetch_city_weather_run lat lon city_name forecast_days w)
    as (k' & Hk & Hw & Hres).
  fold r in Hw, Hres. fold n in Hk, Hres.
  assert (Ek : k = k') by (unfold k; rewrite Hw; cbn [Fetcher.requests]; lia).
  rewrite Ek, Hw. cbn [Fetcher.requests Fetcher.slept].
  assert (Hsum : Qsum (backoff (k' - 1)) == inject_Z (2 ^ Z.of_nat (k' - 1) - 1)).
  { unfold backoff. rewrite Qsum_backoff_from. reflexivity. }
  split; [lia|]. split; [|split; [reflexivity|split; [exact Hsum|]]].
  - intros Hn. destruct Hres as [[_ ->]|(_ & _ & _ & H)]; [exact Hn|exact H].
  - rewrite Hsum. rewrite <- Zlt_Qlt.
    assert (2 ^ Z.of_nat (k' - 1) <= 2 ^ Z.of_nat (n - 1))%Z
      by (apply Z.pow_le_mono_r; lia).
    lia.
Qed.
End FetchCity.

(** ** All cities *)

(** The first of the keys lat, lon, name that a city entry lacks. *)
Definition missing_key (c : Fetcher.City) : option string :=
  match Fetcher.lat c, Fetcher.lon c, Fetcher.name c with
  | None, _, _ => Some "lat"
  | Some _, None, _ => Some "lon"
  | Some _, Some _, None => Some "name"
  | Some _, Some _, Some _ => None
  end.





Lemma subsequence_refl {A : Type} (l : list A) : subsequence l l.
Proof. induction l; constructor; assumption. Qed.

Lemma subsequence_app {A : Type} (l1 l2 m1 m2 : list A) :
  subsequence l1 m1 -> subsequence l2 m2 -> subsequence (l1 ++ l2) (m1 ++ m2).
Proof.
  induction 1 as [l|x l1 m1 _ IH|x l1 m1 _ IH]; intros H2; simpl.
  - induction l as [|y l IHl]; simpl; [exact H2|].
    constructor. exact IHl.
  - constructor. now apply IH.
  - constructor. now apply IH.
Qed.

Section FetchAll.
Variable get : nat -> string -> Fetcher.Params -> Q -> option Frame.CityData.
Variable now : nat -> string.
Variable self : Fetcher.WeatherDataFetcher.


Lemma fetch_each_app (forecast_days : Z) (rest : list Fetcher.City) :
  forall (pre : list Fetcher.City) (all_data : list Fetcher.Data) (w : Fetcher.World),
    Forall (fun c => missing_key c = None) pre ->
    exists (all_data' : list Fetcher.Data),
      Fetcher.fetch_each get now self pre forecast_days all_data w
        = (Ok all_data', snd (Fetcher.fetch_each get now self pre forecast_days all_data w)) /\
      Fetcher.fetch_each get now self (pre ++ rest) forecast_days all_data w
        = Fetcher.fetch_each get now self rest forecast_days all_data'
            (snd (Fetcher.fetch_each get now self pre forecast_days all_data w)).
Proof.
  induction pre as [|c pre IH]; intros all_data w Hc.
  - exists all_data. split; reflexivity.
  - inversion Hc as [|? ? Hm Hrest]; subst.
    cbn [Fetcher.fetch_each app].
    unfold missing_key in Hm.
    destruct c as [nm la lo]. cbn [Fetcher.lat Fetcher.lon Fetcher.name] in *.
    destruct la as [la|]; [|discriminate].
    destruct lo as [lo|]; [|discriminate].
    destruct nm as [nm|]; [|discriminate].
    cbn [Frame.getitem bind].
    destruct (Fetcher.fetch_city_weather get now self la lo nm forecast_days w)
      as [data w1].
    apply IH. exact Hrest.
Qed.


(** X24. A city entry that lacks lat, lon or name makes
    [fetch_all_cities] raise the KeyError of the first of these keys it
    lacks.  The cities before it have been fetched by then, with their
    requests and pauses, and what they returned is lost; the cities after
    it are not fetched. *)
Theorem fetch_all_cities_missing_key :
  forall (pre post : list Fetcher.City) (c : Fetcher.City) (key : string)
         (forecast_days : Z) (w : Fetcher.World),
    Forall (fun c => missing_key c = None) pre ->
    missing_key c = Some key ->
    Fetcher.fetch_all_cities get now self (pre ++ c :: post) forecast_days w
    = (Err (KeyError key),
       snd (Fetcher.fetch_all_cities get now self pre forecast_days w)).
Proof.
  intros pre post c key forecast_days w Hpre Hc.
  unfold Fetcher.fetch_all_cities.
  destruct (fetch_each_app forecast_days (c :: post) pre [] w Hpre) as (all_data' & _ & ->).
  cbn [Fetcher.fetch_each]. unfold missing_key in Hc.
  destruct (Fetcher.lat c) as [la|]; [|injection Hc as <-; reflexivity].
  destruct (Fetcher.lon c) as [lo|]; [|injection Hc as <-; reflexivity].
  destruct (Fetcher.name c) as [nm|]; [discriminate|injection Hc as <-; reflexivity].
Qed.
End FetchAll.

(** ** From the fetcher to the normalizer *)


Section FetchThenNormalize.
Variable get : nat -> string -> Fetcher.Params -> Q -> option Frame.CityData.
Variable now : nat -> string.
Variable parse_datetime : string -> option Z.
Variable self : Fetcher.WeatherDataFetcher.





End FetchThenNormalize.

(** ** A flaky network *)

Definition sample_fetcher : Fetcher.WeatherDataFetcher :=
  {| Fetcher.base_url := "https://api.open-meteo.com/v1/forecast";
     Fetcher.timeout := 30;
     Fetcher.retry_attempts := 3;
     Fetcher.weather_params := ["temperature_2m"; "relative_humidity_2m"; "precipitation"] |}.

(** The first two requests are lost, the later ones are answered. *)
Definition flaky_network (n : nat) (url : string) (params : Fetcher.Params) (timeout : Q)
  : option Frame.CityData :=
  if (n <? 2)%nat then None else Some payload_one_hour.


Definition midnight (n : nat) : string := "2024-01-01T00:00:00".

Definition before_fetching : Fetcher.World :=
  {| Fetcher.requests := 0; Fetcher.slept := [] |}.

Definition curitiba : Fetcher.City :=
  {| Fetcher.name := Some "Curitiba"; Fetcher.lat := Some (-25)%Q;
     Fetcher.lon := Some (-49)%Q |}.

Definition recife : Fetcher.City :=
  {| Fetcher.name := Some "Recife"; Fetcher.lat := Some (-8)%Q;
     Fetcher.lon := Some (-35)%Q |}.

Definition city_without_lon : Fetcher.City :=
  {| Fetcher.name := Some "Manaus"; Fetcher.lat := Some (-3)%Q; Fetcher.lon := None |}.

Lemma fetch_city_weather_first_success_witness :
  Fetcher.fetch_city_weather flaky_network midnight sample_fetcher (-25) (-49)
    "Curitiba" 7 before_fetching
  = (Some (fetched (-25) (-49) "Curitiba" payload_one_hour "2024-01-01T00:00:00"),
     {| Fetcher.requests := 3; Fetcher.slept := [1; 2]%Q |}).
Proof.
  apply (fetch_city_weather_first_success flaky_network midnight sample_fetcher
           (-25) (-49) "Curitiba" 7 before_fetching 2 payload_one_hour).
  - cbn. lia.
  - intros j Hj. destruct j as [|[|j]]; [reflexivity|reflexivity|lia].
  - reflexivity.
Defined.


Lemma fetch_all_cities_missing_key_witness :
  Fetcher.fetch_all_cities flaky_network midnight sample_fetcher
    ([curitiba] ++ city_without_lon :: [recife]) 7 before_fetching
  = (Err (KeyError "lon"),
     {| Fetcher.requests := 3; Fetcher.slept := [1; 2; 1 # 2]%Q |}).
Proof.
  apply (fetch_all_cities_missing_key flaky_network midnight sample_fetcher
           [curitiba] [recife] city_without_lon "lon" 7 before_fetching).
  - repeat constructor.
  - reflexivity.
Defined.


(** * Part VIII: what is done with the alerts *)

(** [str(n)] for a count. *)
Definition str (n : nat) : string := NilEmpty.string_of_uint (Nat.to_uint n).

(** ** Model of [send_alert_notifications] (dags/weather_pipeline_dag.py) *)

(** [alert["type"] in ["high_temperature", "high_wind"]] *)
Definition is_critical (alert : Alert.t) : bool :=
existsb (String.eqb (Alert.type alert)) ["high_temperature"; "high_wind"].

(** The lines printed, in order, and the value returned. *)
Definition send_alert_notifications (alerts : list Alert.t) : list string * string :=
let critical_alerts := filter is_critical alerts in
let printed :=
  match critical_alerts with
  | [] => []
  | _ :: _ =>
      ("CRITICAL: " ++ str (List.length critical_alerts) ++ " critical alerts detected!")%string
      :: map (fun alert => ("  - " ++ Alert.message alert)%string) (firstn 5 critical_alerts)
  end in
(printed, ("Processed " ++ str (List.length critical_alerts) ++ " critical alerts")%string).

(** ** Model of [consolidate_alerts] (app.py) *)

(** An entry of the list [consolidated]. *)
Module Entry.
Record t : Type := mk {
  type : string;
  city : string;
  date : Z;
  time : Z;
  value : Q;
  count : nat;
  message : string
}.
End Entry.

(** A record of the result: an entry with its severity, NaN ([None]) for a
    type that [severity_order] does not list. *)
Module Consolidated.
Record t : Type := mk {
  entry : Entry.t;
  severity : option Z
}.
End Consolidated.

(** The group key: city, type, date. *)
Definition group_key : Type := string * string * Z.

Definition key_of_alert (a : Alert.t) : group_key :=
(Alert.city a, Alert.type a, (Alert.time a / 1440)%Z).

Definition group_key_eqb (k1 k2 : group_key) : bool :=
let '(c1, t1, d1) := k1 in
let '(c2, t2, d2) := k2 in
String.eqb c1 c2 && String.eqb t1 t2 && (d1 =? d2)%Z.

(** The order in which [groupby] yields its groups. *)
Definition group_key_leb (k1 k2 : group_key) : bool :=
let '(c1, t1, d1) := k1 in
let '(c2, t2, d2) := k2 in
match String.compare c1 c2 with
| Lt => true
| Gt => false
| Eq =>
    match String.compare t1 t2 with
    | Lt => true
    | Gt => false
    | Eq => (d1 <=? d2)%Z
    end
end.

(** [df_alerts.groupby(["city", "type", "date"])]: the groups in ascending
    order of the key, each with its rows in the order of the table. *)
Definition groupby_city_type_date (alerts : list Alert.t)
  : list (group_key * list Alert.t) :=
map (fun k => (k, filter (fun a => group_key_eqb (key_of_alert a) k) alerts))
    (sort_by group_key_leb (unique group_key_eqb (map key_of_alert alerts))).

(** The row at [group["value"].idxmax()]: the first row of the largest
    value, in a group that starts with [first]. *)
Fixpoint idxmax (first : Alert.t) (rest : list Alert.t) : Alert.t :=
match rest with
| [] => first
| a :: rest' =>
    let b := idxmax a rest' in
    if Qle_bool (Alert.value b) (Alert.value first) then first else b
end.

Definition severity_order : dict string Z :=
[ ("high_temperature", 0%Z); ("high_wind", 1%Z);
  ("heavy_precipitation", 2%Z); ("low_temperature", 3%Z) ].

(** NaN sorts last. *)
Definition severity_leb (a b : option Z) : bool :=
match a, b with
| Some x, Some y => (x <=? y)%Z
| Some _, None => true
| None, Some _ => false
| None, None => true
end.

(** [sort_values(["date", "severity"], ascending=[False, True])] *)
Definition date_desc_severity_asc (a b : Consolidated.t) : bool :=
let da := Entry.date (Consolidated.entry a) in
let db := Entry.date (Consolidated.entry b) in
(db <? da)%Z
|| ((da =? db)%Z && severity_leb (Consolidated.severity a) (Consolidated.severity b)).

Section Consolidate.
(** [f"{x:.1f}"] *)
Variable format_1f : Q -> string.

(** The body of the loop over the groups; a group is never empty. *)
Definition consolidate_group (key : group_key) (group : list Alert.t) : list Entry.t :=
let '(city, alert_type, date) := key in
match group with
| [] => []
| first :: rest =>
    if existsb (String.eqb alert_type)
         ["high_temperature"; "high_wind"; "heavy_precipitation"]
    then
      let max_value :=
        match series_max (map Alert.value group) with
        | Some m => m
        | None => Alert.value first
        end in
      let max_time := Alert.time (idxmax first rest) in
      let count := List.length group in
      let message :=
        if (1 <? count)%nat
        then (Alert.message first ++ " (pico: " ++ format_1f max_value ++ ", "
              ++ str count ++ "x no dia)")%string
        else Alert.message first in
      [ {| Entry.type := alert_type;
           Entry.city := city;
           Entry.date := date;
           Entry.time := max_time;
           Entry.value := max_value;
           Entry.count := count;
           Entry.message := message |} ]
    else
      [ {| Entry.type := alert_type;
           Entry.city := city;
           Entry.date := date;
           Entry.time := Alert.time first;
           Entry.value := Alert.value first;
           Entry.count := List.length group;
           Entry.message := Alert.message first |} ]
end.

Definition consolidate_alerts (alerts : list Alert.t) : list Consolidated.t :=
match alerts with
| [] => []
| _ :: _ =>
    let grouped := groupby_city_type_date alerts in
    let consolidated :=
      flat_map (fun kg => consolidate_group (fst kg) (snd kg)) grouped in
    let consolidated_df :=
      map (fun e => {| Consolidated.entry := e;
                       Consolidated.severity :=
                         dict_get String.eqb severity_order (Entry.type e) |})
          consolidated in
    sort_by date_desc_severity_asc consolidated_df
end.
End Consolidate.

(** ** Properties of the notifications *)

Lemma filter_map_all {A B : Type} (p : B -> bool) (f : A -> B) (l : list A) :
  (forall x, p (f x) = true) -> filter p (map f l) = map f l.
Proof.
  intros H. induction l as [|x l IH]; simpl; [reflexivity|]. now rewrite H, IH.
Qed.

Lemma filter_map_none {A B : Type} (p : B -> bool) (f : A -> B) (l : list A) :
  (forall x, p (f x) = false) -> filter p (map f l) = [].
Proof.
  intros H. induction l as [|x l IH]; simpl; [reflexivity|]. now rewrite H, IH.
Qed.

Section NotificationProperties.
Variable format_1f : Q -> string.

(** The rows above the high temperature threshold, and above the wind
    threshold, in row order. *)
Definition hot_rows (self : WeatherDataProcessor) (df : DataFrame) : list Observation :=
  filter (fun r => Qgtb (temperature_2m r) (temperature_high_threshold (alert_config self)))
         (rows df).

Definition windy_rows (self : WeatherDataProcessor) (df : DataFrame) : list Observation :=
  filter (fun r => Qgtb (wind_speed_10m r) (wind_speed_high_threshold (alert_config self)))
         (rows df).

Lemma critical_alerts_of_table (self : WeatherDataProcessor) (df : DataFrame) :
  filter is_critical (generate_alerts format_1f self df)
  = map (high_temperature_alert format_1f) (hot_rows self df)
    ++ map (high_wind_alert format_1f) (windy_rows self df).
Proof.
  rewrite generate_alerts_groups, !filter_app.
  rewrite (filter_map_all is_critical (high_temperature_alert format_1f)) by reflexivity.
  rewrite (filter_map_none is_critical (low_temperature_alert format_1f)) by reflexivity.
  rewrite (filter_map_all is_critical (high_wind_alert format_1f)) by reflexivity.
  rewrite (filter_map_none is_critical (heavy_precipitation_alert format_1f)) by reflexivity.
  now rewrite app_nil_r.
Qed.

(** X26. On the alerts of a table, the notification task counts the rows
    above the high temperature threshold plus the rows above the wind
    threshold; low temperatures and heavy precipitation are never notified.
    It prints nothing when there is no such row and at most a heading and
    five messages otherwise.  With five or more hot rows the messages are
    those of the first five hot rows, so that no wind alert is shown. *)
Theorem send_alert_notifications_of_generated_alerts :
  forall (self : WeatherDataProcessor) (df : DataFrame),
    let sent := send_alert_notifications (generate_alerts format_1f self df) in
    let hot := hot_rows self df in
    let windy := windy_rows self df in
    snd sent
      = ("Processed " ++ str (List.length hot + List.length windy) ++ " critical alerts")%string /\
    (fst sent = [] <-> hot = [] /\ windy = []) /\
    (List.length (fst sent) <= 6)%nat /\
    ((5 <= List.length hot)%nat ->
     tl (fst sent)
     = map (fun r => ("  - " ++ Alert.message (high_temperature_alert format_1f r))%string)
           (firstn 5 hot)).
Proof.
  intros self df sent hot windy. subst sent. unfold send_alert_notifications.
  rewrite critical_alerts_of_table. fold hot. fold windy. cbn [fst snd].
  set (critical := map (high_temperature_alert format_1f) hot
                   ++ map (high_wind_alert format_1f) windy).
  assert (Hlen : List.length critical = (List.length hot + List.length windy)%nat)
    by (unfold critical; now rewrite length_app, !length_map).
  split; [now rewrite Hlen|]. split; [|split].
  - destruct critical as [|a l] eqn:E.
    + split; [intros _|reflexivity].
      destruct hot; [|discriminate]. destruct windy; [|discriminate]. auto.
    + split; [discriminate|]. intros [Hh Hw]. rewrite Hh, Hw in Hlen. discriminate.
  - destruct critical as [|a l]; [simpl; lia|].
    cbn [List.length]. rewrite length_map, length_firstn. lia.
  - intros H5. destruct critical as [|a l] eqn:E.
    + simpl in Hlen. lia.
    + cbn [tl]. rewrite <- E. unfold critical.
      rewrite firstn_app, length_map.
      replace (5 - List.length hot)%nat with 0%nat by lia.
      rewrite firstn_O, app_nil_r, firstn_map, map_map. reflexivity.
Qed.
End NotificationProperties.

(** ** Properties of the consolidation *)

Lemma group_key_eqb_eq (k1 k2 : group_key) : group_key_eqb k1 k2 = true <-> k1 = k2.
Proof.
  destruct k1 as [[c1 t1] d1], k2 as [[c2 t2] d2]. unfold group_key_eqb.
  rewrite !andb_true_iff, !String.eqb_eq, Z.eqb_eq. split.
  - intros [[-> ->] ->]. reflexivity.
  - intros [= -> -> ->]. auto.
Qed.

(** The key of an entry. *)
Definition entry_key (e : Entry.t) : group_key :=
  (Entry.city e, Entry.type e, Entry.date e).

(** The alerts of one key, in the order of the list. *)
Definition group_of (alerts : list Alert.t) (k : group_key) : list Alert.t :=
  filter (fun a => group_key_eqb (key_of_alert a) k) alerts.

(** The types consolidated by their peak. *)
Definition by_peak (alert_type : string) : bool :=
  existsb (String.eqb alert_type) ["high_temperature"; "high_wind"; "heavy_precipitation"].

(** The group keys in the order of [groupby]. *)
Definition group_keys (alerts : list Alert.t) : list group_key :=
  sort_by group_key_leb (unique group_key_eqb (map key_of_alert alerts)).

Lemma group_keys_In (alerts : list Alert.t) (k : group_key) :
  In k (group_keys alerts) <-> In k (map key_of_alert alerts).
Proof.
  unfold group_keys. split; intros H.
  - apply (unique_In group_key_eqb group_key_eqb_eq).
    exact (Permutation_in _ (sort_by_perm _ _) H).
  - apply (Permutation_in _ (Permutation_sym (sort_by_perm group_key_leb _))).
    now apply (unique_In group_key_eqb group_key_eqb_eq).
Qed.

Lemma group_keys_NoDup (alerts : list Alert.t) : NoDup (group_keys alerts).
Proof.
  unfold group_keys.
  apply (Permutation_NoDup (Permutation_sym (sort_by_perm group_key_leb _))).
  apply (unique_NoDup group_key_eqb group_key_eqb_eq).
Qed.

Lemma group_of_In (alerts : list Alert.t) (k : group_key) (a : Alert.t) :
  In a (group_of alerts k) <-> In a alerts /\ key_of_alert a = k.
Proof. unfold group_of. now rewrite filter_In, group_key_eqb_eq. Qed.

Lemma group_of_nonempty (alerts : list Alert.t) (k : group_key) :
  In k (group_keys alerts) -> group_of alerts k <> [].
Proof.
  intros H. apply group_keys_In, in_map_iff in H. destruct H as (a & Ha & Hin).
  intros E. assert (Hg : In a (group_of alerts k)) by now apply group_of_In.
  rewrite E in Hg. contradiction.
Qed.

(** Each alert is counted in exactly one group. *)
Lemma group_sizes_sum (alerts : list Alert.t) (keys : list group_key) :
  NoDup keys -> (forall a, In a alerts -> In (key_of_alert a) keys) ->
  list_sum (map (fun k => List.length (group_of alerts k)) keys) = List.length alerts.
Proof.
  intros Hnd. induction alerts as [|a alerts IH]; intros Hin.
  - simpl. induction keys as [|k keys IHk]; simpl; [reflexivity|].
    inversion Hnd; subst. now rewrite IHk.
  - assert (Hone : forall ks, NoDup ks ->
              list_sum (map (fun k => List.length (group_of (a :: alerts) k)) ks)
              = ((if existsb (group_key_eqb (key_of_alert a)) ks then 1 else 0)
                 + list_sum (map (fun k => List.length (group_of alerts k)) ks))%nat).
    { induction ks as [|k ks IHks]; intros Hks; [reflexivity|].
      inversion Hks as [|? ? Hk Hks']; subst.
      cbn [map existsb].
      change (list_sum (?x :: ?l)) with (x + list_sum l)%nat.
      rewrite (IHks Hks').
      unfold group_of at 1. cbn [filter]. fold (group_of alerts k).
      destruct (group_key_eqb (key_of_alert a) k) eqn:E; cbn [orb List.length].
      - apply group_key_eqb_eq in E.
        assert (Hno : existsb (group_key_eqb (key_of_alert a)) ks = false).
        { destruct (existsb _ ks) eqn:Ex; [|reflexivity].
          apply existsb_exists in Ex. destruct Ex as (k' & Hk' & Ek').
          apply group_key_eqb_eq in Ek'. congruence. }
        rewrite Hno. lia.
      - lia. }
    rewrite (Hone keys Hnd), IH by (intros b Hb; apply Hin; now right).
    assert (Hex : existsb (group_key_eqb (key_of_alert a)) keys = true).
    { apply existsb_exists. exists (key_of_alert a). split.
      - apply Hin. now left.
      - now apply group_key_eqb_eq. }
    rewrite Hex. reflexivity.
Qed.

Lemma list_sum_perm (l1 l2 : list nat) : Permutation l1 l2 -> list_sum l1 = list_sum l2.
Proof. induction 1; simpl; lia. Qed.

Lemma idxmax_spec (first : Alert.t) (rest : list Alert.t) :
  In (idxmax first rest) (first :: rest) /\
  forall a, In a (first :: rest) -> (Alert.value a <= Alert.value (idxmax first rest))%Q.
Proof.
  revert first. induction rest as [|b rest IH]; intros first.
  - simpl. split; [now left|]. intros a [<-|[]]. apply Qle_refl.
  - cbn [idxmax]. destruct (IH b) as [Hin Hmax].
    destruct (Qle_bool (Alert.value (idxmax b rest)) (Alert.value first)) eqn:E.
    + apply Qle_bool_iff in E. split; [now left|].
      intros a [<-|Ha]; [apply Qle_refl|].
      eapply Qle_trans; [apply Hmax; exact Ha|exact E].
    + split; [now right|].
      intros a [<-|Ha]; [|now apply Hmax].
      destruct (Qlt_le_dec (Alert.value (idxmax b rest)) (Alert.value first)) as [Hlt|Hle];
        [|exact Hle].
      apply Qlt_le_weak, Qle_bool_iff in Hlt. congruence.
Qed.

Section ConsolidationProperties.
Variable format_1f : Q -> string.

(** The entries before the severity is added and the table sorted. *)
Definition entries (alerts : list Alert.t) : list Entry.t :=
  flat_map (fun k => consolidate_group format_1f k (group_of alerts k)) (group_keys alerts).

Definition with_severity (e : Entry.t) : Consolidated.t :=
  {| Consolidated.entry := e;
     Consolidated.severity := dict_get String.eqb severity_order (Entry.type e) |}.

Lemma consolidate_alerts_entries (alerts : list Alert.t) :
  consolidate_alerts format_1f alerts
  = sort_by date_desc_severity_asc (map with_severity (entries alerts)).
Proof.
  destruct alerts as [|a alerts]; [reflexivity|].
  unfold consolidate_alerts, entries, groupby_city_type_date.
  fold (group_keys (a :: alerts)).
  f_equal. f_equal.
  induction (group_keys (a :: alerts)) as [|k ks IH]; [reflexivity|].
  cbn [map flat_map fst snd]. now rewrite IH.
Qed.

Lemma consolidate_alerts_perm (alerts : list Alert.t) :
  Permutation (consolidate_alerts format_1f alerts) (map with_severity (entries alerts)).
Proof. rewrite consolidate_alerts_entries. apply sort_by_perm. Qed.

(** What the loop body makes of a group. *)
Lemma consolidate_group_entry (k : group_key) (first : Alert.t) (rest : list Alert.t) :
  exists e,
    consolidate_group format_1f k (first :: rest) = [e] /\
    entry_key e = k /\
    Entry.count e = S (List.length rest) /\
    (by_peak (snd (fst k)) = true ->
       series_max (map Alert.value (first :: rest)) = Some (Entry.value e) /\
       Entry.time e = Alert.time (idxmax first rest)) /\
    (by_peak (snd (fst k)) = false ->
       Entry.value e = Alert.value first /\ Entry.time e = Alert.time first /\
       Entry.message e = Alert.message first) /\
    (rest = [] -> Entry.message e = Alert.message first).
Proof.
  destruct k as [[c t] d]. unfold consolidate_group. fold (by_peak t). cbn [fst snd].
  destruct (by_peak t) eqn:Ep.
  - eexists. split; [reflexivity|]. cbn.
    split; [reflexivity|]. split; [reflexivity|]. split; [|split].
    + intros _. split; [|reflexivity].
      destruct (series_max (map Alert.value rest)); reflexivity.
    + discriminate.
    + intros ->. reflexivity.
  - eexists. split; [reflexivity|]. cbn.
    split; [reflexivity|]. split; [reflexivity|]. split; [|split].
    + discriminate.
    + intros _. repeat split.
    + intros _. reflexivity.
Qed.

Lemma entries_keys_from (alerts : list Alert.t) (keys : list group_key) :
  (forall k, In k keys -> group_of alerts k <> []) ->
  map entry_key (flat_map (fun k => consolidate_group format_1f k (group_of alerts k)) keys)
  = keys /\
  map Entry.count (flat_map (fun k => consolidate_group format_1f k (group_of alerts k)) keys)
  = map (fun k => List.length (group_of alerts k)) keys.
Proof.
  induction keys as [|k keys IH]; intros Hne; [split; reflexivity|].
  cbn [flat_map map]. rewrite !map_app.
  destruct IH as [IH1 IH2]; [intros k' Hk'; apply Hne; now right|].
  rewrite IH1, IH2.
  destruct (group_of alerts k) as [|first rest] eqn:Eg; [now apply Hne in Eg; [|left]|].
  destruct (consolidate_group_entry k first rest) as (e & -> & Hk & Hc & _).
  cbn [map app List.length]. rewrite Hk, Hc. split; reflexivity.
Qed.

Lemma entries_keys (alerts : list Alert.t) :
  map entry_key (entries alerts) = group_keys alerts /\
  map Entry.count (entries alerts)
  = map (fun k => List.length (group_of alerts k)) (group_keys alerts).
Proof. apply entries_keys_from. intros k. apply group_of_nonempty. Qed.

(** An entry comes from the group of its key. *)
Lemma entries_In (alerts : list Alert.t) (e : Entry.t) :
  In e (entries alerts) ->
  exists first rest,
    group_of alerts (entry_key e) = first :: rest /\
    consolidate_group format_1f (entry_key e) (first :: rest) = [e].
Proof.
  unfold entries. intros H. apply in_flat_map in H. destruct H as (k & Hk & He).
  destruct (group_of alerts k) as [|first rest] eqn:Eg;
    [destruct k as [[c t] d]; contradiction|].
  destruct (consolidate_group_entry k first rest) as (e' & E & Hkey & _).
  rewrite E in He. destruct He as [<-|[]].
  exists first, rest. now rewrite Hkey.
Qed.

(** X27. [consolidate_alerts] keeps one record for each city, type and day
    that occurs among the alerts, and no other.  Each record counts at
    least one alert, and the counts add up to the number of alerts: every
    alert is counted once. *)
Theorem consolidate_alerts_counts_every_alert :
  forall alerts : list Alert.t,
    let out := map Consolidated.entry (consolidate_alerts format_1f alerts) in
    NoDup (map entry_key out) /\
    (forall k, In k (map entry_key out) <-> In k (map key_of_alert alerts)) /\
    (forall e, In e out -> (1 <= Entry.count e)%nat) /\
    list_sum (map Entry.count out) = List.length alerts.
Proof.
  intros alerts out.
  assert (Hperm : Permutation out (entries alerts)).
  { unfold out. rewrite (Permutation_map Consolidated.entry (consolidate_alerts_perm alerts)).
    rewrite map_map. cbn [with_severity Consolidated.entry]. now rewrite map_id. }
  destruct (entries_keys alerts) as [Hkeys Hcounts].
  split; [|split; [|split]].
  - apply (Permutation_NoDup (Permutation_sym (Permutation_map entry_key Hperm))).
    rewrite Hkeys. apply group_keys_NoDup.
  - intros k. rewrite <- group_keys_In, <- Hkeys. split; intros H.
    + exact (Permutation_in _ (Permutation_map entry_key Hperm) H).
    + exact (Permutation_in _ (Permutation_sym (Permutation_map entry_key Hperm)) H).
  - intros e He. apply (Permutation_in _ Hperm) in He.
    destruct (entries_In alerts e He) as (first & rest & _ & Hg).
    destruct (consolidate_group_entry (entry_key e) first rest) as (e' & E & _ & Hc & _).
    rewrite E in Hg. injection Hg as ->. lia.
  - rewrite (list_sum_perm _ _ (Permutation_map Entry.count Hperm)), Hcounts.
    apply group_sizes_sum; [apply group_keys_NoDup|].
    intros a Ha. apply group_keys_In. now apply in_map.
Qed.
End ConsolidationProperties.

Lemma filter_first_split {A : Type} (p : A -> bool) (l : list A) (first : A) (rest : list A) :
  filter p l = first :: rest ->
  exists pre post, l = pre ++ first :: post /\ p first = true /\
                   forall b, In b pre -> p b = false.
Proof.
  induction l as [|y l IH]; simpl; [discriminate|].
  destruct (p y) eqn:E; intros H.
  - injection H as -> _. exists [], l. repeat split; [exact E|]. intros b [].
  - destruct (IH H) as (pre & post & -> & Hp & Hpre).
    exists (y :: pre), post. repeat split; [exact Hp|].
    intros b [<-|Hb]; [exact E|now apply Hpre].
Qed.

Lemma by_peak_severity (alert_type : string) :
  by_peak alert_type = true ->
  exists s, dict_get String.eqb severity_order alert_type = Some s /\ (0 <= s <= 2)%Z.
Proof.
  unfold by_peak. cbn [existsb]. rewrite !orb_true_iff, !String.eqb_eq.
  intros [->|[->|[->|Hf]]].
  - exists 0%Z. split; [reflexivity|lia].
  - exists 1%Z. split; [reflexivity|lia].
  - exists 2%Z. split; [reflexivity|lia].
  - discriminate.
Qed.

Lemma severity_leb_total (a b : option Z) :
  severity_leb a b = false -> severity_leb b a = true.
Proof.
  destruct a as [x|], b as [y|]; simpl; try congruence.
  rewrite Z.leb_gt, Z.leb_le. lia.
Qed.

Lemma severity_leb_trans (a b c : option Z) :
  severity_leb a b = true -> severity_leb b c = true -> severity_leb a c = true.
Proof.
  destruct a as [x|], b as [y|], c as [z|]; simpl; try congruence.
  rewrite !Z.leb_le. lia.
Qed.

(** Later day first; within a day, lower severity first. *)
Definition before (a b : Consolidated.t) : Prop :=
  (Entry.date (Consolidated.entry b) < Entry.date (Consolidated.entry a))%Z \/
  (Entry.date (Consolidated.entry a) = Entry.date (Consolidated.entry b) /\
   severity_leb (Consolidated.severity a) (Consolidated.severity b) = true).

Lemma date_desc_severity_asc_before (a b : Consolidated.t) :
  date_desc_severity_asc a b = true <-> before a b.
Proof.
  unfold date_desc_severity_asc, before.
  rewrite orb_true_iff, andb_true_iff, Z.ltb_lt, Z.eqb_eq. tauto.
Qed.

Lemma date_desc_severity_asc_total (a b : Consolidated.t) :
  date_desc_severity_asc a b = false -> date_desc_severity_asc b a = true.
Proof.
  unfold date_desc_severity_asc.
  rewrite orb_false_iff, andb_false_iff, orb_true_iff, andb_true_iff.
  rewrite Z.ltb_ge, Z.ltb_lt, !Z.eqb_neq, Z.eqb_eq.
  intros [H1 [H2|H2]].
  - left. lia.
  - destruct (Z.eq_dec (Entry.date (Consolidated.entry a))
                (Entry.date (Consolidated.entry b))) as [E|E].
    + right. split; [congruence|now apply severity_leb_total].
    + left. lia.
Qed.

Lemma before_trans (a b c : Consolidated.t) : before a b -> before b c -> before a c.
Proof.
  unfold before. intros [H1|[H1 S1]] [H2|[H2 S2]].
  - left. lia.
  - left. lia.
  - left. lia.
  - right. split; [congruence|]. eapply severity_leb_trans; eauto.
Qed.

Section ConsolidationFurther.
Variable format_1f : Q -> string.

Lemma consolidate_alerts_In (alerts : list Alert.t) (r : Consolidated.t) :
  In r (consolidate_alerts format_1f alerts) ->
  r = with_severity (Consolidated.entry r) /\
  exists first rest,
    group_of alerts (entry_key (Consolidated.entry r)) = first :: rest /\
    consolidate_group format_1f (entry_key (Consolidated.entry r)) (first :: rest)
      = [Consolidated.entry r].
Proof.
  intros H. apply (Permutation_in _ (consolidate_alerts_perm format_1f alerts)) in H.
  apply in_map_iff in H. destruct H as (e & <- & He). split; [reflexivity|].
  exact (entries_In format_1f alerts e He).
Qed.

(** X28. A record of a high temperature, high wind or heavy precipitation
    group carries the peak of the group: no alert of that city, type and
    day has a larger value, and one of them has that value at the time the
    record gives.  Its severity is 0, 1 or 2. *)
Theorem consolidate_alerts_keeps_the_peak :
  forall (alerts : list Alert.t) (r : Consolidated.t),
    In r (consolidate_alerts format_1f alerts) ->
    by_peak (Entry.type (Consolidated.entry r)) = true ->
    (forall a, In a alerts -> key_of_alert a = entry_key (Consolidated.entry r) ->
               (Alert.value a <= Entry.value (Consolidated.entry r))%Q) /\
    (exists a, In a alerts /\ key_of_alert a = entry_key (Consolidated.entry r) /\
               Alert.value a == Entry.value (Consolidated.entry r) /\
               Alert.time a = Entry.time (Consolidated.entry r)) /\
    (exists s, Consolidated.severity r = Some s /\ (0 <= s <= 2)%Z).
Proof.
  intros alerts r Hr Hpeak.
  destruct (consolidate_alerts_In alerts r Hr) as (Hsev & first & rest & Hg & He).
  set (e := Consolidated.entry r) in *.
  destruct (consolidate_group_entry format_1f (entry_key e) first rest)
    as (e' & E & _ & _ & Hp & _).
  rewrite E in He. injection He as ->.
  destruct (Hp Hpeak) as [Hmax Htime].
  destruct (series_max_spec _ _ Hmax) as [Hin Hle].
  destruct (idxmax_spec first rest) as [Him Hib].
  split; [|split].
  - intros a Ha Hk. apply Hle. apply in_map. rewrite <- Hg. now apply group_of_In.
  - exists (idxmax first rest).
    rewrite <- Hg in Him. apply group_of_In in Him. destruct Him as [Hal Hk].
    split; [exact Hal|]. split; [exact Hk|]. split; [|now rewrite Htime].
    apply Qle_antisym.
    + apply Hle. apply in_map. rewrite <- Hg. now apply group_of_In.
    + apply in_map_iff in Hin. destruct Hin as (a & <- & Ha). now apply Hib.
  - rewrite Hsev. cbn [with_severity Consolidated.severity]. fold e.
    now apply by_peak_severity.
Qed.

(** X29. A record of any other type, low temperature among them, carries
    the value, time and message of the first alert of its city, type and
    day in the order of the alert list, whatever the values of the later
    ones. *)
Theorem consolidate_alerts_other_types_keep_the_first :
  forall (alerts : list Alert.t) (r : Consolidated.t),
    In r (consolidate_alerts format_1f alerts) ->
    by_peak (Entry.type (Consolidated.entry r)) = false ->
    exists (pre : list Alert.t) (a : Alert.t) (post : list Alert.t),
      alerts = pre ++ a :: post /\
      key_of_alert a = entry_key (Consolidated.entry r) /\
      (forall b, In b pre -> key_of_alert b <> entry_key (Consolidated.entry r)) /\
      Entry.value (Consolidated.entry r) = Alert.value a /\
      Entry.time (Consolidated.entry r) = Alert.time a /\
      Entry.message (Consolidated.entry r) = Alert.message a.
Proof.
  intros alerts r Hr Hpeak.
  destruct (consolidate_alerts_In alerts r Hr) as (_ & first & rest & Hg & He).
  set (e := Consolidated.entry r) in *.
  destruct (consolidate_group_entry format_1f (entry_key e) first rest)
    as (e' & E & _ & _ & _ & Hp & _).
  rewrite E in He. injection He as ->.
  destruct (Hp Hpeak) as (Hv & Ht & Hm).
  destruct (filter_first_split _ _ _ _ Hg) as (pre & post & Hal & Hk & Hpre).
  exists pre, first, post. split; [exact Hal|].
  split; [now apply group_key_eqb_eq|]. split; [|auto].
  intros b Hb Hkb. apply group_key_eqb_eq in Hkb. rewrite (Hpre b Hb) in Hkb. discriminate.
Qed.

(** X30. The records come out by day, the latest day first, and within a
    day by severity: high temperature, high wind, heavy precipitation, low
    temperature, then the types without a severity.  This holds between
    any two records of the result, not only neighbours. *)
Theorem consolidate_alerts_latest_day_first :
  forall alerts : list Alert.t,
    StronglySorted before (consolidate_alerts format_1f alerts) /\
    forall r, In r (consolidate_alerts format_1f alerts) ->
      Consolidated.severity r
      = dict_get String.eqb severity_order (Entry.type (Consolidated.entry r)).
Proof.
  intros alerts. split.
  - apply Sorted_StronglySorted; [exact before_trans|].
    rewrite consolidate_alerts_entries.
    apply (Sorted_impl (fun a b => date_desc_severity_asc a b = true)).
    + intros a b. apply date_desc_severity_asc_before.
    + apply sort_by_sorted. exact date_desc_severity_asc_total.
  - intros r Hr. destruct (consolidate_alerts_In alerts r Hr) as [-> _]. reflexivity.
Qed.
End ConsolidationFurther.

(** ** A day of alerts *)

(** [f"{x:.1f}"] on a whole number that is not negative. *)
Definition whole_1f (x : Q) : string := (str (Z.to_nat (Qfloor x)) ++ ".0")%string.

(** Two hot hours in Recife, the second the hotter, and two cold hours in
    Gramado, the second the colder, on one day. *)
Definition day_of_alerts : list Alert.t :=
  [ Alert.mk "high_temperature" "Recife" 28401120 36 "High temperature alert: 36.0°C";
    Alert.mk "high_temperature" "Recife" 28401180 38 "High temperature alert: 38.0°C";
    Alert.mk "low_temperature" "Gramado" 28401120 4 "Low temperature alert: 4.0°C";
    Alert.mk "low_temperature" "Gramado" 28401180 2 "Low temperature alert: 2.0°C" ].

Definition recife_record : Consolidated.t :=
  {| Consolidated.entry :=
       {| Entry.type := "high_temperature"; Entry.city := "Recife";
          Entry.date := 19723; Entry.time := 28401180; Entry.value := 38;
          Entry.count := 2;
          Entry.message := "High temperature alert: 36.0°C (pico: 38.0, 2x no dia)" |};
     Consolidated.severity := Some 0%Z |}.

Definition gramado_record : Consolidated.t :=
  {| Consolidated.entry :=
       {| Entry.type := "low_temperature"; Entry.city := "Gramado";
          Entry.date := 19723; Entry.time := 28401120; Entry.value := 4;
          Entry.count := 2;
          Entry.message := "Low temperature alert: 4.0°C" |};
     Consolidated.severity := Some 3%Z |}.

(** The hot hours are consolidated at their peak, the cold hours at the
    first of them, which is not the coldest. *)
Example consolidation_of_a_day :
  consolidate_alerts whole_1f day_of_alerts = [recife_record; gramado_record].
Proof. vm_compute. reflexivity. Qed.

Lemma consolidate_alerts_keeps_the_peak_witness :
  exists a, In a day_of_alerts /\
            key_of_alert a = entry_key (Consolidated.entry recife_record) /\
            Alert.value a == 38 /\ Alert.time a = 28401180%Z.
Proof.
  refine (proj1 (proj2 (consolidate_alerts_keeps_the_peak whole_1f day_of_alerts
                          recife_record _ eq_refl))).
  vm_compute. left. reflexivity.
Defined.

Lemma consolidate_alerts_other_types_keep_the_first_witness :
  exists (pre : list Alert.t) (a : Alert.t) (post : list Alert.t),
    day_of_alerts = pre ++ a :: post /\
    key_of_alert a = entry_key (Consolidated.entry gramado_record) /\
    (forall b, In b pre -> key_of_alert b <> entry_key (Consolidated.entry gramado_record)) /\
    4%Q = Alert.value a /\ 28401120%Z = Alert.time a /\
    "Low temperature alert: 4.0°C" = Alert.message a.
Proof.
  refine (consolidate_alerts_other_types_keep_the_first whole_1f day_of_alerts
            gramado_record _ eq_refl).
  vm_compute. right. left. reflexivity.
Defined.
